(** * Order fulfilment consistency: quotes, payments and the stock ledger

    A shallow embedding of the budget-generator backend (Express + Mongoose,
    TypeScript) and the proofs of its specification's claims.

    Conventions of the embedding.
    - A MongoDB collection looked up by [_id] is a [gmap] from the hexadecimal
      text of the [ObjectId] to the document; the payments collection, which
      is searched by field and whose uniqueness is itself a claim, is a list
      in insertion order.
    - An [async] function that reads or writes the database, logs, or throws
      is a computation in the monad [M]: it takes the world (collections and
      the log written so far) and returns either the thrown [Error]'s message
      or a value, together with the new world.
    - [new Date()] is an argument [now] (milliseconds since the epoch).
    - Stock levels and quantities are whole numbers ([Z]).  The code
      computes on IEEE-754 binary64 numbers: what it adds to a stock level
      is rounded to the nearest such number ([Number_round]), which
      changes nothing up to 2^53.  The documents carry prices, percentages
      and totals as exact rationals ([Q]), with the arithmetic of the
      source written out; the computation of the totals is given a second
      time on binary64 numbers ([Binary64]).
    - Of the schema validators that run at [save] time the model keeps,
      for a stored document, the one that can fail for a document that
      was valid when stored (the expiration of a quote must lie in the
      future), and, for the payment [createPayment] makes, those of the
      paths it is given; storage failures are outside the model. *)

From Stdlib Require Import ZArith QArith Qround Lqa String Ascii List Lia.
From Stdlib Require Import Floats.
From stdpp Require Import base option list gmap strings fin_maps pretty.

Local Open Scope string_scope.
Local Open Scope list_scope.
Local Open Scope Z_scope.

(** ** ObjectIds (bson) *)

Module ObjectId.

Definition isHexDigit (c : ascii) : bool :=
  let n := nat_of_ascii c in
  ((48 <=? n) && (n <=? 57) || (65 <=? n) && (n <=? 70) || (97 <=? n) && (n <=? 102))%nat.

Definition lowerHexDigit (c : ascii) : ascii :=
  let n := nat_of_ascii c in
  if ((65 <=? n) && (n <=? 70))%nat then ascii_of_nat (n + 32) else c.

Fixpoint forallChars (f : ascii -> bool) (s : string) : bool :=
  match s with
  | EmptyString => true
  | String c r => f c && forallChars f r
  end.

Fixpoint mapChars (f : ascii -> ascii) (s : string) : string :=
  match s with
  | EmptyString => EmptyString
  | String c r => String (f c) (mapChars f r)
  end.

(** [new Types.ObjectId(s)] for a string [s]: a 24 character hexadecimal
    string is accepted, anything else throws.  The value is kept as the
    text [toString()] gives back, which is lower case. *)
Definition fromString (s : string) : option string :=
  if (String.length s =? 24)%nat && forallChars isHexDigit s
  then Some (mapChars lowerHexDigit s)
  else None.

Definition BSONError : string :=
  "input must be a 24 character hex string, 12 byte Uint8Array, or an integer".

End ObjectId.

(** ** Numbers

    A JavaScript number is an IEEE-754 binary64 number, and so is the
    number MongoDB's [$inc] adds to.  The whole numbers up to 2^53 in
    magnitude are all such numbers; a larger whole number is one only
    when it is a multiple of the power of two that leaves it a 53 bit
    significand.  [Number_round z] is the binary64 number nearest to the
    whole number [z], a tie going to the even significand (for [z] below
    2^1024 in magnitude: beyond, the code has [Infinity]). *)

Definition MAX_SAFE_INTEGER : Z := 2 ^ 53 - 1.

Definition Number_round (z : Z) : Z :=
  if Z.abs z <=? 2 ^ 53 then z
  else
    let ulp := 2 ^ (Z.log2 (Z.abs z) - 52) in
    let significand := Z.abs z / ulp in
    let rest := Z.abs z mod ulp in
    let half := ulp / 2 in
    let rounded :=
      if rest <? half then significand
      else if half <? rest then significand + 1
      else if Z.even significand then significand else significand + 1 in
    Z.sgn z * (rounded * ulp).

(** ** Documents *)

Record Product := mkProduct {
  p_name : string;
  p_price : Q;
  p_stock : Z;
  p_isActive : bool
}.

(** [ProductSchema.methods.validateStock] *)
Definition Product_validateStock (this : Product) (quantity : Z) : bool :=
  (quantity <=? p_stock this) && (0 <? quantity).

Inductive QuoteStatus := q_pending | q_paid | q_cancelled | q_expired.
Inductive PaymentStatus := pay_pending | pay_approved | pay_rejected | pay_cancelled.

#[global] Instance QuoteStatus_eq_dec : EqDecision QuoteStatus.
Proof. solve_decision. Defined.
#[global] Instance PaymentStatus_eq_dec : EqDecision PaymentStatus.
Proof. solve_decision. Defined.

Record QuoteItem := mkQuoteItem {
  qi_product : string;          (* ObjectId of the product *)
  qi_snapshotName : string;     (* productSnapshot.name *)
  qi_snapshotPrice : Q;         (* productSnapshot.price *)
  qi_quantity : Z;
  qi_subtotal : Q
}.

Record Quote := mkQuote {
  q_quoteNumber : string;
  q_items : list QuoteItem;
  q_subtotal : Q;
  q_tax : Q;
  q_discount : Q;
  q_total : Q;
  q_status : QuoteStatus;
  q_paymentId : option string;
  q_expiresAt : Z;
  q_createdBy : string
}.

(** The payload [handlePaymentWebhook] receives ([ProcessedWebhookData]):
    the status is the text the gateway reported. *)
Record WebhookData := mkWebhookData {
  wd_paymentId : string;
  wd_status : string;
  wd_externalReference : option string
}.

Record Payment := mkPayment {
  pay_id : string;
  pay_quote : string;
  pay_mercadopagoId : string;
  pay_status : PaymentStatus;
  pay_amount : Q;
  pay_externalReference : string;
  pay_webhookData : option WebhookData;
  pay_paidAt : option Z
}.

(** ** The world and the monad of the handlers *)

Inductive Level := Info | Warn | Error.

#[global] Instance Level_eq_dec : EqDecision Level.
Proof. solve_decision. Defined.

Record World := mkWorld {
  products : gmap string Product;
  quotes : gmap string Quote;
  payments : list Payment;
  logs : list (Level * string)
}.

Definition M (A : Type) : Type := World -> (string + A) * World.

Definition ret {A} (a : A) : M A := fun w => (inr a, w).

Definition bind {A B} (m : M A) (k : A -> M B) : M B :=
  fun w => match m w with
           | (inl e, w') => (inl e, w')
           | (inr a, w') => k a w'
           end.

Notation "x <- m ;; k" := (bind m (fun x => k))
  (at level 100, m at level 99, k at level 200, right associativity).
Notation "m ;;; k" := (bind m (fun _ => k))
  (at level 100, k at level 200, right associativity).

(** [throw new Error(msg)] *)
Definition throw {A} (msg : string) : M A := fun w => (inl msg, w).

(** [try { m } catch (error) { h error.message }] *)
Definition try_catch {A} (m : M A) (h : string -> M A) : M A :=
  fun w => match m w with
           | (inl e, w') => h e w'
           | r => r
           end.

Definition logger (l : Level) (msg : string) : M unit :=
  fun w => (inr tt, mkWorld (products w) (quotes w) (payments w) (logs w ++ [(l, msg)])).

(** The transports of the logger (src/utils/logger.ts): every entry goes
    to [logs/combined.log]; those at level [error] also go to the
    separate file [logs/error.log]. *)
Definition errorLog (w : World) : list string :=
  snd <$> filter (fun entry => entry.1 = Error) (logs w).

(** [session.withTransaction(callback)]: when the callback throws, the
    transaction is aborted, the writes made with the session are undone
    and the error is thrown on.  The only writes the callbacks below
    make are to products; what was logged stays logged. *)
Definition withTransaction {A} (callback : M A) : M A :=
  fun w => match callback w with
           | (inl e, w') => (inl e, mkWorld (products w) (quotes w') (payments w') (logs w'))
           | r => r
           end.

Fixpoint mapM {A B} (f : A -> M B) (l : list A) : M (list B) :=
  match l with
  | [] => ret []
  | a :: r => b <- f a ;; bs <- mapM f r ;; ret (b :: bs)
  end.

(** ** Ids given as text (Mongoose)

    A query casts the text it is given for an [ObjectId] path and
    rejects with a [CastError] when the text is not an id; so does the
    constructor of a document for the paths it is given. *)

Definition doubleQuote : string := String "034"%char EmptyString.

Definition CastError (value path model : string) : string :=
  "Cast to ObjectId failed for value " +:+ doubleQuote +:+ value +:+ doubleQuote
    +:+ " (type string) at path " +:+ doubleQuote +:+ path +:+ doubleQuote
    +:+ " for model " +:+ doubleQuote +:+ model +:+ doubleQuote.

Definition castPath (model path value : string) : M string :=
  match ObjectId.fromString value with
  | Some oid => ret oid
  | None => throw (CastError value path model)
  end.

Definition castObjectId (model id : string) : M string := castPath model "_id" id.

(** ** Stock service (src/services/stock.service.ts) *)

Record StockItem := mkStockItem {
  productId : string;
  quantity : Z
}.

Record ValidationError := mkValidationError {
  ve_productId : string;
  ve_productName : string;
  ve_requested : Z;
  ve_available : Z
}.

Record StockValidationResult := mkStockValidationResult {
  isValid : bool;
  v_errors : list ValidationError
}.

Record OperationError := mkOperationError {
  oe_productId : string;
  oe_productName : option string;
  oe_error : string;
  oe_requested : option Z;
  oe_available : option Z
}.

Record UpdatedProduct := mkUpdatedProduct {
  up_productId : string;
  up_productName : string;
  up_previousStock : Z;
  up_newStock : Z
}.

Record StockOperationResult := mkStockOperationResult {
  success : bool;
  message : string;
  errors : option (list OperationError);
  updatedProducts : option (list UpdatedProduct)
}.

(** [new Types.ObjectId(item.productId)] *)
Definition ObjectId_new (s : string) : M string :=
  match ObjectId.fromString s with
  | Some oid => ret oid
  | None => throw ObjectId.BSONError
  end.

(** [Product.find({ _id: { $in: productIds }, isActive: true })] followed by
    [new Map(products.map(product => [product._id.toString(), product]))]:
    the active products among the ids, indexed by the text of their id. *)
Definition activeAmong (ids : list string) (ps : gmap string Product) : gmap string Product :=
  filter (fun kp => kp.1 ∈ ids /\ p_isActive kp.2 = true) ps.

Definition Product_findActive (productIds : list string) : M (gmap string Product) :=
  fun w => (inr (activeAmong productIds (products w)), w).

(** [Product.findByIdAndUpdate(id, { $inc: { stock: delta } }, { new: true })]:
    the document after the update, or [None] when there is none with this id.
    (The update validators that [runValidators] turns on do not run for
    [$inc].)  The loops below call it with the key under which the map
    holds the product, which is the text of [product._id]. *)
Definition incStock (delta : Z) (p : Product) : Product :=
  mkProduct (p_name p) (p_price p) (Number_round (p_stock p + delta)) (p_isActive p).

Definition Product_findByIdAndUpdate_inc (id : string) (delta : Z) : M (option Product) :=
  fun w => match products w !! id with
           | None => (inr None, w)
           | Some p =>
               let p' := incStock delta p in
               (inr (Some p'), mkWorld (<[id := p']> (products w)) (quotes w) (payments w) (logs w))
           end.

Fixpoint validateItems (productMap : gmap string Product) (items : list StockItem)
  : list ValidationError :=
  match items with
  | [] => []
  | item :: rest =>
      match productMap !! productId item with
      | None =>
          mkValidationError (productId item) "Producto no encontrado" (quantity item) 0
            :: validateItems productMap rest
      | Some product =>
          if negb (Product_validateStock product (quantity item))
          then mkValidationError (productId item) (p_name product) (quantity item) (p_stock product)
                 :: validateItems productMap rest
          else validateItems productMap rest
      end
  end.

Definition validateStock (items : list StockItem) : M StockValidationResult :=
  try_catch
    (logger Info "Validando stock para items" ;;;
     productIds <- mapM (fun item => ObjectId_new (productId item)) items ;;
     productMap <- Product_findActive productIds ;;
     let errors := validateItems productMap items in
     let result := mkStockValidationResult (Nat.eqb (length errors) 0) errors in
     logger Info "Validación de stock completada" ;;;
     ret result)
    (fun _ =>
       logger Error "Error validando stock:" ;;;
       throw "Error validando disponibilidad de stock").

(** The result [decrementStock] assigns when the validation fails. *)
Definition insufficientStockResult (validation : StockValidationResult) : StockOperationResult :=
  mkStockOperationResult false "Stock insuficiente para uno o más productos"
    (Some (map (fun err =>
                  mkOperationError (ve_productId err) (Some (ve_productName err))
                    ("Stock insuficiente. Solicitado: " +:+ pretty (ve_requested err)
                       +:+ ", Disponible: " +:+ pretty (ve_available err))
                    (Some (ve_requested err)) (Some (ve_available err)))
               (v_errors validation)))
    None.

(** The [catch] of [decrementStock] and of [incrementStock]. *)
Definition transactionErrorResult (error_message : string) : StockOperationResult :=
  mkStockOperationResult false "Error en la transacción de stock"
    (Some [mkOperationError "general" None error_message None None])
    None.

(** The loop [for (const item of items)] of [decrementStock], with its two
    accumulators. *)
Fixpoint decrementItems (productMap : gmap string Product) (items : list StockItem)
    (updated : list UpdatedProduct) (errs : list OperationError)
  : M (list UpdatedProduct * list OperationError) :=
  match items with
  | [] => ret (updated, errs)
  | item :: rest =>
      match productMap !! productId item with
      | None =>
          decrementItems productMap rest updated
            (errs ++ [mkOperationError (productId item) None "Producto no encontrado" None None])
      | Some product =>
          if p_stock product <? quantity item
          then decrementItems productMap rest updated
                 (errs ++ [mkOperationError (productId item) (Some (p_name product))
                             "Stock insuficiente" (Some (quantity item)) (Some (p_stock product))])
          else
            let previousStock := p_stock product in
            updatedProduct <- Product_findByIdAndUpdate_inc (productId item) (- quantity item) ;;
            match updatedProduct with
            | None =>
                decrementItems productMap rest updated
                  (errs ++ [mkOperationError (productId item) (Some (p_name product))
                              "Error actualizando producto" None None])
            | Some updatedProduct =>
                if p_stock updatedProduct <? 0
                then throw ("Stock negativo resultante para " +:+ p_name product)
                else
                  logger Info "Stock decrementado" ;;;
                  decrementItems productMap rest
                    (updated ++ [mkUpdatedProduct (productId item) (p_name product)
                                   previousStock (p_stock updatedProduct)])
                    errs
            end
      end
  end.

(** [decrementStock].  The session is opened before the [try] and ended
    in the [finally]; the assignments to [result] that a [throw] follows
    are kept as [let]s: the [catch] builds its own result. *)
Definition decrementStock (items : list StockItem) : M StockOperationResult :=
  try_catch
    (logger Info "Iniciando decremento de stock atómico" ;;;
     result <- withTransaction
       (validation <- validateStock items ;;
        if negb (isValid validation)
        then
          let result := insufficientStockResult validation in
          throw "Validación de stock fallida"
        else
          productIds <- mapM (fun item => ObjectId_new (productId item)) items ;;
          productMap <- Product_findActive productIds ;;
          r <- decrementItems productMap items [] [] ;;
          let '(updatedProducts, errors) := r in
          if (0 <? length errors)%nat
          then
            let result := mkStockOperationResult false
                            "Error decrementando stock de algunos productos" (Some errors) None in
            throw "Error en decremento de stock"
          else
            ret (mkStockOperationResult true "Stock decrementado exitosamente"
                   None (Some updatedProducts))) ;;
     logger Info "Decremento de stock completado exitosamente" ;;;
     ret result)
    (fun error_message =>
       logger Error "Error decrementando stock:" ;;;
       ret (transactionErrorResult error_message)).

(** The loop of [incrementStock]. *)
Fixpoint incrementItems (productMap : gmap string Product) (items : list StockItem)
    (updated : list UpdatedProduct) (errs : list OperationError)
  : M (list UpdatedProduct * list OperationError) :=
  match items with
  | [] => ret (updated, errs)
  | item :: rest =>
      match productMap !! productId item with
      | None =>
          incrementItems productMap rest updated
            (errs ++ [mkOperationError (productId item) None "Producto no encontrado" None None])
      | Some product =>
          let previousStock := p_stock product in
          updatedProduct <- Product_findByIdAndUpdate_inc (productId item) (quantity item) ;;
          match updatedProduct with
          | None =>
              incrementItems productMap rest updated
                (errs ++ [mkOperationError (productId item) (Some (p_name product))
                            "Error actualizando producto" None None])
          | Some updatedProduct =>
              logger Info "Stock incrementado" ;;;
              incrementItems productMap rest
                (updated ++ [mkUpdatedProduct (productId item) (p_name product)
                               previousStock (p_stock updatedProduct)])
                errs
          end
      end
  end.

Definition incrementStock (items : list StockItem) : M StockOperationResult :=
  try_catch
    (logger Info "Iniciando incremento de stock atómico" ;;;
     result <- withTransaction
       (productIds <- mapM (fun item => ObjectId_new (productId item)) items ;;
        productMap <- Product_findActive productIds ;;
        r <- incrementItems productMap items [] [] ;;
        let '(updatedProducts, errors) := r in
        if (0 <? length errors)%nat
        then
          let result := mkStockOperationResult false
                          "Error incrementando stock de algunos productos" (Some errors) None in
          throw "Error en incremento de stock"
        else
          ret (mkStockOperationResult true "Stock incrementado exitosamente"
                 None (Some updatedProducts))) ;;
     logger Info "Incremento de stock completado exitosamente" ;;;
     ret result)
    (fun error_message =>
       logger Error "Error incrementando stock:" ;;;
       ret (transactionErrorResult error_message)).

(** ** Quote model (src/models/Quote.ts) *)

(** [Math.round]: the nearest integer, a tie going up. *)
Definition Math_round (x : Q) : Q := inject_Z (Qfloor (x + (1 # 2))).

Definition setItemSubtotal (item : QuoteItem) (s : Q) : QuoteItem :=
  mkQuoteItem (qi_product item) (qi_snapshotName item) (qi_snapshotPrice item)
    (qi_quantity item) s.

(** The [reduce] of [calculateTotals]: it rewrites each item's subtotal
    and adds it to the running sum. *)
Definition reduceItems (items : list QuoteItem) : Q * list QuoteItem :=
  fold_left
    (fun (acc : Q * list QuoteItem) item =>
       let item' := setItemSubtotal item
                      (qi_snapshotPrice item * inject_Z (qi_quantity item))%Q in
       ((acc.1 + qi_subtotal item')%Q, (acc.2 ++ [item'])%list))
    items (0%Q, []).

(** [QuoteSchema.methods.calculateTotals] *)
Definition calculateTotals (this : Quote) : Quote :=
  let '(subtotal, items) := reduceItems (q_items this) in
  let discountAmount := ((subtotal * q_discount this) / 100)%Q in
  let afterDiscount := (subtotal - discountAmount)%Q in
  let taxAmount := ((afterDiscount * q_tax this) / 100)%Q in
  let total := (afterDiscount + taxAmount)%Q in
  let subtotal := (Math_round (subtotal * 100) / 100)%Q in
  let total := (Math_round (total * 100) / 100)%Q in
  mkQuote (q_quoteNumber this) items subtotal (q_tax this) (q_discount this) total
    (q_status this) (q_paymentId this) (q_expiresAt this) (q_createdBy this).

Definition setQuoteStatus (q : Quote) (s : QuoteStatus) : Quote :=
  mkQuote (q_quoteNumber q) (q_items q) (q_subtotal q) (q_tax q) (q_discount q) (q_total q)
    s (q_paymentId q) (q_expiresAt q) (q_createdBy q).

Definition setQuotePaymentId (q : Quote) (pid : option string) : Quote :=
  mkQuote (q_quoteNumber q) (q_items q) (q_subtotal q) (q_tax q) (q_discount q) (q_total q)
    (q_status q) pid (q_expiresAt q) (q_createdBy q).

(** [Quote.findById(id)] for an [ObjectId]; a caller that has the id as
    a text casts it first. *)
Definition Quote_findById (id : string) : M (option Quote) :=
  fun w => (inr (quotes w !! id), w).

(** The validator of [expiresAt] in the quote schema: the date must be
    after [new Date()]. *)
Definition Quote_validate_expiresAt (this : Quote) (now : Z) : bool :=
  now <? q_expiresAt this.

Definition Quote_ValidationError : string :=
  "Quote validation failed: expiresAt: La fecha de expiración debe ser futura".

(** [quote.save()] of a stored quote.  Mongoose validates the document
    first, the paths it loaded as well as those that were set, and
    rejects with a [ValidationError] when a validator fails; of the
    validators of the schema only the one of [expiresAt] can fail for a
    quote that was valid when it was stored.  Then the pre-save hook
    recomputes the totals and the document is written. *)
Definition Quote_save (id : string) (this : Quote) (now : Z) : M unit :=
  fun w =>
    if Quote_validate_expiresAt this now
    then (inr tt, mkWorld (products w) (<[id := calculateTotals this]> (quotes w))
                    (payments w) (logs w))
    else (inl Quote_ValidationError, w).

(** [QuoteSchema.statics.expireOldQuotes], and the [updateMany] of the
    controller of the same name: the filter
    [{ status: 'pending', expiresAt: { $lte: now } }], the update
    [{ status: 'expired' }]. *)
Definition expireFilter (now : Z) (q : Quote) : bool :=
  bool_decide (q_status q = q_pending) && (q_expiresAt q <=? now).

Definition expireOne (now : Z) (q : Quote) : Quote :=
  if expireFilter now q then setQuoteStatus q q_expired else q.

Definition Quote_expireOldQuotes (now : Z) : M nat :=
  fun w =>
    (inr (size (filter (fun kq => expireFilter now kq.2 = true) (quotes w))),
     mkWorld (products w) (expireOne now <$> quotes w) (payments w) (logs w)).

(** ** Payment model *)

Definition setPaymentStatus (p : Payment) (s : PaymentStatus) : Payment :=
  mkPayment (pay_id p) (pay_quote p) (pay_mercadopagoId p) s (pay_amount p)
    (pay_externalReference p) (pay_webhookData p) (pay_paidAt p).

Definition setPaidAt (p : Payment) (t : option Z) : Payment :=
  mkPayment (pay_id p) (pay_quote p) (pay_mercadopagoId p) (pay_status p) (pay_amount p)
    (pay_externalReference p) (pay_webhookData p) t.

Definition setWebhookData (p : Payment) (d : option WebhookData) : Payment :=
  mkPayment (pay_id p) (pay_quote p) (pay_mercadopagoId p) (pay_status p) (pay_amount p)
    (pay_externalReference p) d (pay_paidAt p).

(** [Payment.findOne({ externalReference })] *)
Definition Payment_findOne_byExternalReference (ref : string) : M (option Payment) :=
  fun w => (inr (find (fun p => String.eqb (pay_externalReference p) ref) (payments w)), w).

(** [Payment.findOne({ quote })], the quote given as a text. *)
Definition Payment_findOne_byQuote (quoteId : string) : M (option Payment) :=
  oid <- castPath "Payment" "quote" quoteId ;;
  fun w => (inr (find (fun p => String.eqb (pay_quote p) oid) (payments w)), w).

(** The third pre-save hook of the payment schema: [paidAt] follows a
    modified status. *)
Definition Payment_preSave_paidAt (statusModified : bool) (now : Z) (this : Payment) : Payment :=
  if statusModified then
    if bool_decide (pay_status this = pay_approved) && negb (bool_decide (is_Some (pay_paidAt this)))
    then setPaidAt this (Some now)
    else if negb (bool_decide (pay_status this = pay_approved))
         then setPaidAt this None
         else this
  else this.

Definition replacePayment (this : Payment) (ps : list Payment) : list Payment :=
  map (fun p => if String.eqb (pay_id p) (pay_id this) then this else p) ps.

(** [payment.save()] of a payment loaded as [loaded] and changed to
    [this]: the first two hooks do nothing for a stored document whose
    quote was not modified; the third one runs; the document is written. *)
Definition Payment_save (loaded this : Payment) (now : Z) : M unit :=
  fun w =>
    let statusModified := negb (bool_decide (pay_status this = pay_status loaded)) in
    let this := Payment_preSave_paidAt statusModified now this in
    (inr tt, mkWorld (products w) (quotes w) (replacePayment this (payments w)) (logs w)).

(** ** Controllers *)

Record Response := mkResponse {
  statusCode : Z;
  r_success : bool;
  r_message : string;
  r_code : option string
}.

Definition successResponse (message : string) : Response := mkResponse 200 true message None.
Definition updatedResponse (message : string) : Response := mkResponse 200 true message None.
Definition createdResponse (message : string) : Response := mkResponse 201 true message None.
Definition notFoundResponse (message : string) : Response :=
  mkResponse 404 false message (Some "RESOURCE_NOT_FOUND").
Definition badRequestResponse (message : string) : Response :=
  mkResponse 400 false message (Some "BAD_REQUEST").
Definition errorResponse (message : string) (code : Z) (errorCode : string) : Response :=
  mkResponse code false message (Some errorCode).

Definition QuoteStatus_text (s : QuoteStatus) : string :=
  match s with
  | q_pending => "pending"
  | q_paid => "paid"
  | q_cancelled => "cancelled"
  | q_expired => "expired"
  end.

Inductive Role := admin | seller.

Record User := mkUser {
  u_id : string;
  u_role : Role
}.

(** [Quote.findOne(filters)] of [cancelQuote]: the id, and for a seller
    the creator too, both cast to ids; the document found, with its
    [_id]. *)
Definition Quote_findOne_forUser (id : string) (user : option User)
  : M (option (string * Quote)) :=
  oid <- castObjectId "Quote" id ;;
  createdBy <- match user with
               | Some (mkUser uid seller) =>
                   uid <- castPath "Quote" "createdBy" uid ;; ret (Some uid)
               | _ => ret None
               end ;;
  fun w =>
    (inr (match quotes w !! oid with
          | Some q =>
              match createdBy with
              | Some uid => if String.eqb (q_createdBy q) uid then Some (oid, q) else None
              | None => Some (oid, q)
              end
          | None => None
          end), w).

(** [PUT /quotes/:id/cancel], handled at time [now]. *)
Definition cancelQuote (id : string) (user : option User) (now : Z) : M Response :=
  try_catch
    (found <- Quote_findOne_forUser id user ;;
     match found with
     | None => ret (notFoundResponse "Presupuesto no encontrado")
     | Some (oid, quote) =>
         if negb (bool_decide (q_status quote = q_pending))
         then ret (badRequestResponse
                     ("No se puede cancelar un presupuesto en estado "
                        +:+ QuoteStatus_text (q_status quote)))
         else
           let quote := setQuoteStatus quote q_cancelled in
           Quote_save oid quote now ;;;
           logger Info ("Presupuesto cancelado: " +:+ q_quoteNumber quote) ;;;
           ret (updatedResponse "Presupuesto cancelado exitosamente")
     end)
    (fun e => logger Error "Error cancelando presupuesto:" ;;; throw e).

(** [POST /quotes/expire-old] *)
Definition expireOldQuotes (now : Z) : M Response :=
  try_catch
    (modifiedCount <- Quote_expireOldQuotes now ;;
     logger Info (pretty modifiedCount +:+ " presupuestos expirados automáticamente") ;;;
     ret (successResponse (pretty modifiedCount +:+ " presupuestos expirados")))
    (fun e => logger Error "Error expirando presupuestos antiguos:" ;;; throw e).

(** A string in a condition: the empty string is false. *)
Definition truthy (s : string) : bool := negb (String.eqb s "").

(** What follows the [switch] of [handlePaymentWebhook]. *)
Definition savePaymentAfterWebhook (loaded payment : Payment) (webhookData : WebhookData)
    (now : Z) : M unit :=
  let payment := setWebhookData payment (Some webhookData) in
  Payment_save loaded payment now ;;;
  logger Info "Pago actualizado por webhook".

(** [handlePaymentWebhook] (payment controller) *)
Definition handlePaymentWebhook (webhookData : WebhookData) (now : Z) : M unit :=
  try_catch
    (logger Info "Procesando webhook de pago" ;;;
     payment <- match wd_externalReference webhookData with
                | Some externalReference =>
                    if truthy externalReference
                    then Payment_findOne_byExternalReference externalReference
                    else ret None
                | None => ret None
                end ;;
     match payment with
     | None => logger Warn "No se pudo encontrar el pago asociado al webhook"
     | Some loaded =>
         let previousStatus := pay_status loaded in
         if String.eqb (wd_status webhookData) "approved" then
           let payment := setPaidAt (setPaymentStatus loaded pay_approved) (Some now) in
           quote <- Quote_findById (pay_quote payment) ;;
           match quote with
           | Some quote =>
               let quote := setQuoteStatus quote q_paid in
               Quote_save (pay_quote payment) quote now ;;;
               let stockItems :=
                 map (fun item => mkStockItem (qi_product item) (qi_quantity item))
                     (q_items quote) in
               stockResult <- decrementStock stockItems ;;
               if negb (success stockResult)
               then logger Error "Error decrementando stock después del pago"
               else logger Info "Stock decrementado exitosamente"
           | None => ret tt
           end ;;;
           savePaymentAfterWebhook loaded payment webhookData now
         else if String.eqb (wd_status webhookData) "rejected" then
           let payment := setPaymentStatus loaded pay_rejected in
           rejectedQuote <- Quote_findById (pay_quote payment) ;;
           savePaymentAfterWebhook loaded payment webhookData now
         else if String.eqb (wd_status webhookData) "cancelled" then
           let payment := setPaymentStatus loaded pay_cancelled in
           savePaymentAfterWebhook loaded payment webhookData now
         else
           logger Info "Estado de pago no reconocido"
     end)
    (fun e => logger Error "Error manejando webhook de pago:" ;;; throw e).

(** *** Creating a payment (payment controller, [createPayment])

    Each [await] of the handler is a point where another request can
    run, so the handler is written as a machine: [createPayment_step]
    performs what lies between two such points, atomically, and
    [CreatePaymentPc] records where the request stands and the local
    variables it holds. *)

Record CreatePaymentRequest := mkCreatePaymentRequest {
  cp_quoteId : string;
  cp_newId : string;              (* the _id [new Payment] draws *)
  cp_now : Z;                     (* [Date.now()] *)
  cp_preferenceId : option string
    (* the id of the preference the gateway adapter returns, as the
       [trim] of the schema leaves it; [None]: the adapter throws *)
}.

(** The quote is held as the query returned it: [populated] is what
    [populate('items.product')] put in the place of each item's
    product, [None] for an item whose product is not in the
    collection. *)
Inductive CreatePaymentPc :=
| AtFindQuote
| AtFindExisting (quote : Quote) (populated : list (option Product))
| AtValidateStock (quote : Quote) (populated : list (option Product))
| AtCreateOrder (quote : Quote)
| AtPreSave (quote : Quote) (payment : Payment)
| AtInsert (quote : Quote) (payment : Payment)
| AtLinkQuote (quote : Quote) (payment : Payment)
| Responded (r : Response).

(** [populate('items.product', ...)] *)
Definition Quote_populateProducts (quote : Quote) : M (list (option Product)) :=
  fun w => (inr (map (fun item => products w !! qi_product item) (q_items quote)), w).

(** [item.product._id?.toString() || ''] on a populated item: reading
    [_id] of [null] throws a [TypeError]. *)
Definition TypeError_null_id : string := "Cannot read properties of null (reading '_id')".

Definition populatedProductId (item : QuoteItem) (product : option Product) : M string :=
  match product with
  | Some _ => ret (qi_product item)
  | None => throw TypeError_null_id
  end.

Fixpoint populatedStockItems (items : list QuoteItem) (populated : list (option Product))
  : M (list StockItem) :=
  match items, populated with
  | item :: items, product :: populated =>
      productId <- populatedProductId item product ;;
      rest <- populatedStockItems items populated ;;
      ret (mkStockItem productId (qi_quantity item) :: rest)
  | _, _ => ret []
  end.

(** The validators of the payment schema that can fail for the payment
    [createPayment] builds: [mercadopagoId] and [externalReference] are
    required (an empty text is missing), [amount] is at least 0.01.  The
    message of the [ValidationError] names the paths that failed. *)
Definition Payment_validationErrors (this : Payment) : list string :=
  (if truthy (pay_mercadopagoId this) then []
   else ["mercadopagoId: El ID de MercadoPago es requerido"])
  ++ (if Qle_bool (1 # 100) (pay_amount this) then []
      else ["amount: El monto debe ser mayor a 0"])
  ++ (if truthy (pay_externalReference this) then []
      else ["externalReference: La referencia externa es requerida"]).

Fixpoint joinWith (separator : string) (parts : list string) : string :=
  match parts with
  | [] => ""
  | [part] => part
  | part :: rest => part +:+ separator +:+ joinWith separator rest
  end.

Definition Payment_validate (this : Payment) : M unit :=
  match Payment_validationErrors this with
  | [] => ret tt
  | errors => throw ("Payment validation failed: " +:+ joinWith ", " errors)
  end.

(** The unique indexes the payment schema declares ([unique: true] on
    [quote], [mercadopagoId] and [externalReference]) and the one every
    collection has on [_id]: the database refuses a document that
    repeats one of these values. *)
Definition duplicatesKey (p : Payment) (ps : list Payment) : bool :=
  existsb (fun p' =>
             String.eqb (pay_id p') (pay_id p)
             || String.eqb (pay_quote p') (pay_quote p)
             || String.eqb (pay_mercadopagoId p') (pay_mercadopagoId p)
             || String.eqb (pay_externalReference p') (pay_externalReference p)) ps.

Definition Payment_insert (p : Payment) : M unit :=
  fun w =>
    if duplicatesKey p (payments w)
    then (inl "E11000 duplicate key error", w)
    else (inr tt, mkWorld (products w) (quotes w) (payments w ++ [p]) (logs w)).

(** The first pre-save hook of the payment schema, for a new payment:
    [findOne({ quote: this.quote, _id: { $ne: this._id } })]. *)
Definition Payment_preSave_unique (this : Payment) : M unit :=
  fun w =>
    match find (fun p => String.eqb (pay_quote p) (pay_quote this)
                         && negb (String.eqb (pay_id p) (pay_id this))) (payments w) with
    | Some _ => (inl "Ya existe un pago para este presupuesto", w)
    | None => (inr tt, w)
    end.

(** [quote.paymentId = payment._id; await quote.save()]: validation as
    in [Quote_save]; the save writes the modified paths of the stored
    quote. *)
Definition Quote_linkPayment (id : string) (quote : Quote) (paymentId : string) (now : Z)
  : M unit :=
  fun w =>
    if Quote_validate_expiresAt quote now
    then (inr tt,
          mkWorld (products w)
            (alter (fun q => calculateTotals (setQuotePaymentId q (Some paymentId))) id
                   (quotes w))
            (payments w) (logs w))
    else (inl Quote_ValidationError, w).

Fixpoint includes (needle hay : string) : bool :=
  String.prefix needle hay
  || match hay with
     | EmptyString => false
     | String _ rest => includes needle rest
     end.

(** The [catch] of [createPayment]. *)
Definition createPayment_catch (error_message : string) : M CreatePaymentPc :=
  logger Error "Error creando orden de pago:" ;;;
  if includes "MercadoPago" error_message
  then ret (Responded (errorResponse "Error en el servicio de pagos" 502 "PAYMENT_SERVICE_ERROR"))
  else ret (Responded (errorResponse "Error interno del servidor" 500 "INTERNAL_ERROR")).

(** The request names the quote by a text, [quoteId]: the queries and
    the constructor of the payment cast it; [quote._id] is the id it was
    cast to.  [payment.save()] validates the new payment, runs the
    pre-save hook and inserts. *)
Definition createPayment_step (req : CreatePaymentRequest) (pc : CreatePaymentPc)
  : M CreatePaymentPc :=
  try_catch
    match pc with
    | AtFindQuote =>
        logger Info "Iniciando creación de pago" ;;;
        quoteId <- castObjectId "Quote" (cp_quoteId req) ;;
        quote <- Quote_findById quoteId ;;
        match quote with
        | None => ret (Responded (notFoundResponse "Presupuesto no encontrado"))
        | Some quote =>
            populated <- Quote_populateProducts quote ;;
            if negb (bool_decide (q_status quote = q_pending))
            then ret (Responded (badRequestResponse
                        ("El presupuesto no está en estado pending. Estado actual: "
                           +:+ QuoteStatus_text (q_status quote))))
            else ret (AtFindExisting quote populated)
        end
    | AtFindExisting quote populated =>
        existingPayment <- Payment_findOne_byQuote (cp_quoteId req) ;;
        match existingPayment with
        | Some _ => ret (Responded (badRequestResponse "Ya existe un pago para este presupuesto"))
        | None => ret (AtValidateStock quote populated)
        end
    | AtValidateStock quote populated =>
        stockItems <- populatedStockItems (q_items quote) populated ;;
        stockValidation <- validateStock stockItems ;;
        if negb (isValid stockValidation)
        then ret (Responded (badRequestResponse "Stock insuficiente para uno o más productos"))
        else ret (AtCreateOrder quote)
    | AtCreateOrder quote =>
        let externalReference :=
          "QUOTE-" +:+ q_quoteNumber quote +:+ "-" +:+ pretty (cp_now req) in
        match cp_preferenceId req with
        | None => throw "Error en MercadoPago: "
        | Some preferenceId =>
            quoteId <- castPath "Payment" "quote" (cp_quoteId req) ;;
            ret (AtPreSave quote
                   (mkPayment (cp_newId req) quoteId preferenceId pay_pending
                      (q_total quote) externalReference None None))
        end
    | AtPreSave quote payment =>
        Payment_validate payment ;;;
        Payment_preSave_unique payment ;;;
        ret (AtInsert quote payment)
    | AtInsert quote payment =>
        Payment_insert payment ;;;
        ret (AtLinkQuote quote payment)
    | AtLinkQuote quote payment =>
        Quote_linkPayment (pay_quote payment) quote (pay_id payment) (cp_now req) ;;;
        logger Info "Pago creado exitosamente" ;;;
        ret (Responded (createdResponse "Orden de pago creada exitosamente"))
    | Responded r => ret (Responded r)
    end
    createPayment_catch.

(** One request on its own: the seven steps in a row. *)
Fixpoint createPayment_run (fuel : nat) (req : CreatePaymentRequest) (pc : CreatePaymentPc)
  : M CreatePaymentPc :=
  match fuel with
  | O => ret pc
  | S n => pc' <- createPayment_step req pc ;; createPayment_run n req pc'
  end.

Definition createPayment (req : CreatePaymentRequest) : M CreatePaymentPc :=
  createPayment_run 7 req AtFindQuote.

(** Several requests in flight: [schedule] names, step after step, the
    request that advances. *)
Definition Pool := list (CreatePaymentRequest * CreatePaymentPc).

Definition advance (i : nat) (pool : Pool) (w : World) : Pool * World :=
  match pool !! i with
  | None => (pool, w)
  | Some (req, pc) =>
      match createPayment_step req pc w with
      | (inr pc', w') => (<[i := (req, pc')]> pool, w')
      | (inl _, w') => (pool, w')
      end
  end.

Fixpoint runSchedule (schedule : list nat) (pool : Pool) (w : World) : Pool * World :=
  match schedule with
  | [] => (pool, w)
  | i :: rest => let '(pool', w') := advance i pool w in runSchedule rest pool' w'
  end.

(** ** Request validation (validation middleware, [createQuoteValidation])

    The chains are the repository's; express-validator, which runs them,
    is a library.  Its selection of fields, [optional], [not], [exists]
    and the way the errors of the chains add up are written out below.
    A standard validator works on the text express-validator converts
    the value to, and on each element of an array in turn.  What
    validator.js decides on a text by rules of its own (the e-mail
    format, numbers written as strings) and the text JavaScript writes
    a number as are taken from [ValidatorJs]. *)

#[warnings="-register-all"]
Inductive Json :=
| JNull
| JBool (b : bool)
| JNum (q : Q)
| JStr (s : string)
| JArr (l : list Json)
| JObj (fields : list (string * Json)).

(** Reading a property: of two members of the same name the later one
    stands, as [JSON.parse] has it. *)
Fixpoint getField (k : string) (fields : list (string * Json)) : option Json :=
  match fields with
  | [] => None
  | (k', v) :: rest =>
      match getField k rest with
      | Some v' => Some v'
      | None => if String.eqb k' k then Some v else None
      end
  end.

Inductive Segment := Key (k : string) | Wildcard.

(** The instances of a field path in a value; [None] is [undefined]. A
    wildcard ranges over the elements of an array or the values of an
    object, and selects nothing elsewhere. *)
Fixpoint select (path : list Segment) (v : option Json) : list (option Json) :=
  match path with
  | [] => [v]
  | Key k :: rest =>
      select rest (match v with
                   | Some (JObj fields) => getField k fields
                   | _ => None
                   end)
  | Wildcard :: rest =>
      match v with
      | Some (JArr l) => flat_map (fun x => select rest (Some x)) l
      | Some (JObj fields) => flat_map (fun kv => select rest (Some kv.2)) fields
      | _ => []
      end
  end.

Inductive Regex := phoneRegex.

Inductive Validator :=
| isObject
| isEmpty
| isLength (min max : option nat)
| isEmail
| matches (re : Regex)
| isArray (min : nat)
| isMongoId
| isInt (min : Z)
| isFloat (min max : Q)
| exists_.

Inductive Sanitizer := trim | normalizeEmail | toInt | toFloat.

Inductive ChainStep :=
| Check (negated : bool) (v : Validator) (message : string)
| Sanitize (s : Sanitizer).

Record ValidationChain := mkChain {
  c_fields : list (list Segment);
  c_optional : bool;
  c_steps : list ChainStep
}.

Record ValidatorJs := mkValidatorJs {
  vjs_isEmail : string -> bool;
  vjs_isIntText : string -> Z -> bool;
  vjs_isFloatText : string -> Q -> Q -> bool;
  vjs_numberText : Q -> string    (* [String(n)] *)
}.

Module Text.

Definition isSpace (c : ascii) : bool :=
  let n := nat_of_ascii c in
  ((n =? 32) || (9 <=? n) && (n <=? 13))%nat.

Definition isDigit (c : ascii) : bool :=
  let n := nat_of_ascii c in ((48 <=? n) && (n <=? 57))%nat.

Fixpoint dropSpaces (s : string) : string :=
  match s with
  | String c r => if isSpace c then dropSpaces r else s
  | EmptyString => EmptyString
  end.

Fixpoint dropTrailingSpaces (s : string) : string :=
  match s with
  | EmptyString => EmptyString
  | String c r =>
      match dropTrailingSpaces r with
      | EmptyString => if isSpace c then EmptyString else String c EmptyString
      | r' => String c r'
      end
  end.

Definition trim (s : string) : string := dropTrailingSpaces (dropSpaces s).

(** [/^[\+]?[0-9\s\-\(\)]+$/] *)
Definition isPhoneChar (c : ascii) : bool :=
  isDigit c || isSpace c || Ascii.eqb c "-" || Ascii.eqb c "(" || Ascii.eqb c ")".

Definition nonEmptyAll (f : ascii -> bool) (s : string) : bool :=
  negb (String.eqb s "") && ObjectId.forallChars f s.

Definition matchesPhone (s : string) : bool :=
  match s with
  | String "+" r => nonEmptyAll isPhoneChar r
  | _ => nonEmptyAll isPhoneChar s
  end.

(** validator.js: [isHexadecimal(str) && str.length === 24], where a
    hexadecimal may start with [0x] or [0h]. *)
Definition isHexadecimal (s : string) : bool :=
  match s with
  | String "0" (String c r) =>
      if Ascii.eqb c "x" || Ascii.eqb c "X" || Ascii.eqb c "h" || Ascii.eqb c "H"
      then nonEmptyAll ObjectId.isHexDigit r
      else nonEmptyAll ObjectId.isHexDigit s
  | _ => nonEmptyAll ObjectId.isHexDigit s
  end.

Definition isMongoId (s : string) : bool :=
  isHexadecimal s && (String.length s =? 24)%nat.

Definition lengthWithin (min max : option nat) (s : string) : bool :=
  (match min with Some m => (m <=? String.length s)%nat | None => true end)
  && (match max with Some m => (String.length s <=? m)%nat | None => true end).

End Text.

Section ExpressValidator.

Context (lib : ValidatorJs).

Definition isWholeNumber (q : Q) : bool := Qeq_bool (inject_Z (Qfloor q)) q.

(** [toString] of express-validator: the text a standard validator or
    sanitizer is given.  [null] and [undefined] give the empty text, an
    object [[object Object]], and an array, which is met here only
    inside an array, its elements joined by commas. *)
Fixpoint stringify (v : Json) : string :=
  match v with
  | JNull => ""
  | JBool b => if b then "true" else "false"
  | JNum q => vjs_numberText lib q
  | JStr s => s
  | JArr l => joinWith "," (map stringify l)
  | JObj _ => "[object Object]"
  end.

Definition textOf (value : option Json) : string :=
  match value with
  | Some v => stringify v
  | None => ""
  end.

(** [exists], [isObject] and [isArray] look at the value itself; the
    others are the standard validators of validator.js. *)
Definition isStandard (v : Validator) : bool :=
  match v with
  | exists_ | isObject | isArray _ => false
  | _ => true
  end.

(** A validator on one value.  [isInt] and [isFloat] are decided on a
    number itself: JavaScript writes a whole number below 10^21 as its
    decimal digits, which is what [isInt] asks for, and every number in
    a form that [isFloat] accepts and reads back as that number. *)
Definition runValidator (v : Validator) (value : option Json) : bool :=
  match v with
  | exists_ => bool_decide (is_Some value)
  | isObject => match value with Some (JObj _) => true | _ => false end
  | isArray min => match value with Some (JArr l) => (min <=? length l)%nat | _ => false end
  | isEmpty => String.eqb (textOf value) ""
  | isLength min max => Text.lengthWithin min max (textOf value)
  | isEmail => vjs_isEmail lib (textOf value)
  | matches phoneRegex => Text.matchesPhone (textOf value)
  | isMongoId => Text.isMongoId (textOf value)
  | isInt min =>
      match value with
      | Some (JNum q) =>
          isWholeNumber q && Qle_bool (inject_Z (- (10 ^ 21 - 1))) q
          && Qle_bool q (inject_Z (10 ^ 21 - 1)) && Qle_bool (inject_Z min) q
      | _ => vjs_isIntText lib (textOf value) min
      end
  | isFloat min max =>
      match value with
      | Some (JNum q) => Qle_bool min q && Qle_bool q max
      | _ => vjs_isFloatText lib (textOf value) min max
      end
  end.

(** The values a standard validator or sanitizer is run on: the
    elements of an array, or else the value. *)
Definition valuesOf (value : option Json) : list (option Json) :=
  match value with
  | Some (JArr l) => map Some l
  | _ => [value]
  end.

(** The errors of one validator of a chain: a standard validator adds
    one for each of the values that fails it. *)
Definition runCheck (negated : bool) (v : Validator) (message : string) (value : option Json)
  : list string :=
  flat_map (fun value => if xorb negated (runValidator v value) then [] else [message])
           (if isStandard v then valuesOf value else [value]).

(** A sanitizer changes the value the later steps of the chain see;
    of those used here only [trim] is followed by a validator.  It
    too works on the text of the value, or of each element of an
    array. *)
Definition runSanitizer (s : Sanitizer) (value : option Json) : option Json :=
  match s with
  | trim =>
      match value with
      | Some (JArr l) => Some (JArr (map (fun v => JStr (Text.trim (stringify v))) l))
      | _ => Some (JStr (Text.trim (textOf value)))
      end
  | _ => value
  end.

Fixpoint runSteps (steps : list ChainStep) (value : option Json) : list string :=
  match steps with
  | [] => []
  | Check negated v message :: rest =>
      runCheck negated v message value ++ runSteps rest value
  | Sanitize s :: rest => runSteps rest (runSanitizer s value)
  end.

(** One chain on one instance of its field: [optional()] skips an
    [undefined] value. *)
Definition runInstance (c : ValidationChain) (value : option Json) : list string :=
  match value with
  | None => if c_optional c then [] else runSteps (c_steps c) value
  | Some _ => runSteps (c_steps c) value
  end.

Definition runChain (body : Json) (c : ValidationChain) : list string :=
  flat_map (fun path => flat_map (runInstance c) (select path (Some body))) (c_fields c).

(** [validationResult(req)] after the chains have run. *)
Definition validationResult (chains : list ValidationChain) (body : Json) : list string :=
  flat_map (runChain body) chains.

(** [handleValidationErrors]: the 400 answer, or [next()] ([None]). *)
Definition handleValidationErrors (chains : list ValidationChain) (body : Json)
  : option Response :=
  match validationResult chains body with
  | [] => None
  | _ => Some (mkResponse 400 false "Datos de entrada inválidos" (Some "VALIDATION_ERROR"))
  end.

End ExpressValidator.

Definition body_ (field : list Segment) : list (list Segment) := [field].

Definition notEmpty (message : string) : ChainStep := Check true isEmpty message.
Definition notExists (message : string) : ChainStep := Check true exists_ message.

(** The last chain of [createQuoteValidation]: the fields that are
    generated must not be sent. *)
Definition generatedFieldsChain : ValidationChain :=
  mkChain [[Key "expiresAt"]; [Key "quoteNumber"]; [Key "_id"];
           [Key "createdAt"]; [Key "updatedAt"]] false
    [notExists "Este campo se genera automáticamente, no debe enviarse"].

Definition createQuoteValidation : list ValidationChain :=
  [ mkChain (body_ [Key "customer"]) false
      [Check false isObject "Los datos del cliente son requeridos"];
    mkChain (body_ [Key "customer"; Key "name"]) false
      [notEmpty "El nombre del cliente es requerido";
       Sanitize trim;
       Check false (isLength (Some 2%nat) (Some 200%nat))
         "El nombre debe tener entre 2 y 200 caracteres"];
    mkChain (body_ [Key "customer"; Key "email"]) true
      [Check false isEmail "El email del cliente no es válido";
       Sanitize normalizeEmail];
    mkChain (body_ [Key "customer"; Key "phone"]) true
      [Check false (matches phoneRegex) "El formato del teléfono no es válido"];
    mkChain (body_ [Key "items"]) false
      [Check false (isArray 1) "Debe incluir al menos un item"];
    mkChain (body_ [Key "items"; Wildcard; Key "productId"]) false
      [Check false isMongoId "ID de producto inválido"];
    mkChain (body_ [Key "items"; Wildcard; Key "quantity"]) false
      [Check false (isInt 1) "La cantidad debe ser un número entero mayor a 0";
       Sanitize toInt];
    mkChain (body_ [Key "items"; Wildcard; Key "product"]) false
      [notExists "items.product se calcula automáticamente, usar solo productId"];
    mkChain (body_ [Key "items"; Wildcard; Key "productSnapshot"]) false
      [notExists "items.productSnapshot se genera automáticamente"];
    mkChain (body_ [Key "items"; Wildcard; Key "subtotal"]) false
      [notExists "items.subtotal se calcula automáticamente"];
    mkChain (body_ [Key "discount"]) true
      [Check false (isFloat 0 100) "El descuento debe ser entre 0 y 100";
       Sanitize toFloat];
    mkChain (body_ [Key "tax"]) true
      [Check false (isFloat 0 100) "El impuesto debe ser entre 0 y 100";
       Sanitize toFloat];
    mkChain (body_ [Key "notes"]) true
      [Sanitize trim;
       Check false (isLength None (Some 1000%nat))
         "Las notas no pueden exceder 1000 caracteres"];
    generatedFieldsChain ].

(** ** The totals on binary64 numbers

    JavaScript's numbers are IEEE-754 binary64, and so are Rocq's
    primitive floats: the arithmetic of [calculateTotals] is repeated
    here on them, for a quote given by its lines (price, quantity). *)

Module Binary64.

Local Open Scope float_scope.

Definition ofZ (n : Z) : float :=
  if (n <? 0)%Z then - PrimFloat.of_uint63 (Uint63.of_Z (- n))
  else PrimFloat.of_uint63 (Uint63.of_Z n).

(** [Math.round]: a finite number that is not an integer is
    [m * 2^e] with [e < 0]; its rounding is the floor of the number
    plus a half, computed on integers.  A negative number that rounds
    to zero gives [-0]. *)
Definition Math_round (x : float) : float :=
  match Prim2SF x with
  | S754_finite sign m e =>
      if (0 <=? e)%Z then x
      else
        let d := (2 ^ (- e))%Z in
        if sign
        then - ofZ (- ((d - 2 * Z.pos m) / (2 * d)))%Z
        else ofZ ((2 * Z.pos m + d) / (2 * d))%Z
  | _ => x
  end.

Definition calculateTotals (lines : list (float * float)) (discount tax : float)
  : float * float :=
  let subtotal := fold_left (fun sum line => sum + line.1 * line.2) lines 0 in
  let discountAmount := (subtotal * discount) / 100 in
  let afterDiscount := subtotal - discountAmount in
  let taxAmount := (afterDiscount * tax) / 100 in
  let total := afterDiscount + taxAmount in
  let subtotal := Math_round (subtotal * 100) / 100 in
  let total := Math_round (total * 100) / 100 in
  (subtotal, total).

End Binary64.

(** * Statements

    The definitions below are used to state the claims: measures on the
    collections, runs of operations, the wording of the specification,
    and the data of the examples. *)

(** The stock level of a product in the products collection (0 for an id
    that has no product). *)
Definition stockOf (ps : gmap string Product) (k : string) : Z :=
  default 0 (p_stock <$> ps !! k).

(** The total quantity a batch asks for product [k]. *)
Fixpoint requested (k : string) (items : list StockItem) : Z :=
  match items with
  | [] => 0
  | item :: rest =>
      (if String.eqb (productId item) k then quantity item else 0) + requested k rest
  end.

Definition sameCollections (w w' : World) : Prop :=
  quotes w' = quotes w /\ payments w' = payments w.

(** The three collections are what they were (the log may have grown). *)
Definition sameData (w w' : World) : Prop :=
  products w' = products w /\ quotes w' = quotes w /\ payments w' = payments w.

Definition validId (item : StockItem) : Prop :=
  is_Some (ObjectId.fromString (productId item)).

Definition px : string := "507f1f77bcf86cd799439011".

Definition stockWorld (stock : Z) : World :=
  mkWorld {[ px := mkProduct "Mouse" 100 stock true ]} ∅ [] [].

Definition py : string := "507f1f77bcf86cd799439012".

(** Two products: an active one and a soft-deleted one that has stock. *)
Definition catalogWorld : World :=
  mkWorld {[ px := mkProduct "Mouse" 100 3 true; py := mkProduct "Teclado" 250 50 false ]}
          ∅ [] [].

Definition catalogBatch : list StockItem := [mkStockItem px 1; mkStockItem py 2].

Definition stockItemsOf (quote : Quote) : list StockItem :=
  map (fun item => mkStockItem (qi_product item) (qi_quantity item)) (q_items quote).

(** The payment the approved branch of the webhook handler saves. *)
Definition approvedPayment (loaded : Payment) (wd : WebhookData) (now : Z) : Payment :=
  setWebhookData (setPaidAt (setPaymentStatus loaded pay_approved) (Some now)) (Some wd).

Definition correlates (wd : WebhookData) (w : World) (loaded : Payment) : Prop :=
  exists ref, wd_externalReference wd = Some ref /\ truthy ref = true /\
    find (fun p => String.eqb (pay_externalReference p) ref) (payments w) = Some loaded.

(** A line of a quote that the stock can no longer serve: its product
    is gone or inactive, or has less stock than the line asks (or the
    quantity is not positive). *)
Definition cannotServe (ps : gmap string Product) (item : QuoteItem) : Prop :=
  forall p, ps !! qi_product item = Some p -> p_isActive p = true ->
            Product_validateStock p (qi_quantity item) = false.

Definition qx : string := "65a000000000000000000001".
Definition payx : string := "65b000000000000000000001".
Definition refx : string := "QUOTE-QT-20240101-0001-1700000000000".

(** A shop with one product, one quote of two units of it and the
    payment of that quote. *)
Definition quoteOf (status : QuoteStatus) : Quote :=
  mkQuote "QT-20240101-0001" [mkQuoteItem px "Mouse" 100 2 200] 200 21 10 (2178 # 10)
    status (Some payx) 1704700000000 "65c000000000000000000001".

Definition paymentOf (status : PaymentStatus) : Payment :=
  mkPayment payx qx "pref-1" status (2178 # 10) refx None None.

Definition shopWorld (stock : Z) (qs : QuoteStatus) (ps : PaymentStatus) : World :=
  mkWorld {[ px := mkProduct "Mouse" 100 stock true ]} {[ qx := quoteOf qs ]} [paymentOf ps] [].

Definition approvedNotification : WebhookData :=
  mkWebhookData "123456789" "approved" (Some refx).

(** The operations that write a quote's status. *)
Inductive QuoteOp :=
| OpCancel (id : string) (user : option User) (now : Z)
| OpExpire (now : Z)
| OpWebhook (webhookData : WebhookData) (now : Z).

Definition runOp (op : QuoteOp) (w : World) : World :=
  match op with
  | OpCancel id user now => (cancelQuote id user now w).2
  | OpExpire now => (expireOldQuotes now w).2
  | OpWebhook webhookData now => (handlePaymentWebhook webhookData now w).2
  end.

Definition runOps (ops : list QuoteOp) (w : World) : World :=
  fold_left (fun w op => runOp op w) ops w.

(** The time at which an operation is handled, and a run of operations
    handled one after the other from time [t] on. *)
Definition opTime (op : QuoteOp) : Z :=
  match op with
  | OpCancel _ _ now | OpExpire now | OpWebhook _ now => now
  end.

Fixpoint inOrder (t : Z) (ops : list QuoteOp) : Prop :=
  match ops with
  | [] => True
  | op :: rest => t <= opTime op /\ inOrder (opTime op) rest
  end.

(** The state machine of the specification: a status only changes from
    [pending]. *)
Definition specTransition (s s' : QuoteStatus) : Prop :=
  s' = s \/ s = q_pending.

(** The state machine of the code: from [cancelled] a quote can still
    become [paid]. *)
Definition codeTransition (s s' : QuoteStatus) : Prop :=
  s' = s \/ s = q_pending \/ (s = q_cancelled /\ s' = q_paid).

(** What one operation does: how [op] may take a quote whose expiration
    is [expiresAt] from status [s] to status [s']. *)
Definition transitionBy (op : QuoteOp) (expiresAt : Z) (s s' : QuoteStatus) : Prop :=
  s' = s \/
  match op with
  | OpCancel _ _ now => s = q_pending /\ s' = q_cancelled /\ now < expiresAt
  | OpExpire now => s = q_pending /\ s' = q_expired /\ expiresAt <= now
  | OpWebhook webhookData now =>
      wd_status webhookData = "approved" /\ s' = q_paid /\ now < expiresAt
  end.

(** Every quote marked expired has passed its expiration at time [t]. *)
Definition expiredAreDue (t : Z) (w : World) : Prop :=
  forall id q, quotes w !! id = Some q -> q_status q = q_expired -> q_expiresAt q <= t.

(** A request that was refused: an error response, or an error thrown. *)
Definition refused (result : string + Response) : Prop :=
  match result with
  | inr r => r_success r = false
  | inl _ => True
  end.

(** At most one payment refers to a quote. *)
Definition onePaymentPerQuote (ps : list Payment) : Prop := NoDup (pay_quote <$> ps).

Definition refersTo (quoteId : string) (ps : list Payment) : Prop :=
  exists p, In p ps /\ pay_quote p = quoteId.

(** The requests of a pool are new: none has taken a step, and the ids
    they will give their payments are pairwise different. *)
Definition freshPool (pool : Pool) : Prop :=
  Forall (fun rp => rp.2 = AtFindQuote) pool /\ NoDup (cp_newId <$> (fst <$> pool)).

(** The request has been answered with success. *)
Definition succeeded (pc : CreatePaymentPc) : Prop :=
  match pc with
  | Responded r => r_success r = true
  | _ => False
  end.

(** The payment a creation request holds, once it has built one. *)
Definition heldPayment (pc : CreatePaymentPc) : option Payment :=
  match pc with
  | AtPreSave _ payment | AtInsert _ payment | AtLinkQuote _ payment => Some payment
  | _ => None
  end.

(** The stock items [createPayment] makes of the populated items of a
    quote: none when a product is missing. *)
Fixpoint populatedItems (items : list QuoteItem) (populated : list (option Product))
  : option (list StockItem) :=
  match items, populated with
  | item :: items, product :: populated =>
      match product, populatedItems items populated with
      | Some _, Some rest => Some (mkStockItem (qi_product item) (qi_quantity item) :: rest)
      | _, _ => None
      end
  | _, _ => Some []
  end.

(** The payment [createPayment] builds for a quote once the gateway has
    answered with a preference. *)
Definition newPayment (req : CreatePaymentRequest) (quoteId : string) (quote : Quote)
    (preferenceId : string) : Payment :=
  mkPayment (cp_newId req) quoteId preferenceId pay_pending (q_total quote)
    ("QUOTE-" +:+ q_quoteNumber quote +:+ "-" +:+ pretty (cp_now req)) None None.

(** What one step of a request can do: it answers, or goes on to the
    next point. *)
Inductive stepOutcome (req : CreatePaymentRequest) (w : World)
  : CreatePaymentPc -> CreatePaymentPc -> World -> Prop :=
| step_refused pc r w' :
    r_success r = false -> sameData w w' ->
    stepOutcome req w pc (Responded r) w'
| step_found quoteId quote w' :
    ObjectId.fromString (cp_quoteId req) = Some quoteId ->
    quotes w !! quoteId = Some quote -> q_status quote = q_pending ->
    sameData w w' ->
    stepOutcome req w AtFindQuote
      (AtFindExisting quote (map (fun item => products w !! qi_product item) (q_items quote))) w'
| step_free quoteId quote populated w' :
    ObjectId.fromString (cp_quoteId req) = Some quoteId ->
    find (fun p => String.eqb (pay_quote p) quoteId) (payments w) = None ->
    sameData w w' ->
    stepOutcome req w (AtFindExisting quote populated) (AtValidateStock quote populated) w'
| step_validated quote populated stockItems validation w' :
    populatedItems (q_items quote) populated = Some stockItems ->
    validateStock stockItems w = (inr validation, w') ->
    isValid validation = true -> sameData w w' ->
    stepOutcome req w (AtValidateStock quote populated) (AtCreateOrder quote) w'
| step_ordered quoteId quote preferenceId :
    ObjectId.fromString (cp_quoteId req) = Some quoteId ->
    cp_preferenceId req = Some preferenceId ->
    stepOutcome req w (AtCreateOrder quote)
      (AtPreSave quote (newPayment req quoteId quote preferenceId)) w
| step_checked quote payment :
    Payment_validationErrors payment = [] ->
    find (fun p => String.eqb (pay_quote p) (pay_quote payment)
                   && negb (String.eqb (pay_id p) (pay_id payment))) (payments w) = None ->
    stepOutcome req w (AtPreSave quote payment) (AtInsert quote payment) w
| step_inserted quote payment :
    duplicatesKey payment (payments w) = false ->
    stepOutcome req w (AtInsert quote payment) (AtLinkQuote quote payment)
      (mkWorld (products w) (quotes w) (payments w ++ [payment]) (logs w))
| step_linked quote payment w' :
    Quote_validate_expiresAt quote (cp_now req) = true ->
    products w' = products w -> payments w' = payments w ->
    quotes w' = alter (fun q => calculateTotals (setQuotePaymentId q (Some (pay_id payment))))
                  (pay_quote payment) (quotes w) ->
    stepOutcome req w (AtLinkQuote quote payment)
      (Responded (createdResponse "Orden de pago creada exitosamente")) w'
| step_done r :
    stepOutcome req w (Responded r) (Responded r) w.

(** The request has inserted its payment. *)
Definition inserted (pc : CreatePaymentPc) : Prop :=
  match pc with
  | AtLinkQuote _ _ => True
  | Responded r => r_success r = true
  | _ => False
  end.

(** The payment of a request: it has the id the request drew and
    refers to the quote the request names. *)
Definition paymentOfRequest (req : CreatePaymentRequest) (p : Payment) : Prop :=
  pay_id p = cp_newId req /\ ObjectId.fromString (cp_quoteId req) = Some (pay_quote p).

Definition poolInvariant (pool : Pool) (w : World) : Prop :=
  forall i req pc, pool !! i = Some (req, pc) ->
    (forall p, heldPayment pc = Some p -> paymentOfRequest req p) /\
    (inserted pc -> exists p, In p (payments w) /\ paymentOfRequest req p).

Definition quoteWorld : World :=
  mkWorld {[ px := mkProduct "Mouse" 100 10 true ]}
          {[ qx := mkQuote "QT-20240101-0001" [mkQuoteItem px "Mouse" 100 2 200] 200 21 10
                     (2178 # 10) q_pending None 1704700000000 "65c000000000000000000001" ]}
          [] [].

Definition requestA : CreatePaymentRequest :=
  mkCreatePaymentRequest qx "65b000000000000000000001" 1704100000000 (Some "pref-A").
Definition requestB : CreatePaymentRequest :=
  mkCreatePaymentRequest qx "65b000000000000000000002" 1704100000001 (Some "pref-B").

(** Two requests for the same quote, advanced in turn: both pass the
    checks of the application before either has inserted. *)
Definition raceSchedule : list nat := [0; 1; 0; 1; 0; 1; 0; 1; 0; 1; 0; 1; 0; 1]%nat.
Definition racePool : Pool := [(requestA, AtFindQuote); (requestB, AtFindQuote)].

(** The sum of the lines, as the specification writes it. *)
Definition linesTotal (items : list QuoteItem) : Q :=
  fold_right (fun item acc => (qi_snapshotPrice item * inject_Z (qi_quantity item) + acc)%Q)
             0%Q items.

(** The total of the specification, before rounding. *)
Definition specTotal (items : list QuoteItem) (discount tax : Q) : Q :=
  (linesTotal items * (1 - discount / 100) * (1 + tax / 100))%Q.

(** [r] is [x] rounded to two decimal places, half up: a whole number of
    hundredths, at most half a hundredth away from [x], the tie going to
    the larger one. *)
Definition roundsHalfUpTo2 (x r : Q) : Prop :=
  exists k : Z, (r == inject_Z k / 100)%Q /\ (x - (1 # 200) < r)%Q /\ (r <= x + (1 # 200))%Q.

Definition exampleQuote : Quote :=
  mkQuote "QT-20240101-0001" [mkQuoteItem px "Mouse" 100 2 0] 0 21 10 0
    q_pending None 1704700000000 "65c000000000000000000001".

Definition discountedQuote : Quote :=
  mkQuote "QT-20240101-0002" [mkQuoteItem px "Mouse" (3 # 2) 1 0] 0 0 15 0
    q_pending None 1704700000000 "65c000000000000000000001".

(** The body of the request has a member named [k]. *)
Definition hasField (k : string) (body : Json) : Prop :=
  match body with
  | JObj fields => is_Some (getField k fields)
  | _ => False
  end.

(** The fields the validation refuses, and those the specification
    lists. *)
Definition refusedFields : list string :=
  ["expiresAt"; "quoteNumber"; "_id"; "createdAt"; "updatedAt"].

Definition specGeneratedFields : list string :=
  ["quoteNumber"; "subtotal"; "total"; "_id"; "createdAt"; "updatedAt"; "expiresAt"].

Definition validationErrorResponse : Response :=
  mkResponse 400 false "Datos de entrada inválidos" (Some "VALIDATION_ERROR").

(** No path of the chains starts at the member [t]. *)
Definition pathAvoids (t : string) (path : list Segment) : bool :=
  match path with
  | Key k :: _ => negb (String.eqb k t)
  | _ => false
  end.

Definition chainsAvoid (t : string) (chains : list ValidationChain) : bool :=
  forallb (fun c => forallb (pathAvoids t) (c_fields c)) chains.

Definition validProductId : string := "507f1f77bcf86cd799439011".

(** A well-formed request that also carries totals. *)
Definition requestWithTotals : Json :=
  JObj [("customer", JObj [("name", JStr "Ana Perez")]);
        ("items", JArr [JObj [("productId", JStr validProductId); ("quantity", JNum 2)]]);
        ("discount", JNum 10);
        ("tax", JNum 21);
        ("subtotal", JNum 1);
        ("total", JNum 1)].

Definition requestWithQuoteNumber : Json :=
  JObj [("customer", JObj [("name", JStr "Ana Perez")]);
        ("items", JArr [JObj [("productId", JStr validProductId); ("quantity", JNum 2)]]);
        ("quoteNumber", JStr "QT-20240101-0001")].

Definition noTextValidators : ValidatorJs :=
  mkValidatorJs (fun _ => false) (fun _ _ => false) (fun _ _ _ => false) (fun _ => "").

(** * The rest of the services and controllers

    The functions of the stock service, the models, the controllers and
    the middleware that the claims do not name. *)

(** ** Stock service: reservations *)

(** [reserveStock]: only the validation is run, nothing is held. *)
Definition reserveStock (items : list StockItem) (reservationId : string)
    (expirationMinutes : Z) : M StockOperationResult :=
  try_catch
    (logger Info "Reservando stock temporalmente" ;;;
     validation <- validateStock items ;;
     if negb (isValid validation)
     then
       ret (mkStockOperationResult false "Stock insuficiente para reserva"
              (Some (map (fun err =>
                            mkOperationError (ve_productId err) (Some (ve_productName err))
                              ("Stock insuficiente. Solicitado: " +:+ pretty (ve_requested err)
                                 +:+ ", Disponible: " +:+ pretty (ve_available err))
                              (Some (ve_requested err)) (Some (ve_available err)))
                         (v_errors validation)))
              None)
     else
       logger Info "Stock reservado conceptualmente" ;;;
       ret (mkStockOperationResult true "Stock validado y disponible para reserva" None None))
    (fun _ =>
       logger Error "Error reservando stock:" ;;;
       throw "Error en la reserva de stock").

Definition releaseStock (reservationId : string) : M StockOperationResult :=
  try_catch
    (logger Info "Liberando stock reservado" ;;;
     ret (mkStockOperationResult true "Stock liberado exitosamente" None None))
    (fun _ =>
       logger Error "Error liberando stock:" ;;;
       throw "Error liberando stock reservado").

(** ** Product model: the rest *)

Definition setStock (p : Product) (stock : Z) : Product :=
  mkProduct (p_name p) (p_price p) stock (p_isActive p).

Definition setIsActive (p : Product) (isActive : bool) : Product :=
  mkProduct (p_name p) (p_price p) (p_stock p) isActive.

(** [ProductSchema.methods.decrementStock], called on the document
    [this] whose [_id] is [id]: the decrement, and its reversal when the
    stock came out negative. *)
Definition Product_decrementStock (id : string) (this : Product) (quantity : Z) : M Product :=
  result <- Product_findByIdAndUpdate_inc id (- quantity) ;;
  match result with
  | None => throw "Producto no encontrado"
  | Some result =>
      if p_stock result <? 0
      then
        Product_findByIdAndUpdate_inc id quantity ;;;
        throw "Stock insuficiente"
      else ret (setStock this (p_stock result))
  end.

(** ** Product controller *)

(** [Product.findByIdAndUpdate(id, update, { new: true, ... })] for the
    three updates the controller sends. *)
Inductive ProductUpdate :=
| IncStock (delta : Z)          (* { $inc: { stock: delta } } *)
| SetStock (stock : Z)          (* { stock } *)
| SetIsActive (isActive : bool) (* { isActive } *).

Definition applyUpdate (u : ProductUpdate) (p : Product) : Product :=
  match u with
  | IncStock delta => incStock delta p
  | SetStock stock => setStock p stock
  | SetIsActive b => setIsActive p b
  end.

Definition Product_findByIdAndUpdate (id : string) (u : ProductUpdate) : M (option Product) :=
  oid <- castObjectId "Product" id ;;
  fun w => match products w !! oid with
           | None => (inr None, w)
           | Some p =>
               let p' := applyUpdate u p in
               (inr (Some p'), mkWorld (<[oid := p']> (products w)) (quotes w) (payments w) (logs w))
           end.

(** [PUT /products/:id/stock].  The body has passed the validation of the
    route: [stock] is a whole number, [operation] is absent or a text. *)
Definition updateStock (id : string) (stock : Z) (operation : option string) : M Response :=
  try_catch
    (let operation := default "set" operation in
     if stock <? 0
     then throw "El stock debe ser un número no negativo"
     else
       let updateQuery :=
         if String.eqb operation "increment" then IncStock stock
         else if String.eqb operation "decrement" then IncStock (- stock)
         else SetStock stock in
       product <- Product_findByIdAndUpdate id updateQuery ;;
       match product with
       | None => ret (notFoundResponse "Producto no encontrado")
       | Some product =>
           if p_stock product <? 0
           then
             Product_findByIdAndUpdate id (IncStock stock) ;;;
             throw "La operación resultaría en stock negativo"
           else
             logger Info ("Stock actualizado para " +:+ p_name product +:+ ": "
                            +:+ pretty (p_stock product)) ;;;
             ret (updatedResponse "Stock actualizado exitosamente")
       end)
    (fun e => logger Error "Error actualizando stock:" ;;; throw e).

(** [DELETE /products/:id]: the product is kept and marked inactive. *)
Definition deleteProduct (id : string) : M Response :=
  try_catch
    (product <- Product_findByIdAndUpdate id (SetIsActive false) ;;
     match product with
     | None => ret (notFoundResponse "Producto no encontrado")
     | Some product =>
         logger Info ("Producto eliminado (soft delete): " +:+ p_name product) ;;;
         ret (successResponse "Producto eliminado exitosamente")
     end)
    (fun e => logger Error "Error eliminando producto:" ;;; throw e).

(** ** Payment controller: cancelling a payment *)

Definition PaymentStatus_text (s : PaymentStatus) : string :=
  match s with
  | pay_pending => "pending"
  | pay_approved => "approved"
  | pay_rejected => "rejected"
  | pay_cancelled => "cancelled"
  end.

(** [Payment.findById(paymentId).populate('quote')]: the payment, and
    the quote it refers to when there is one. *)
Definition Payment_findById_populateQuote (paymentId : string)
  : M (option (Payment * option Quote)) :=
  oid <- castObjectId "Payment" paymentId ;;
  fun w => match find (fun p => String.eqb (pay_id p) oid) (payments w) with
           | None => (inr None, w)
           | Some p => (inr (Some (p, quotes w !! pay_quote p)), w)
           end.

(** [POST /payments/:paymentId/cancel], handled at time [now]. *)
Definition cancelPayment (paymentId : string) (now : Z) : M Response :=
  try_catch
    (found <- Payment_findById_populateQuote paymentId ;;
     match found with
     | None => ret (notFoundResponse "Pago no encontrado")
     | Some (loaded, populated) =>
         if negb (bool_decide (pay_status loaded = pay_pending))
         then ret (badRequestResponse
                     ("No se puede cancelar un pago en estado "
                        +:+ PaymentStatus_text (pay_status loaded)))
         else
           let payment := setPaymentStatus loaded pay_cancelled in
           Payment_save loaded payment now ;;;
           match populated with
           | Some _ =>
               quote <- Quote_findById (pay_quote loaded) ;;
               match quote with
               | Some quote =>
                   if bool_decide (q_status quote = q_pending)
                   then Quote_save (pay_quote loaded) (setQuotePaymentId quote None) now
                   else ret tt
               | None => ret tt
               end
           | None => ret tt
           end ;;;
           logger Info "Pago cancelado exitosamente" ;;;
           ret (successResponse "Pago cancelado exitosamente")
     end)
    (fun e => logger Error "Error cancelando pago:" ;;; throw e).

(** ** MercadoPago service: notifications
    (src/services/mercadopago.service.ts)

    The body of a notification is a JSON value.  Three things lie
    outside the repository and are taken as given: the text JavaScript's
    [toString()] gives for a value, the HMAC-SHA256 of the serialised
    body in hexadecimal, and the answer of the gateway's SDK to
    [get({ id })], which either rejects (with an [Error] that has a
    message, or with some other value) or resolves to a payment or to
    nothing. *)

Record PaymentResponse := mkPaymentResponse {
  mp_status : option string;
  mp_external_reference : option string
}.

Record ProcessedWebhookData := mkProcessedWebhookData {
  pw_data : WebhookData;            (* paymentId, status, externalReference *)
  pw_merchantOrder : option string;
  pw_topic : option Json;
  pw_isValid : bool
}.

(** A value in a condition. *)
Definition truthyJson (v : option Json) : bool :=
  match v with
  | None | Some JNull => false
  | Some (JBool b) => b
  | Some (JNum q) => negb (Qeq_bool q 0)
  | Some (JStr s) => truthy s
  | Some (JArr _) | Some (JObj _) => true
  end.

(** [v.k] for a value that is not [null] or [undefined], [v?.k] for
    any: only an object has the properties a body can give it. *)
Definition property (k : string) (v : option Json) : option Json :=
  match v with
  | Some (JObj fields) => getField k fields
  | _ => None
  end.

Definition isText (s : string) (v : option Json) : bool :=
  match v with
  | Some (JStr t) => String.eqb t s
  | _ => false
  end.

Section MercadoPago.

Context (Js_toString : Json -> string).
Context (hmacSha256Hex : string -> Json -> string).
Context (sdk_payment_get : Json -> option string + option PaymentResponse).
Context (MERCADOPAGO_ACCESS_TOKEN : option string).

(** [getPaymentStatus] *)
Definition MercadoPagoService_getPaymentStatus (paymentId : Json) : M PaymentResponse :=
  try_catch
    (logger Info "Consultando estado de pago en MercadoPago" ;;;
     match sdk_payment_get paymentId with
     | inl rejection => throw (default "Error desconocido" rejection)
     | inr None => throw "Pago no encontrado en MercadoPago"
     | inr (Some payment) =>
         logger Info "Estado de pago obtenido" ;;;
         ret payment
     end)
    (fun error_message =>
       logger Error "Error obteniendo estado de pago:" ;;;
       throw ("Error consultando pago: " +:+ error_message)).

(** [validateWebhookSignature] *)
Definition validateWebhookSignature (webhookData : Json) (signature : string) : bool :=
  match MERCADOPAGO_ACCESS_TOKEN with
  | None => false
  | Some accessToken =>
      if negb (truthy accessToken) then false
      else String.eqb signature (hmacSha256Hex accessToken webhookData)
  end.

(** [processWebhook] of the service. *)
Definition MercadoPagoService_processWebhook (webhookData : Json) (signature : option string)
  : M ProcessedWebhookData :=
  try_catch
    (logger Info "Procesando webhook de MercadoPago" ;;;
     let type := property "type" (Some webhookData) in
     let dataId := property "id" (property "data" (Some webhookData)) in
     if negb (truthyJson type) || negb (truthyJson dataId)
     then throw "Webhook con estructura inválida"
     else
       if match signature with
          | Some signature =>
              truthy signature && negb (validateWebhookSignature webhookData signature)
          | None => false
          end
       then
         logger Warn "Webhook con firma inválida rechazado" ;;;
         ret (mkProcessedWebhookData (mkWebhookData "" "" None) None type false)
       else
         let paymentId := from_option Js_toString "" dataId in
         if isText "payment" type then
           payment <- MercadoPagoService_getPaymentStatus (default JNull dataId) ;;
           let status := default "" (mp_status payment) in
           let externalReference :=
             match mp_external_reference payment with
             | Some reference => if truthy reference then Some reference else None
             | None => None
             end in
           logger Info "Webhook de pago procesado" ;;;
           ret (mkProcessedWebhookData (mkWebhookData paymentId status externalReference)
                  None type true)
         else if isText "merchant_order" type then
           logger Info "Webhook de merchant order procesado" ;;;
           ret (mkProcessedWebhookData (mkWebhookData paymentId "" None)
                  (Some paymentId) type true)
         else
           ret (mkProcessedWebhookData (mkWebhookData paymentId "" None) None type true))
    (fun error_message =>
       logger Error "Error procesando webhook:" ;;;
       throw error_message).

(** ** Payment controller: the notification endpoint *)

Record WebhookResponse := mkWebhookResponse {
  wr_status : Z;
  wr_received : bool;
  wr_processed : option bool;
  wr_paymentId : option string;
  wr_note : option string      (* [reason] or [error] *)
}.

(** [POST /payments/webhook].  [body] is [req.body], [None] when there is
    none; [signature] is the header [x-signature]. *)
Definition processWebhook (body : option Json) (signature : option string) (now : Z)
  : M WebhookResponse :=
  try_catch
    (match body with
     | None => throw "Cannot read properties of undefined (reading 'action')"
     | Some JNull => throw "Cannot read properties of null (reading 'action')"
     | Some webhookData =>
         logger Info "Webhook recibido de MercadoPago" ;;;
         processedData <- MercadoPagoService_processWebhook webhookData signature ;;
         if negb (pw_isValid processedData)
         then
           logger Warn "Webhook con firma inválida rechazado" ;;;
           ret (mkWebhookResponse 200 false None None (Some "Invalid signature"))
         else
           (if isText "payment" (pw_topic processedData)
            then handlePaymentWebhook (pw_data processedData) now
            else logger Info "Webhook no procesado (tipo no soportado)") ;;;
           ret (mkWebhookResponse 200 true
                  (Some (isText "payment" (pw_topic processedData)))
                  (Some (wd_paymentId (pw_data processedData))) None)
     end)
    (fun _ =>
       logger Error "Error procesando webhook:" ;;;
       ret (mkWebhookResponse 200 true (Some false) None (Some "Processing error"))).

End MercadoPago.

(** ** The error handler (src/middleware/error.middleware.ts) *)

Inductive ErrorCode := NumCode (n : Z) | TextCode (s : string).

Record FieldError := mkFieldError {
  fe_path : string;
  fe_message : string;
  fe_value : string
}.

(** An error as the handler reads it: an [Error], with the properties
    that Mongoose, the driver, jsonwebtoken, the body parser or the
    application may have put on it. *)
Record CustomError := mkCustomError {
  ce_name : string;
  ce_message : string;
  ce_stack : string;
  ce_status : option Z;
  ce_statusCode : option Z;
  ce_code : option ErrorCode;
  ce_errors : option (list FieldError);     (* [errors] of a ValidationError *)
  ce_path : option string;                  (* of a CastError *)
  ce_value : option string;
  ce_keyValue : option (list (string * string)); (* of a duplicate key error *)
  ce_body : bool                            (* ['body' in error] *)
}.

Inductive Details :=
| ValidationDetails (fields : list FieldError)
| CastDetails (field value : option string)
| DuplicateDetails (field value : option string) (message : string)
| StackDetails (stack name : string).

Record ErrorResponse := mkErrorResponse {
  er_status : Z;
  er_message : string;
  er_code : string;
  er_details : option Details
}.

(** A number in a condition: [undefined] and 0 are false. *)
Definition truthyNumber (n : option Z) : bool :=
  match n with
  | Some n => negb (n =? 0)
  | None => false
  end.

(** [a || b] on numbers. *)
Definition orNumber (a b : option Z) : option Z := if truthyNumber a then a else b.

Definition undefinedText (v : option string) : string := default "undefined" v.

Definition ErrorCode_text (c : ErrorCode) : string :=
  match c with
  | NumCode n => pretty n
  | TextCode s => s
  end.

(** [errorHandler]: the answer it sends, or [None] when it throws
    itself (a [ValidationError] that has no [errors]).  [production]
    says whether [NODE_ENV] is ['production']. *)
Definition errorHandler (production : bool) (error : CustomError) : option ErrorResponse :=
  let statusCode := default 500 (orNumber (orNumber (ce_status error) (ce_statusCode error))
                                          (Some 500)) in
  let message := if truthy (ce_message error) then ce_message error
                 else "Error interno del servidor" in
  let errorCode := "INTERNAL_SERVER_ERROR" in
  let details : option Details := None in
  let classified : option (Z * string * string * option Details) :=
    if String.eqb (ce_name error) "ValidationError" then
      match ce_errors error with
      | Some errors =>
          Some (400, "Error de validación de datos", "VALIDATION_ERROR",
                Some (ValidationDetails errors))
      | None => None
      end
    else if String.eqb (ce_name error) "CastError" then
      Some (400, "ID inválido", "INVALID_ID",
            Some (CastDetails (ce_path error) (ce_value error)))
    else if match ce_code error with Some (NumCode 11000) => true | _ => false end then
      let field := match ce_keyValue error with
                   | Some ((field, _) :: _) => Some field
                   | _ => None
                   end in
      let value := match ce_keyValue error with
                   | Some ((field, value) :: _) => if truthy field then Some value else None
                   | _ => None
                   end in
      Some (400, "Recurso duplicado", "DUPLICATE_RESOURCE",
            Some (DuplicateDetails field value
                    ("Ya existe un registro con " +:+ undefinedText field +:+ ": "
                       +:+ undefinedText value)))
    else if String.eqb (ce_name error) "JsonWebTokenError" then
      Some (401, "Token inválido", "INVALID_TOKEN", details)
    else if String.eqb (ce_name error) "TokenExpiredError" then
      Some (401, "Token expirado", "TOKEN_EXPIRED", details)
    else if String.eqb (ce_name error) "SyntaxError" && ce_body error then
      Some (400, "JSON inválido en el cuerpo de la petición", "INVALID_JSON", details)
    else if match ce_code error with
            | Some (TextCode code) => String.eqb code "LIMIT_FILE_SIZE"
            | _ => false
            end then
      Some (400, "El archivo excede el tamaño máximo permitido", "FILE_TOO_LARGE", details)
    else if truthyNumber (ce_status error) || truthyNumber (ce_statusCode error) then
      Some (statusCode, message,
            match ce_code error with
            | Some code => if truthy (ErrorCode_text code) then ErrorCode_text code
                           else "APPLICATION_ERROR"
            | None => "APPLICATION_ERROR"
            end,
            details)
    else if String.eqb (ce_name error) "MongooseServerSelectionError" then
      Some (503, "Error de conexión a la base de datos", "DATABASE_CONNECTION_ERROR", details)
    else Some (statusCode, message, errorCode, details) in
  match classified with
  | None => None
  | Some (statusCode, message, errorCode, details) =>
      let '(message, details) :=
        if production
        then if statusCode =? 500 then ("Error interno del servidor", None)
             else (message, details)
        else if statusCode =? 500
             then (message, Some (StackDetails (ce_stack error) (ce_name error)))
             else (message, details) in
      Some (mkErrorResponse statusCode message errorCode details)
  end.

(** [createError]; [stack] is the trace the runtime gives the new
    [Error]. *)
Definition createError (message : string) (statusCode : Z) (code : option string)
    (details : option FieldError) (stack : string) : CustomError :=
  mkCustomError "Error" message stack (Some statusCode) None
    (match code with Some code => Some (TextCode code) | None => None end)
    (match details with Some details => Some [details] | None => None end)
    None None None false.

(** An [Error] thrown with [new Error(message)]. *)
Definition plainError (message stack : string) : CustomError :=
  mkCustomError "Error" message stack None None None None None None None false.

(** ** Pages of a listing (quote and product controllers)

    [getQuotes] and [getProducts] read [page] and [limit] from the query
    with [parseInt(page, 10) || 1] and [parseInt(limit, 10) || 20], ask
    for [find(filters).sort(...).skip(skip).limit(limitNum)] and for
    [countDocuments(filters)], and compute the data of the page.  Below,
    [matching] is the list of the documents that match the filters, in
    the order of the sort.  The counts are whole numbers far below 2^53,
    on which the division and [Math.ceil] of the source are exact. *)

Record Pagination := mkPagination {
  pg_page : Z;
  pg_limit : Z;
  pg_total : Z;
  pg_totalPages : Z;
  pg_hasNextPage : bool;
  pg_hasPreviousPage : bool
}.

(** [parseInt(value, 10) || fallback] for a value that the validation
    of the route has accepted as a whole number, or that is absent (the
    default of the destructuring is the text of [fallback]). *)
Definition parseIntOr (value : option Z) (fallback : Z) : Z :=
  match value with
  | Some n => if n =? 0 then fallback else n
  | None => fallback
  end.

(** [Math.ceil(a / b)] for whole numbers, [b] positive. *)
Definition ceilDiv (a b : Z) : Z := - ((- a) / b).

(** [.skip(skip).limit(limitNum)]: the server refuses a negative skip;
    a limit of 0 is no limit, and of a negative limit the absolute
    value is taken. *)
Definition skipLimit {A} (skip limitNum : Z) (matching : list A) : option (list A) :=
  if skip <? 0 then None
  else
    let rest := drop (Z.to_nat skip) matching in
    Some (if limitNum =? 0 then rest else take (Z.abs_nat limitNum) rest).

Definition paginate {A} (page limit : option Z) (matching : list A)
  : option (list A * Pagination) :=
  let pageNum := parseIntOr page 1 in
  let limitNum := parseIntOr limit 20 in
  let skip := (pageNum - 1) * limitNum in
  match skipLimit skip limitNum matching with
  | None => None
  | Some items =>
      let total := Z.of_nat (length matching) in
      let totalPages := ceilDiv total limitNum in
      Some (items,
            mkPagination pageNum limitNum total totalPages
              (pageNum <? totalPages) (1 <? pageNum))
  end.

(** ** Quote model: the virtual [isExpired] *)

Definition Quote_isExpired (this : Quote) (now : Z) : bool :=
  (q_expiresAt this <? now) && bool_decide (q_status this = q_pending).

(** ** MercadoPago configuration (src/config/mercadopago.ts)

    The environment variables are given in [Env]; the construction of
    the SDK's clients is taken to succeed. *)

Record Env := mkEnv {
  env_MERCADOPAGO_ACCESS_TOKEN : option string;
  env_MERCADOPAGO_PUBLIC_KEY : option string;
  env_MERCADOPAGO_WEBHOOK_URL : option string
}.

Record MercadoPagoConfiguration := mkMercadoPagoConfiguration {
  accessToken : string;
  publicKey : string
}.

Inductive Environment := sandbox | production.

Definition isValidToken (token : string) : bool :=
  String.prefix "TEST-" token || String.prefix "APP-" token.

(** The constructor: the configuration, or the message of the [Error]
    it throws. *)
Definition MercadoPagoConfiguration_new (env : Env) : string + MercadoPagoConfiguration :=
  let accessToken := default "" (env_MERCADOPAGO_ACCESS_TOKEN env) in
  let publicKey := default "" (env_MERCADOPAGO_PUBLIC_KEY env) in
  if negb (truthy accessToken)
  then inl "MERCADOPAGO_ACCESS_TOKEN no está configurado en las variables de entorno"
  else if negb (truthy publicKey)
  then inl "MERCADOPAGO_PUBLIC_KEY no está configurado en las variables de entorno"
  else if negb (isValidToken accessToken)
  then inl "MERCADOPAGO_ACCESS_TOKEN tiene un formato inválido"
  else inr (mkMercadoPagoConfiguration accessToken publicKey).

Definition getEnvironment (this : MercadoPagoConfiguration) : Environment :=
  if String.prefix "TEST-" (accessToken this) then sandbox else production.

Definition isSandbox (this : MercadoPagoConfiguration) : bool :=
  match getEnvironment this with sandbox => true | production => false end.

Definition getWebhookUrl (env : Env) : string := default "" (env_MERCADOPAGO_WEBHOOK_URL env).

Definition validateConfiguration (env : Env) (this : MercadoPagoConfiguration)
  : bool * list string :=
  let errors :=
    (if negb (truthy (accessToken this)) then ["MERCADOPAGO_ACCESS_TOKEN no configurado"] else [])
    ++ (if negb (truthy (publicKey this)) then ["MERCADOPAGO_PUBLIC_KEY no configurado"] else [])
    ++ (if negb (truthy (getWebhookUrl env)) then ["MERCADOPAGO_WEBHOOK_URL no configurado"] else [])
    ++ (if negb (isValidToken (accessToken this))
        then ["MERCADOPAGO_ACCESS_TOKEN tiene formato inválido"] else []) in
  (Nat.eqb (length errors) 0, errors).

Fixpoint join (separator : string) (parts : list string) : string :=
  match parts with
  | [] => ""
  | [part] => part
  | part :: rest => part +:+ separator +:+ join separator rest
  end.

(** [initializeMercadoPago], at the start of the application, when
    [getMercadoPagoConfig] has no instance yet: the configuration is
    built and validated.  The result is the instance it leaves, or the
    message of the error it throws. *)
Definition initializeMercadoPago (env : Env) : string + MercadoPagoConfiguration :=
  match MercadoPagoConfiguration_new env with
  | inl message => inl message
  | inr config =>
      let '(isValid, errors) := validateConfiguration env config in
      if negb isValid
      then inl ("Configuración inválida: " +:+ join ", " errors)
      else inr config
  end.

(** ** Quote controller: the lines of a new quote

    The part of [createQuote] between the check of the user and
    [new Quote(...)]: the products of the lines are looked up, the
    lines are checked against the stock and the items of the quote are
    built, each with a snapshot of its product; what this part throws
    is logged by the [catch] of the controller and thrown again.  A
    line of the request is a product id and a quantity, as a
    [StockItem] is. *)

Fixpoint createQuote_lines (products : gmap string Product) (items : list StockItem)
  : list QuoteItem * list string :=
  match items with
  | [] => ([], [])
  | item :: rest =>
      let '(quoteItems, stockErrors) := createQuote_lines products rest in
      match products !! productId item with
      | None =>
          (quoteItems, ("Producto " +:+ productId item +:+ " no encontrado") :: stockErrors)
      | Some product =>
          if negb (Product_validateStock product (quantity item))
          then (quoteItems,
                ("Stock insuficiente para " +:+ p_name product
                   +:+ ". Disponible: " +:+ pretty (p_stock product)
                   +:+ ", Solicitado: " +:+ pretty (quantity item)) :: stockErrors)
          else (mkQuoteItem (productId item) (p_name product) (p_price product)
                  (quantity item) (p_price product * inject_Z (quantity item))
                  :: quoteItems,
                stockErrors)
      end
  end.

Definition createQuote_items (items : list StockItem) : M (Response + list QuoteItem) :=
  try_catch
    (let productIds := map productId items in
     oids <- mapM (castObjectId "Product") productIds ;;
     products <- Product_findActive oids ;;
     if negb (Nat.eqb (size products) (length productIds))
     then ret (inl (badRequestResponse
                      "Uno o más productos no fueron encontrados o están inactivos"))
     else
       let '(quoteItems, stockErrors) := createQuote_lines products items in
       if (0 <? length stockErrors)%nat
       then ret (inl (badRequestResponse "Errores de validación de stock"))
       else ret (inr quoteItems))
    (fun e => logger Error "Error creando presupuesto:" ;;; throw e).

(** ** What the further properties are stated with *)

(** The text of an id as [toString()] prints it: casting it gives it
    back. *)
Definition canonicalId (s : string) : Prop := ObjectId.fromString s = Some s.

(** The ids [items.map(item => new Types.ObjectId(item.productId))]
    yields, when every text is an id. *)
Fixpoint objectIds (items : list StockItem) : option (list string) :=
  match items with
  | [] => Some []
  | item :: rest =>
      match ObjectId.fromString (productId item), objectIds rest with
      | Some oid, Some ids => Some (oid :: ids)
      | _, _ => None
      end
  end.

(** The product with [delta] added to its stock, in exact arithmetic. *)
Definition adjustStock (delta : Z) (p : Product) : Product :=
  mkProduct (p_name p) (p_price p) (p_stock p + delta) (p_isActive p).

(** Stock levels the code counts exactly from: whole numbers from 0 to
    [Number.MAX_SAFE_INTEGER]. *)
Definition safeStocks (ps : gmap string Product) : Prop :=
  forall k p, ps !! k = Some p -> 0 <= p_stock p <= MAX_SAFE_INTEGER.

(** The magnitudes of the quantities a batch has for product [k], added
    up; and the batches that, added to the stock line by line, stay
    among the numbers the code counts exactly. *)
Fixpoint magnitude (k : string) (items : list StockItem) : Z :=
  match items with
  | [] => 0
  | item :: rest =>
      (if String.eqb (productId item) k then Z.abs (quantity item) else 0) + magnitude k rest
  end.

Definition safeIncrement (items : list StockItem) (ps : gmap string Product) : Prop :=
  forall k p, ps !! k = Some p -> Z.abs (p_stock p) + magnitude k items <= MAX_SAFE_INTEGER.

(** A line names, by the text of its id, an active product. *)
Definition lineFound (ps : gmap string Product) (item : StockItem) : Prop :=
  canonicalId (productId item) /\
  exists p, ps !! productId item = Some p /\ p_isActive p = true.

(** A line the stock can serve on its own: it names an active product
    and asks for a positive quantity the product has. *)
Definition lineServable (ps : gmap string Product) (item : StockItem) : Prop :=
  canonicalId (productId item) /\
  exists p, ps !! productId item = Some p /\ p_isActive p = true /\
            0 < quantity item <= p_stock p.

Definition lineServableb (ps : gmap string Product) (item : StockItem) : bool :=
  bool_decide (ObjectId.fromString (productId item) = Some (productId item))
  && match ps !! productId item with
     | Some p => p_isActive p && (0 <? quantity item) && (quantity item <=? p_stock p)
     | None => false
     end.

(** The active product a line names by the text of its id. *)
Definition foundActive (ps : gmap string Product) (item : StockItem) : option Product :=
  if bool_decide (canonicalId (productId item))
  then match ps !! productId item with
       | Some p => if p_isActive p then Some p else None
       | None => None
       end
  else None.

(** What the validation has to say about a line. *)
Definition lineError (ps : gmap string Product) (item : StockItem) : option ValidationError :=
  match foundActive ps item with
  | None => Some (mkValidationError (productId item) "Producto no encontrado" (quantity item) 0)
  | Some p =>
      if Product_validateStock p (quantity item) then None
      else Some (mkValidationError (productId item) (p_name p) (quantity item) (p_stock p))
  end.

(** The error of an operation that a validation error is turned into. *)
Definition operationError (err : ValidationError) : OperationError :=
  mkOperationError (ve_productId err) (Some (ve_productName err))
    ("Stock insuficiente. Solicitado: " +:+ pretty (ve_requested err)
       +:+ ", Disponible: " +:+ pretty (ve_available err))
    (Some (ve_requested err)) (Some (ve_available err)).

(** The outcome of [decrementStock], case by case. *)
Definition decrementOutcome (items : list StockItem) (w : World)
    (res : StockOperationResult) (w' : World) : Prop :=
  match objectIds items with
  | None =>
      res = transactionErrorResult "Error validando disponibilidad de stock" /\ sameData w w'
  | Some ids =>
      let pm := activeAmong ids (products w) in
      match validateItems pm items with
      | _ :: _ => res = transactionErrorResult "Validación de stock fallida" /\ sameData w w'
      | [] =>
          exists w1, sameData w w1 /\
            match decrementItems pm items [] [] w1 with
            | (inl e, _) => res = transactionErrorResult e /\ sameData w w'
            | (inr (upd, _ :: _), _) =>
                res = transactionErrorResult "Error en decremento de stock" /\ sameData w w'
            | (inr (upd, []), w2) =>
                res = mkStockOperationResult true "Stock decrementado exitosamente"
                        None (Some upd) /\
                products w' = products w2 /\ sameCollections w w'
            end
      end
  end.

(** The outcome of [incrementStock], case by case. *)
Definition incrementOutcome (items : list StockItem) (w : World)
    (res : StockOperationResult) (w' : World) : Prop :=
  match objectIds items with
  | None => res = transactionErrorResult ObjectId.BSONError /\ sameData w w'
  | Some ids =>
      exists w1, sameData w w1 /\
        match incrementItems (activeAmong ids (products w)) items [] [] w1 with
        | (inl e, _) => res = transactionErrorResult e /\ sameData w w'
        | (inr (upd, _ :: _), _) =>
            res = transactionErrorResult "Error en incremento de stock" /\ sameData w w'
        | (inr (upd, []), w2) =>
            res = mkStockOperationResult true "Stock incrementado exitosamente"
                    None (Some upd) /\
            products w' = products w2 /\ sameCollections w w'
        end
  end.

(** The payment a notification correlates to, by its external
    reference. *)
Definition matched (wd : WebhookData) (w : World) : option Payment :=
  match wd_externalReference wd with
  | Some ref =>
      if truthy ref
      then find (fun p => String.eqb (pay_externalReference p) ref) (payments w)
      else None
  | None => None
  end.

(** The status a notification other than an approved one sets. *)
Definition otherStatus (status : string) : option PaymentStatus :=
  if String.eqb status "rejected" then Some pay_rejected
  else if String.eqb status "cancelled" then Some pay_cancelled
  else None.

(** The payment as such a notification leaves it: the status, the
    notification kept, and the date of payment removed when the status
    changed. *)
Definition afterNotification (loaded : Payment) (s : PaymentStatus) (wd : WebhookData)
  : Payment :=
  mkPayment (pay_id loaded) (pay_quote loaded) (pay_mercadopagoId loaded) s
    (pay_amount loaded) (pay_externalReference loaded) (Some wd)
    (if bool_decide (s = pay_status loaded) then pay_paidAt loaded else None).

(** A pending payment as [cancelPayment] saves it. *)
Definition cancelledPayment (loaded : Payment) : Payment :=
  setPaidAt (setPaymentStatus loaded pay_cancelled) None.

(** A payment has a date of payment exactly when it is approved. *)
Definition paidAtOk (p : Payment) : Prop :=
  is_Some (pay_paidAt p) <-> pay_status p = pay_approved.

(** Every quote has the status it had. *)
Definition sameStatuses (w w' : World) : Prop :=
  forall id, q_status <$> quotes w' !! id = q_status <$> quotes w !! id.

(** The operations on payments, and a run of them one after the other. *)
Inductive PaymentOp :=
| OpCreatePayment (req : CreatePaymentRequest)
| OpNotify (webhookData : WebhookData) (now : Z)
| OpCancelPayment (paymentId : string) (now : Z).

Definition runPaymentOp (op : PaymentOp) (w : World) : World :=
  match op with
  | OpCreatePayment req => (createPayment req w).2
  | OpNotify webhookData now => (handlePaymentWebhook webhookData now w).2
  | OpCancelPayment paymentId now => (cancelPayment paymentId now w).2
  end.

Definition runPaymentOps (ops : list PaymentOp) (w : World) : World :=
  fold_left (fun w op => runPaymentOp op w) ops w.

(** The stock [updateStock] aims at. *)
Definition targetStock (operation : option string) (current stock : Z) : Z :=
  if String.eqb (default "set" operation) "increment" then current + stock
  else if String.eqb (default "set" operation) "decrement" then current - stock
  else stock.

(** The documents that page [page] of a listing shows, [limit] to a
    page. *)
Definition pageItems {A} (page limit : Z) (matching : list A) : list A :=
  match paginate (Some page) (Some limit) matching with
  | Some (items, _) => items
  | None => []
  end.

(** The item [createQuote] builds for a line and its product. *)
Definition snapshotItem (ps : gmap string Product) (item : StockItem) (qi : QuoteItem) : Prop :=
  exists p, ps !! productId item = Some p /\
            qi_product qi = productId item /\
            qi_snapshotName qi = p_name p /\ qi_snapshotPrice qi = p_price p /\
            qi_quantity qi = quantity item.

(** * Proofs *)

(** ** The stock ledger *)

Ltac munfold :=
  unfold bind, ret, throw, try_catch, withTransaction, logger,
    Product_findActive in *.

Lemma mapM_ObjectId_world items w :
  exists r, mapM (fun item => ObjectId_new (productId item)) items w = (r, w).
Proof.
  revert w. induction items as [|it items IH]; intros w; simpl.
  - eexists. reflexivity.
  - unfold bind at 1, ObjectId_new at 1.
    destruct (ObjectId.fromString (productId it)); [|unfold throw; eauto].
    unfold ret at 1, bind at 1. destruct (IH w) as [r ->]. destruct r; unfold ret; eauto.
Qed.

Lemma mapM_ObjectId_valid items w :
  Forall validId items ->
  exists ids, mapM (fun item => ObjectId_new (productId item)) items w = (inr ids, w).
Proof.
  induction 1 as [|it items [oid Hoid] _ IH]; simpl.
  - eexists. reflexivity.
  - unfold bind at 1, ObjectId_new at 1. rewrite Hoid.
    unfold ret at 1, bind at 1. destruct IH as [ids ->]. unfold ret. eauto.
Qed.

(** What one run of the decrement loop does to the other collections
    and to the list of errors. *)
Lemma decrementItems_spec pm items : forall upd errs w r w',
  decrementItems pm items upd errs w = (r, w') ->
  sameCollections w w' /\
  match r with
  | inl _ => True
  | inr (upd', errs') => (length errs <= length errs')%nat
  end.
Proof.
  induction items as [|item items IH]; intros upd errs w r w' H; simpl in H.
  - munfold. injection H as <- <-. split; [done|]. lia.
  - destruct (pm !! productId item) as [product|] eqn:Hpm.
    2:{ apply IH in H as [Hs H]. split; [done|]. destruct r as [|[upd' errs']]; [done|].
        rewrite length_app in H. simpl in H. lia. }
    destruct (p_stock product <? quantity item) eqn:Hlt.
    { apply IH in H as [Hs H]. split; [done|]. destruct r as [|[upd' errs']]; [done|].
      rewrite length_app in H. simpl in H. lia. }
    unfold bind at 1 in H. unfold Product_findByIdAndUpdate_inc in H.
    destruct (products w !! productId item) as [p|] eqn:Hp.
    2:{ apply IH in H as [Hs H]. split; [done|]. destruct r as [|[upd' errs']]; [done|].
        rewrite length_app in H. simpl in H. lia. }
    cbv zeta in H. destruct (p_stock (incStock (- quantity item) p) <? 0) eqn:Hneg.
    { munfold. injection H as <- <-. split; [done|]. done. }
    unfold bind at 1, logger at 1 in H. apply IH in H as [Hs H]. simpl in *.
    split; [done|]. destruct r as [|[upd' errs']]; done.
Qed.

Lemma activeAmong_Some ids ps k p :
  activeAmong ids ps !! k = Some p -> ps !! k = Some p /\ p_isActive p = true.
Proof.
  unfold activeAmong. intros [H1 [_ H2]]%map_lookup_filter_Some. done.
Qed.

Lemma activeAmong_inactive ids ps k p :
  ps !! k = Some p -> p_isActive p = false -> activeAmong ids ps !! k = None.
Proof.
  intros Hk Hp. destruct (activeAmong ids ps !! k) as [p'|] eqn:E; [|done].
  apply activeAmong_Some in E as [E1 E2]. congruence.
Qed.

Lemma validateItems_nil pm items :
  validateItems pm items = [] ->
  forall item, In item items ->
    exists p, pm !! productId item = Some p /\
              Product_validateStock p (quantity item) = true.
Proof.
  induction items as [|it items IH]; simpl; [done|].
  destruct (pm !! productId it) as [p|] eqn:Hp; [|done].
  destruct (Product_validateStock p (quantity it)) eqn:Hv; [|done]. simpl.
  intros H item [<-|Hin]; eauto.
Qed.

Lemma validateItems_notFound pm items item :
  In item items -> pm !! productId item = None ->
  In (mkValidationError (productId item) "Producto no encontrado" (quantity item) 0)
     (validateItems pm items).
Proof.
  induction items as [|it items IH]; simpl; [done|].
  intros [->|Hin] Hnone.
  - rewrite Hnone. by left.
  - destruct (pm !! productId it); [destruct (negb _)|]; simpl; auto.
Qed.

Lemma validateStock_world items w :
  exists r w', validateStock items w = (r, w') /\
    products w' = products w /\ sameCollections w w' /\
    match r with
    | inl _ => True
    | inr res =>
        exists ids, res = mkStockValidationResult
                            (Nat.eqb (length (validateItems (activeAmong ids (products w)) items)) 0)
                            (validateItems (activeAmong ids (products w)) items)
    end.
Proof.
  unfold validateStock, try_catch, bind at 1, logger at 1.
  unfold bind at 1.
  match goal with |- context [mapM ?f items ?w0] =>
    destruct (mapM_ObjectId_world items w0) as [r ->] end.
  destruct r as [e|ids]; munfold; simpl.
  - do 2 eexists. split; [reflexivity|]. simpl. repeat split.
  - do 2 eexists. split; [reflexivity|]. simpl. repeat split. by exists ids.
Qed.

Lemma validateStock_valid items w :
  Forall validId items ->
  exists ids w', validateStock items w
    = (inr (mkStockValidationResult
              (Nat.eqb (length (validateItems (activeAmong ids (products w)) items)) 0)
              (validateItems (activeAmong ids (products w)) items)), w') /\
    products w' = products w /\ sameCollections w w'.
Proof.
  intros Hv. unfold validateStock, try_catch, bind at 1, logger at 1.
  unfold bind at 1.
  match goal with |- context [mapM ?f items ?w0] =>
    destruct (mapM_ObjectId_valid items w0 Hv) as [ids ->] end.
  munfold; simpl. do 2 eexists. split; [reflexivity|]. simpl. repeat split.
Qed.

Lemma decrementStock_spec items w :
  exists res w', decrementStock items w = (inr res, w') /\
    sameCollections w w' /\
    (if success res
     then forall item, In item items ->
            exists p, products w !! productId item = Some p /\ p_isActive p = true /\
                      Product_validateStock p (quantity item) = true
     else products w' = products w /\ exists msg, res = transactionErrorResult msg).
Proof.
  unfold decrementStock, try_catch, bind at 1, logger at 1.
  unfold bind at 1, withTransaction at 1, bind at 1.
  match goal with |- context [validateStock items ?w0] =>
    destruct (validateStock_world items w0) as (r & w1 & -> & Hp1 & [Hq1 Hy1] & Hr) end.
  simpl in *.
  assert (Hfail : forall (e : string) (w2 : World),
             quotes w2 = quotes w -> payments w2 = payments w ->
             exists res w',
               (logger Error "Error decrementando stock:" ;;; ret (transactionErrorResult e))
                 (mkWorld (products w) (quotes w2) (payments w2) (logs w2)) = (inr res, w') /\
               sameCollections w w' /\
               (if success res
                then forall item, In item items ->
                       exists p, products w !! productId item = Some p /\ p_isActive p = true /\
                                 Product_validateStock p (quantity item) = true
                else products w' = products w /\ exists msg, res = transactionErrorResult msg)).
  { intros e w2 Hq Hy. munfold. do 2 eexists. split; [reflexivity|]. simpl.
    repeat split; eauto. }
  destruct r as [e|validation]; [by apply Hfail|].
  destruct Hr as [ids0 ->]. cbn [isValid].
  destruct (Nat.eqb_spec (length (validateItems (activeAmong ids0 (products w)) items)) 0)
    as [Hvalid|_]; cbn [negb]; [|unfold throw; by apply Hfail].
  apply length_zero_iff_nil in Hvalid.
  unfold bind at 1.
  destruct (mapM_ObjectId_world items w1) as [r ->].
  destruct r as [e|ids]; [by apply Hfail|].
  unfold bind at 1, Product_findActive at 1. unfold bind at 1.
  match goal with |- context [decrementItems ?pm items [] [] w1] =>
    destruct (decrementItems pm items [] [] w1) as [r w2] eqn:Hloop end.
  apply decrementItems_spec in Hloop as [[Hq2 Hy2] Hloop].
  destruct r as [e|[upd errs]]; [apply Hfail; congruence|].
  destruct (0 <? length errs)%nat eqn:Hlen.
  { unfold throw. apply Hfail; congruence. }
  munfold. do 2 eexists. split; [reflexivity|]. simpl.
  split; [split; simpl; congruence|].
  intros item Hin.
  destruct (validateItems_nil _ _ Hvalid item Hin) as (p & Hpm & Hv).
  apply activeAmong_Some in Hpm as [? ?]. eauto.
Qed.

Lemma incrementItems_spec pm items : forall upd errs w r w',
  incrementItems pm items upd errs w = (r, w') ->
  sameCollections w w' /\
  match r with
  | inl _ => True
  | inr (upd', errs') =>
      (length errs <= length errs')%nat /\
      (length errs' = 0%nat -> forall item, In item items -> is_Some (pm !! productId item))
  end.
Proof.
  induction items as [|item items IH]; intros upd errs w r w' H; simpl in H.
  - munfold. injection H as <- <-. split; [done|]. split; [lia|done].
  - destruct (pm !! productId item) as [product|] eqn:Hpm.
    2:{ apply IH in H as [Hs H]. split; [done|]. destruct r as [|[upd' errs']]; [done|].
        destruct H as (Hl & _). rewrite length_app in Hl. simpl in Hl.
        split; [lia|]. intros; lia. }
    unfold bind at 1 in H. unfold Product_findByIdAndUpdate_inc in H.
    destruct (products w !! productId item) as [p|] eqn:Hp.
    2:{ apply IH in H as [Hs H]. split; [done|]. destruct r as [|[upd' errs']]; [done|].
        destruct H as (Hl & _). rewrite length_app in Hl. simpl in Hl.
        split; [lia|]. intros; lia. }
    cbv zeta in H.
    unfold bind at 1, logger at 1 in H. apply IH in H as [Hs H]. simpl in *.
    split; [done|]. destruct r as [|[upd' errs']]; [done|].
    destruct H as (Hl & Hfound). split; [done|].
    intros Hz it [<-|Hin]; [by rewrite Hpm|by apply Hfound].
Qed.

Lemma incrementStock_spec items w :
  exists res w', incrementStock items w = (inr res, w') /\
    sameCollections w w' /\
    (if success res
     then forall item, In item items ->
            exists p, products w !! productId item = Some p /\ p_isActive p = true
     else products w' = products w /\ exists msg, res = transactionErrorResult msg).
Proof.
  unfold incrementStock, try_catch, bind at 1, logger at 1.
  unfold bind at 1, withTransaction at 1, bind at 1.
  set (w1 := mkWorld (products w) (quotes w) (payments w) _).
  assert (Hfail : forall (e : string) (w2 : World),
             quotes w2 = quotes w -> payments w2 = payments w ->
             exists res w',
               (logger Error "Error incrementando stock:" ;;; ret (transactionErrorResult e))
                 (mkWorld (products w) (quotes w2) (payments w2) (logs w2)) = (inr res, w') /\
               sameCollections w w' /\
               (if success res
                then forall item, In item items ->
                       exists p, products w !! productId item = Some p /\ p_isActive p = true
                else products w' = products w /\ exists msg, res = transactionErrorResult msg)).
  { intros e w2 Hq Hy. munfold. do 2 eexists. split; [reflexivity|]. simpl.
    repeat split; eauto. }
  destruct (mapM_ObjectId_world items w1) as [r ->].
  destruct r as [e|ids]; [by apply Hfail|].
  unfold bind at 1, Product_findActive at 1. unfold bind at 1.
  match goal with |- context [incrementItems ?pm items [] [] w1] =>
    destruct (incrementItems pm items [] [] w1) as [r w2] eqn:Hloop end.
  apply incrementItems_spec in Hloop as [[Hq2 Hy2] Hloop]. subst w1. simpl in *.
  destruct r as [e|[upd errs]]; [by apply Hfail|].
  destruct Hloop as (_ & Hfound).
  destruct (0 <? length errs)%nat eqn:Hlen.
  { unfold throw. by apply Hfail. }
  apply Nat.ltb_ge in Hlen.
  munfold. do 2 eexists. split; [reflexivity|]. simpl.
  split; [split; simpl; congruence|].
  intros item Hin. destruct (Hfound ltac:(lia) item Hin) as [p Hp].
  apply (activeAmong_Some ids) in Hp as [? ?]. eauto.
Qed.

(** C3, at a failing input: [incrementStock] takes a negative quantity
    as it takes any other, so with a stock of 3 the increment of -5
    succeeds and leaves the stock at -2, below zero; [decrementStock]
    of 5 on the same stock is refused and leaves the 3. *)
Theorem increment_of_negative_quantity_takes_stock_below_zero :
  let items := [mkStockItem px (-5)] in
  stockOf (products (stockWorld 3)) px = 3 /\
  (exists res, (incrementStock items (stockWorld 3)).1 = inr res /\ success res = true) /\
  stockOf (products (incrementStock items (stockWorld 3)).2) px = -2 /\
  (exists res, (decrementStock [mkStockItem px 5] (stockWorld 3)).1 = inr res /\
               success res = false) /\
  stockOf (products (decrementStock [mkStockItem px 5] (stockWorld 3)).2) px = 3.
Proof.
  vm_compute. repeat split; try reflexivity; eexists; (split; [reflexivity|reflexivity]).
Qed.

Lemma mapM_ObjectId_invalid items w :
  ~ Forall validId items ->
  mapM (fun item => ObjectId_new (productId item)) items w = (inl ObjectId.BSONError, w).
Proof.
  induction items as [|it items IH]; intros Hn; [destruct Hn; constructor|].
  cbn [mapM]. unfold bind at 1, ObjectId_new at 1.
  destruct (ObjectId.fromString (productId it)) as [oid|] eqn:Hoid; [|done].
  unfold ret at 1, bind at 1. rewrite IH; [done|].
  intros Hv. apply Hn. constructor; [by exists oid|done].
Qed.

Lemma validateStock_invalid items w :
  ~ Forall validId items ->
  exists w', validateStock items w = (inl "Error validando disponibilidad de stock", w') /\
             products w' = products w /\ sameCollections w w'.
Proof.
  intros Hn. unfold validateStock, try_catch, bind at 1, logger at 1. unfold bind at 1.
  rewrite mapM_ObjectId_invalid by done. munfold. eexists. split; [reflexivity|]. done.
Qed.

(** C10 (as amended): a batch names a product that exists but is
    inactive, whatever its stock.  [decrementStock] and [incrementStock]
    fail and leave every stock as it was.  [validateStock] reports that
    item as not found (available 0) and the batch as invalid when every
    id of the batch is well formed, and throws, reporting nothing, when
    one is not. *)
Theorem inactive_product_is_not_found
    (items : list StockItem) (item : StockItem) (p : Product) (w : World) :
  In item items ->
  products w !! productId item = Some p ->
  p_isActive p = false ->
  (Forall validId items ->
   exists res w', validateStock items w = (inr res, w') /\
     isValid res = false /\
     In (mkValidationError (productId item) "Producto no encontrado" (quantity item) 0)
        (v_errors res) /\
     products w' = products w) /\
  (~ Forall validId items ->
   exists w', validateStock items w = (inl "Error validando disponibilidad de stock", w') /\
     products w' = products w) /\
  (exists res w', decrementStock items w = (inr res, w') /\
     success res = false /\ products w' = products w) /\
  (exists res w', incrementStock items w = (inr res, w') /\
     success res = false /\ products w' = products w).
Proof.
  intros Hin Hp Hinactive. split; [|split; [|split]].
  - intros Hvalid.
    destruct (validateStock_valid items w Hvalid) as (ids & w' & -> & Hps & _).
    do 2 eexists. split; [reflexivity|]. cbn [isValid v_errors].
    assert (Herr : In (mkValidationError (productId item) "Producto no encontrado"
                         (quantity item) 0)
                      (validateItems (activeAmong ids (products w)) items)).
    { apply validateItems_notFound; [done|]. by eapply activeAmong_inactive. }
    repeat split; [|done|done].
    destruct (validateItems (activeAmong ids (products w)) items); [destruct Herr|done].
  - intros Hinvalid. destruct (validateStock_invalid items w Hinvalid) as (w' & -> & Hps & _).
    by exists w'.
  - destruct (decrementStock_spec items w) as (res & w' & -> & _ & Hst).
    do 2 eexists. split; [reflexivity|].
    destruct (success res).
    + destruct (Hst item Hin) as (p' & Hp' & Hact & _). congruence.
    + by destruct Hst as [-> _].
  - destruct (incrementStock_spec items w) as (res & w' & -> & _ & Hst).
    do 2 eexists. split; [reflexivity|].
    destruct (success res).
    + destruct (Hst item Hin) as (p' & Hp' & Hact). congruence.
    + by destruct Hst as [-> _].
Qed.

Lemma inactive_product_is_not_found_witness :
  (Forall validId catalogBatch ->
   exists res w', validateStock catalogBatch catalogWorld = (inr res, w') /\
     isValid res = false /\
     In (mkValidationError py "Producto no encontrado" 2 0) (v_errors res) /\
     products w' = products catalogWorld) /\
  (~ Forall validId catalogBatch ->
   exists w', validateStock catalogBatch catalogWorld
              = (inl "Error validando disponibilidad de stock", w') /\
     products w' = products catalogWorld) /\
  (exists res w', decrementStock catalogBatch catalogWorld = (inr res, w') /\
     success res = false /\ products w' = products catalogWorld) /\
  (exists res w', incrementStock catalogBatch catalogWorld = (inr res, w') /\
     success res = false /\ products w' = products catalogWorld).
Proof.
  apply (inactive_product_is_not_found catalogBatch
           (mkStockItem py 2) (mkProduct "Teclado" 250 50 false) catalogWorld).
  - simpl. auto.
  - vm_compute. reflexivity.
  - reflexivity.
Defined.

(** C10, as stated, fails: in a batch that also holds an id that is not
    an [ObjectId], [validateStock] reports nothing about the inactive
    product: it throws. *)
Lemma inactive_product_in_malformed_batch_counterexample :
  ~ (forall (items : list StockItem) (item : StockItem) (p : Product) (w : World),
       In item items ->
       products w !! productId item = Some p ->
       p_isActive p = false ->
       exists res w', validateStock items w = (inr res, w') /\
         In (mkValidationError (productId item) "Producto no encontrado" (quantity item) 0)
            (v_errors res)).
Proof.
  intros H.
  destruct (H [mkStockItem py 2; mkStockItem "teclado" 1] (mkStockItem py 2)
              (mkProduct "Teclado" 250 50 false) catalogWorld)
    as (res & w' & Hrun & _).
  - simpl. auto.
  - vm_compute. reflexivity.
  - reflexivity.
  - vm_compute in Hrun. discriminate.
Qed.

(** C2, at the input of the spec's example: with a stock of 3, the
    decrement of 5 fails and the stock stays 3, but the result carries
    the one general error of the [catch], not the per-item error
    (requested 5, available 3) that [validateStock] gives for the same
    batch. *)
Theorem decrement_failure_loses_item_errors :
  let items := [mkStockItem px 5] in
  (validateStock items (stockWorld 3)).1
    = inr (mkStockValidationResult false [mkValidationError px "Mouse" 5 3]) /\
  (decrementStock items (stockWorld 3)).1
    = inr (mkStockOperationResult false "Error en la transacción de stock"
             (Some [mkOperationError "general" None "Validación de stock fallida" None None])
             None) /\
  products (decrementStock items (stockWorld 3)).2 = products (stockWorld 3) /\
  stockOf (products (decrementStock items (stockWorld 3)).2) px = 3.
Proof. vm_compute. repeat split; reflexivity. Qed.

Lemma Payment_save_approved loaded wd now w :
  Payment_save loaded (approvedPayment loaded wd now) now w
  = (inr tt, mkWorld (products w) (quotes w)
               (replacePayment (approvedPayment loaded wd now) (payments w)) (logs w)).
Proof.
  unfold Payment_save, Payment_preSave_paidAt. cbn [approvedPayment setWebhookData setPaidAt
    setPaymentStatus pay_status pay_paidAt].
  destruct (negb (bool_decide (pay_approved = pay_status loaded))); [|done].
  rewrite (bool_decide_true (is_Some (Some now))) by eauto.
  rewrite (bool_decide_true (pay_approved = pay_approved)) by done. done.
Qed.

(** ** The approved notification

    An approved notification [wd], delivered at [now], that correlates
    to the payment [loaded] of a quote whose expiration lies ahead. *)

Section ApprovedNotification.

Context (wd : WebhookData) (now : Z) (w : World) (loaded : Payment) (quote : Quote).
Hypothesis Hstatus : wd_status wd = "approved".
Hypothesis Hcor : correlates wd w loaded.
Hypothesis Hquote : quotes w !! pay_quote loaded = Some quote.
Hypothesis Hnow : now < q_expiresAt quote.

(** The approved branch, whatever the decrement answers. *)
Lemma webhook_approved :
  exists res w2 w',
    decrementStock (stockItemsOf quote)
      (mkWorld (products w)
         (<[pay_quote loaded := calculateTotals (setQuoteStatus quote q_paid)]> (quotes w))
         (payments w) (logs w ++ [(Info, "Procesando webhook de pago")]))
    = (inr res, w2) /\
    handlePaymentWebhook wd now w = (inr tt, w') /\
    products w' = products w2 /\
    quotes w' = <[pay_quote loaded := calculateTotals (setQuoteStatus quote q_paid)]> (quotes w) /\
    payments w' = replacePayment (approvedPayment loaded wd now) (payments w) /\
    logs w' = logs w2
              ++ [if success res
                  then (Info, "Stock decrementado exitosamente")
                  else (Error, "Error decrementando stock después del pago")]
              ++ [(Info, "Pago actualizado por webhook")].
Proof.
  destruct Hcor as (ref & Href & Htruthy & Hfind).
  match goal with |- context [decrementStock ?items ?w0] =>
    destruct (decrementStock_spec items w0) as (res & w2 & Hdec & [Hq2 Hy2] & _) end.
  simpl in Hq2, Hy2.
  exists res, w2,
    (mkWorld (products w2) (quotes w2)
       (replacePayment (approvedPayment loaded wd now) (payments w2))
       ((logs w2 ++ [if success res
                     then (Info, "Stock decrementado exitosamente")
                     else (Error, "Error decrementando stock después del pago")])
          ++ [(Info, "Pago actualizado por webhook")])).
  split; [exact Hdec|].
  unfold handlePaymentWebhook, try_catch, bind at 1, logger at 1.
  rewrite Href, Htruthy. unfold bind at 1, Payment_findOne_byExternalReference. cbn [payments].
  rewrite Hfind, Hstatus. cbn [String.eqb Ascii.eqb Bool.eqb].
  unfold bind at 1. unfold bind at 1, Quote_findById at 1. cbn [quotes setPaidAt setPaymentStatus pay_quote].
  rewrite Hquote. unfold bind at 1, Quote_save at 1, Quote_validate_expiresAt.
  change (q_expiresAt (setQuoteStatus quote q_paid)) with (q_expiresAt quote).
  rewrite (proj2 (Z.ltb_lt now (q_expiresAt quote)) Hnow).
  cbn [products quotes payments logs].
  unfold bind at 1. fold (stockItemsOf quote).
  change (q_items (setQuoteStatus quote q_paid)) with (q_items quote). fold (stockItemsOf quote).
  rewrite Hdec.
  unfold savePaymentAfterWebhook.
  fold (approvedPayment loaded wd now).
  destruct (success res); cbn [negb]; unfold logger at 1; unfold bind at 1;
    rewrite Payment_save_approved; unfold logger, bind; cbn [products quotes payments logs];
    (split; [reflexivity|]); cbn [products quotes payments logs];
    rewrite Hq2, Hy2, <- app_assoc; done.
Qed.

(** C4 (as amended): when the gateway reports the payment approved,
    the quote is saved (its expiration lies ahead, so the decrement is
    reached) and a line of the quote can no longer be served, the
    payment is stored approved with [paidAt] set to the time of the
    delivery; the quote is stored paid; no product's stock changes.
    The mismatch is logged at error level and that is all: the handler
    returns normally, and the quotes and the payments are stored as
    they are when the decrement succeeds. *)
Theorem approved_payment_with_failed_decrement (item : QuoteItem) :
  In item (q_items quote) ->
  cannotServe (products w) item ->
  exists w',
    handlePaymentWebhook wd now w = (inr tt, w') /\
    payments w' = replacePayment (approvedPayment loaded wd now) (payments w) /\
    In (approvedPayment loaded wd now) (payments w') /\
    pay_status (approvedPayment loaded wd now) = pay_approved /\
    pay_paidAt (approvedPayment loaded wd now) = Some now /\
    quotes w' = <[pay_quote loaded := calculateTotals (setQuoteStatus quote q_paid)]> (quotes w) /\
    (exists quote', quotes w' !! pay_quote loaded = Some quote' /\ q_status quote' = q_paid) /\
    products w' = products w /\
    "Error decrementando stock después del pago" ∈ errorLog w'.
Proof.
  intros Hin Hshort.
  destruct webhook_approved as (res & w2 & w' & Hdec & Hrun & Hps & Hqs & Hpays & Hlogs).
  assert (Hfailed : success res = false /\ products w2 = products w).
  { destruct (decrementStock_spec (stockItemsOf quote)
                (mkWorld (products w)
                   (<[pay_quote loaded := calculateTotals (setQuoteStatus quote q_paid)]> (quotes w))
                   (payments w) (logs w ++ [(Info, "Procesando webhook de pago")])))
      as (res' & w2' & Hdec' & _ & Hst).
    rewrite Hdec in Hdec'. injection Hdec' as <- <-.
    destruct (success res); [|by destruct Hst as [-> _]].
    destruct (Hst (mkStockItem (qi_product item) (qi_quantity item))) as (p & Hp & Hact & Hv).
    { unfold stockItemsOf. apply in_map_iff. eauto. }
    simpl in Hp, Hv. rewrite (Hshort p Hp Hact) in Hv. discriminate. }
  destruct Hfailed as [Hfail Hsame].
  exists w'. split; [done|]. split; [done|]. split.
  { rewrite Hpays. destruct Hcor as (ref & _ & _ & Hfind).
    apply find_some in Hfind as [Hloaded _].
    unfold replacePayment. apply in_map_iff. exists loaded. split; [|done].
    by rewrite String.eqb_refl. }
  split; [done|]. split; [done|]. split; [done|]. split.
  { rewrite Hqs, lookup_insert_eq. eexists. split; [reflexivity|].
    unfold calculateTotals. destruct (reduceItems _). reflexivity. }
  split; [congruence|].
  unfold errorLog. apply list_elem_of_fmap.
  exists (Error, "Error decrementando stock después del pago"). split; [done|].
  apply list_elem_of_filter. split; [done|].
  rewrite Hlogs, Hfail. apply elem_of_app. right. apply elem_of_app. left. by apply list_elem_of_In; left.
Qed.

End ApprovedNotification.

Lemma approved_payment_with_failed_decrement_witness :
  exists w',
    handlePaymentWebhook approvedNotification 1704100000000 (shopWorld 1 q_pending pay_pending)
      = (inr tt, w') /\
    payments w' = replacePayment
                    (approvedPayment (paymentOf pay_pending) approvedNotification 1704100000000)
                    (payments (shopWorld 1 q_pending pay_pending)) /\
    In (approvedPayment (paymentOf pay_pending) approvedNotification 1704100000000) (payments w') /\
    pay_status (approvedPayment (paymentOf pay_pending) approvedNotification 1704100000000)
      = pay_approved /\
    pay_paidAt (approvedPayment (paymentOf pay_pending) approvedNotification 1704100000000)
      = Some 1704100000000 /\
    quotes w' = <[pay_quote (paymentOf pay_pending) :=
                    calculateTotals (setQuoteStatus (quoteOf q_pending) q_paid)]>
                  (quotes (shopWorld 1 q_pending pay_pending)) /\
    (exists quote', quotes w' !! pay_quote (paymentOf pay_pending) = Some quote' /\
                    q_status quote' = q_paid) /\
    products w' = products (shopWorld 1 q_pending pay_pending) /\
    "Error decrementando stock después del pago" ∈ errorLog w'.
Proof.
  apply (approved_payment_with_failed_decrement approvedNotification 1704100000000
           (shopWorld 1 q_pending pay_pending) (paymentOf pay_pending) (quoteOf q_pending))
    with (item := mkQuoteItem px "Mouse" 100 2 200).
  - reflexivity.
  - exists refx. repeat split.
  - reflexivity.
  - reflexivity.
  - simpl. auto.
  - intros p Hp _. vm_compute in Hp. injection Hp as <-. reflexivity.
Defined.

(** C4, as stated, fails: the failed decrement is not raised as a
    failure.  With a stock of 1 for a quote of 2 units the handler of
    the approved notification returns normally; all that tells of the
    mismatch are two lines of the log, written as any error is. *)
Lemma failed_decrement_is_not_raised_counterexample :
  let w := shopWorld 1 q_pending pay_pending in
  let item := mkQuoteItem px "Mouse" 100 2 200 in
  (In item (q_items (quoteOf q_pending)) /\
   quotes w !! pay_quote (paymentOf pay_pending) = Some (quoteOf q_pending) /\
   cannotServe (products w) item) /\
  (handlePaymentWebhook approvedNotification 1704100000000 w).1 = inr tt /\
  logs (handlePaymentWebhook approvedNotification 1704100000000 w).2
  = [(Info, "Procesando webhook de pago");
     (Info, "Iniciando decremento de stock atómico");
     (Info, "Validando stock para items");
     (Info, "Validación de stock completada");
     (Error, "Error decrementando stock:");
     (Error, "Error decrementando stock después del pago");
     (Info, "Pago actualizado por webhook")] /\
  ~ (forall (wd : WebhookData) (now : Z) (w : World) (loaded : Payment) (quote : Quote)
            (item : QuoteItem),
       wd_status wd = "approved" ->
       correlates wd w loaded ->
       quotes w !! pay_quote loaded = Some quote ->
       now < q_expiresAt quote ->
       In item (q_items quote) ->
       cannotServe (products w) item ->
       exists e w', handlePaymentWebhook wd now w = (inl e, w')).
Proof.
  cbv zeta.
  assert (Hcannot : cannotServe (products (shopWorld 1 q_pending pay_pending))
                      (mkQuoteItem px "Mouse" 100 2 200)).
  { intros p Hp _. vm_compute in Hp. injection Hp as <-. reflexivity. }
  split; [split; [simpl; auto|split; [reflexivity|exact Hcannot]]|].
  split; [vm_compute; reflexivity|]. split; [vm_compute; reflexivity|].
  intros H.
  destruct (H approvedNotification 1704100000000 (shopWorld 1 q_pending pay_pending)
              (paymentOf pay_pending) (quoteOf q_pending) (mkQuoteItem px "Mouse" 100 2 200))
    as (e & w' & Hrun).
  - reflexivity.
  - exists refx. repeat split.
  - reflexivity.
  - reflexivity.
  - simpl. auto.
  - exact Hcannot.
  - vm_compute in Hrun. discriminate.
Qed.

(** C1, at a failing input: the same approved notification delivered
    twice decrements the stock twice (10, then 8, then 6) and moves
    [paidAt]; the second delivery is not a no-op although the payment
    was already approved. *)
Theorem replayed_approved_notification_decrements_again :
  let w0 := shopWorld 10 q_pending pay_pending in
  let once := (handlePaymentWebhook approvedNotification 1704100000000 w0).2 in
  let twice := (handlePaymentWebhook approvedNotification 1704100060000 once).2 in
  stockOf (products w0) px = 10 /\
  stockOf (products once) px = 8 /\
  pay_status <$> payments once = [pay_approved] /\
  stockOf (products twice) px = 6 /\
  pay_paidAt <$> payments once = [Some 1704100000000] /\
  pay_paidAt <$> payments twice = [Some 1704100060000] /\
  products twice <> products once.
Proof.
  vm_compute. repeat split; try reflexivity.
  intros H. apply (f_equal (fun m => stockOf m px)) in H. vm_compute in H. discriminate.
Qed.

(** ** The transitions of a quote *)

Lemma calculateTotals_status q : q_status (calculateTotals q) = q_status q.
Proof. unfold calculateTotals. destruct (reduceItems _). reflexivity. Qed.

Lemma calculateTotals_expiresAt q : q_expiresAt (calculateTotals q) = q_expiresAt q.
Proof. unfold calculateTotals. destruct (reduceItems _). reflexivity. Qed.

Lemma cancelQuote_cases cid user now w :
  products (cancelQuote cid user now w).2 = products w /\
  payments (cancelQuote cid user now w).2 = payments w /\
  (quotes (cancelQuote cid user now w).2 = quotes w /\
   refused (cancelQuote cid user now w).1 \/
   exists oid q,
     ObjectId.fromString cid = Some oid /\ quotes w !! oid = Some q /\
     q_status q = q_pending /\ now < q_expiresAt q /\
     quotes (cancelQuote cid user now w).2
     = <[oid := calculateTotals (setQuoteStatus q q_cancelled)]> (quotes w)).
Proof.
  unfold cancelQuote, try_catch, bind, ret, throw, Quote_findOne_forUser, castObjectId,
    castPath, Quote_save, Quote_validate_expiresAt, logger.
  destruct (ObjectId.fromString cid) as [oid|] eqn:Hcid; [|unfold ret, throw; simpl; auto].
  assert (Hfound : forall (createdBy : option string),
    let found := match quotes w !! oid with
                 | Some q =>
                     match createdBy with
                     | Some uid => if String.eqb (q_createdBy q) uid then Some (oid, q) else None
                     | None => Some (oid, q)
                     end
                 | None => None
                 end in
    found = None \/ exists q, quotes w !! oid = Some q /\ found = Some (oid, q)).
  { intros createdBy. simpl. destruct (quotes w !! oid) as [q|]; [|by left].
    destruct createdBy as [uid|]; [destruct (String.eqb _ _)|]; eauto. }
  destruct user as [[uid []]|]; unfold ret, throw; simpl.
  1,3: destruct (Hfound None) as [->|(q & Hq & ->)]; simpl; [auto|];
       case_bool_decide as Hs; simpl; [|auto];
       destruct (Z.ltb_spec now (q_expiresAt q)); simpl; [|auto];
       split; [done|]; split; [done|]; right; exists oid, q; done.
  destruct (ObjectId.fromString uid) as [uid'|]; simpl; [|auto].
  destruct (Hfound (Some uid')) as [->|(q & Hq & ->)]; simpl; [auto|].
  case_bool_decide as Hs; simpl; [|auto].
  destruct (Z.ltb_spec now (q_expiresAt q)); simpl; [|auto].
  split; [done|]. split; [done|]. right. exists oid, q. done.
Qed.

Lemma expireOldQuotes_quotes now w :
  quotes (expireOldQuotes now w).2 = expireOne now <$> quotes w.
Proof. reflexivity. Qed.

(** What an approved notification does to the quote of its payment. *)
Lemma webhook_markPaid wd now w loaded quote :
  wd_status wd = "approved" ->
  correlates wd w loaded ->
  quotes w !! pay_quote loaded = Some quote ->
  (now < q_expiresAt quote ->
   quotes (handlePaymentWebhook wd now w).2
   = <[pay_quote loaded := calculateTotals (setQuoteStatus quote q_paid)]> (quotes w)) /\
  (q_expiresAt quote <= now ->
   quotes (handlePaymentWebhook wd now w).2 = quotes w).
Proof.
  intros Happroved Hcor Hquote. split.
  - intros Hnow.
    destruct (webhook_approved wd now w loaded quote Happroved Hcor Hquote Hnow)
      as (res & w2 & w' & _ & -> & _ & Hqs & _). done.
  - intros Hexpired. destruct Hcor as (ref & Href & Htruthy & Hfind).
    unfold handlePaymentWebhook, try_catch, bind, logger,
      Payment_findOne_byExternalReference, Quote_findById, Quote_save,
      Quote_validate_expiresAt, throw.
    rewrite Href, Htruthy. cbn [payments]. rewrite Hfind, Happroved.
    cbn [String.eqb Ascii.eqb Bool.eqb quotes setPaidAt setPaymentStatus pay_quote].
    rewrite Hquote.
    change (q_expiresAt (setQuoteStatus quote q_paid)) with (q_expiresAt quote).
    rewrite (proj2 (Z.ltb_ge now (q_expiresAt quote)) Hexpired). reflexivity.
Qed.

Lemma webhook_quotes wd now w :
  quotes (handlePaymentWebhook wd now w).2 = quotes w \/
  exists loaded quote,
    wd_status wd = "approved" /\ correlates wd w loaded /\
    quotes w !! pay_quote loaded = Some quote /\ now < q_expiresAt quote /\
    quotes (handlePaymentWebhook wd now w).2
    = <[pay_quote loaded := calculateTotals (setQuoteStatus quote q_paid)]> (quotes w).
Proof.
  destruct (wd_externalReference wd) as [ref|] eqn:Href.
  2:{ left. unfold handlePaymentWebhook, try_catch, bind, logger. rewrite Href. reflexivity. }
  destruct (truthy ref) eqn:Htruthy.
  2:{ left. unfold handlePaymentWebhook, try_catch, bind, logger. rewrite Href, Htruthy.
      reflexivity. }
  destruct (find (fun p => String.eqb (pay_externalReference p) ref) (payments w))
    as [loaded|] eqn:Hfind.
  2:{ left. unfold handlePaymentWebhook, try_catch, bind, logger,
        Payment_findOne_byExternalReference.
      rewrite Href, Htruthy. cbn [payments]. rewrite Hfind. reflexivity. }
  assert (Hcor : correlates wd w loaded) by (exists ref; done).
  destruct (String.eqb (wd_status wd) "approved") eqn:Happroved.
  - apply String.eqb_eq in Happroved.
    destruct (quotes w !! pay_quote loaded) as [quote|] eqn:Hquote.
    + destruct (webhook_markPaid wd now w loaded quote Happroved Hcor Hquote) as [Hpaid Hkept].
      destruct (Z.ltb_spec now (q_expiresAt quote)) as [Hnow|Hexpired].
      * right. exists loaded, quote. repeat split; auto.
      * left. auto.
    + left. unfold handlePaymentWebhook, try_catch, bind, logger,
        Payment_findOne_byExternalReference, Quote_findById, savePaymentAfterWebhook,
        Payment_save, ret.
      rewrite Href, Htruthy. cbn [payments]. rewrite Hfind, Happroved.
      cbn [String.eqb Ascii.eqb Bool.eqb quotes setPaidAt setPaymentStatus pay_quote].
      rewrite Hquote. reflexivity.
  - left. unfold handlePaymentWebhook, try_catch, bind, logger,
      Payment_findOne_byExternalReference, Quote_findById, savePaymentAfterWebhook,
      Payment_save, ret.
    rewrite Href, Htruthy. cbn [payments]. rewrite Hfind, Happroved.
    destruct (String.eqb (wd_status wd) "rejected"); [reflexivity|].
    destruct (String.eqb (wd_status wd) "cancelled"); reflexivity.
Qed.

(** One operation, seen from a quote. *)
Lemma runOp_step op w id q :
  quotes w !! id = Some q ->
  exists q', quotes (runOp op w) !! id = Some q' /\
             q_expiresAt q' = q_expiresAt q /\
             transitionBy op (q_expiresAt q) (q_status q) (q_status q').
Proof.
  intros Hq. destruct op as [cid user now|now|wd now]; cbn [runOp].
  - destruct (cancelQuote_cases cid user now w)
      as (_ & _ & [[-> _]|(oid & q0 & _ & Hq0 & Hs0 & Hnow & ->)]).
    + exists q. split; [done|]. split; [done|]. by left.
    + destruct (decide (oid = id)) as [->|Hne].
      * rewrite lookup_insert_eq. eexists. split; [reflexivity|].
        rewrite calculateTotals_status, calculateTotals_expiresAt.
        assert (q0 = q) as -> by congruence. split; [done|]. right. cbn. auto.
      * rewrite lookup_insert_ne by done. exists q. split; [done|]. split; [done|]. by left.
  - rewrite expireOldQuotes_quotes, lookup_fmap, Hq. cbn [fmap option_fmap option_map].
    eexists. split; [reflexivity|]. unfold expireOne, expireFilter.
    case_bool_decide as Hs; cbn [andb]; [|split; [done|by left]].
    destruct (Z.leb_spec (q_expiresAt q) now); [|split; [done|by left]].
    split; [done|]. right. done.
  - destruct (webhook_quotes wd now w)
      as [->|(loaded & quote & Happroved & _ & Hquote & Hnow & ->)].
    + exists q. split; [done|]. split; [done|]. by left.
    + destruct (decide (pay_quote loaded = id)) as [Heq|Hne].
      * rewrite Heq in *. rewrite lookup_insert_eq. eexists. split; [reflexivity|].
        rewrite calculateTotals_status, calculateTotals_expiresAt.
        assert (quote = q) as -> by congruence. split; [done|]. right. cbn. auto.
      * rewrite lookup_insert_ne by done. exists q. split; [done|]. split; [done|]. by left.
Qed.

(** No operation adds a quote. *)
Lemma runOp_origin op w id q' :
  quotes (runOp op w) !! id = Some q' -> is_Some (quotes w !! id).
Proof.
  destruct op as [cid user now|now|wd now]; cbn [runOp].
  - destruct (cancelQuote_cases cid user now w)
      as (_ & _ & [[-> _]|(oid & q0 & _ & Hq0 & _ & _ & ->)]); [by eexists|].
    destruct (decide (oid = id)) as [->|Hne]; [by eexists|].
    rewrite lookup_insert_ne by done. by eexists.
  - rewrite expireOldQuotes_quotes, lookup_fmap.
    destruct (quotes w !! id); [by eexists|done].
  - destruct (webhook_quotes wd now w)
      as [->|(loaded & quote & _ & _ & Hquote & _ & ->)]; [by eexists|].
    destruct (decide (pay_quote loaded = id)) as [Heq|Hne]; [rewrite Heq in *; by eexists|].
    rewrite lookup_insert_ne by done. by eexists.
Qed.

Lemma runOp_expiredAreDue op t w :
  expiredAreDue t w -> t <= opTime op -> expiredAreDue (opTime op) (runOp op w).
Proof.
  intros Hdue Ht id q' Hq' Hs'.
  destruct (runOp_origin op w id q' Hq') as [q Hq].
  destruct (runOp_step op w id q Hq) as (q'' & Hq'' & He & Hstep).
  assert (q'' = q') as -> by congruence. rewrite He.
  destruct Hstep as [Hsame|Hstep].
  - rewrite Hsame in Hs'. specialize (Hdue id q Hq Hs'). lia.
  - destruct op as [cid user now|now|wd now]; cbn [opTime] in *.
    + destruct Hstep as (_ & Hc & _). congruence.
    + destruct Hstep as (_ & _ & Hle). done.
    + destruct Hstep as (_ & Hp & _). congruence.
Qed.

Lemma codeTransition_trans s1 s2 s3 :
  codeTransition s1 s2 -> codeTransition s2 s3 -> codeTransition s1 s3.
Proof. unfold codeTransition. destruct s1, s2, s3; intuition congruence. Qed.

Lemma runOps_transitions ops : forall t w id q,
  expiredAreDue t w -> inOrder t ops ->
  quotes w !! id = Some q ->
  exists q', quotes (runOps ops w) !! id = Some q' /\
             codeTransition (q_status q) (q_status q').
Proof.
  induction ops as [|op ops IH]; intros t w id q Hdue Horder Hq.
  - exists q. split; [done|]. by left.
  - destruct Horder as [Ht Horder]. cbn [runOps fold_left].
    destruct (runOp_step op w id q Hq) as (q1 & Hq1 & He & Hstep).
    destruct (IH (opTime op) (runOp op w) id q1
                (runOp_expiredAreDue op t w Hdue Ht) Horder Hq1) as (q' & Hq' & Hrest).
    exists q'. split; [done|]. eapply codeTransition_trans; [|exact Hrest].
    destruct Hstep as [->|Hstep]; [by left|].
    destruct op as [cid user now|now|wd now]; cbn [opTime] in *.
    + destruct Hstep as (-> & _). right. by left.
    + destruct Hstep as (-> & _). right. by left.
    + destruct Hstep as (_ & Hpaid & Hnow). unfold codeTransition.
      destruct (q_status q) eqn:Hs; auto.
      specialize (Hdue id q Hq Hs). lia.
Qed.

(** C5 (as amended).  Seen from any quote, one operation leaves the
    quote in the collection with its expiration and either keeps its
    status or takes it: by Cancel from pending to cancelled, by
    ExpireDue from pending to expired once the expiration has passed,
    by an approved notification to paid, from any status, while the
    expiration lies ahead.  Cancel on a quote that is not pending is
    refused and changes no collection.  An approved notification sets
    the quote of its payment to paid exactly when the quote's
    expiration lies ahead of the delivery, and leaves the quotes as
    they are otherwise.  Over any run of operations handled in the
    order of time, from a state in which the quotes marked expired have
    passed their expiration, a quote's status changes only from pending
    or from cancelled to paid: paid and expired are terminal. *)
Theorem quote_status_transitions :
  (forall (op : QuoteOp) (w : World) (id : string) (q : Quote),
     quotes w !! id = Some q ->
     exists q', quotes (runOp op w) !! id = Some q' /\
                q_expiresAt q' = q_expiresAt q /\
                transitionBy op (q_expiresAt q) (q_status q) (q_status q')) /\
  (forall (cid id : string) (user : option User) (now : Z) (w : World) (q : Quote),
     ObjectId.fromString cid = Some id ->
     quotes w !! id = Some q -> q_status q <> q_pending ->
     refused (cancelQuote cid user now w).1 /\
     products (cancelQuote cid user now w).2 = products w /\
     quotes (cancelQuote cid user now w).2 = quotes w /\
     payments (cancelQuote cid user now w).2 = payments w) /\
  (forall (wd : WebhookData) (now : Z) (w : World) (loaded : Payment) (quote : Quote),
     wd_status wd = "approved" ->
     correlates wd w loaded ->
     quotes w !! pay_quote loaded = Some quote ->
     (now < q_expiresAt quote ->
      exists quote', quotes (handlePaymentWebhook wd now w).2 !! pay_quote loaded = Some quote' /\
                     q_status quote' = q_paid) /\
     (q_expiresAt quote <= now ->
      quotes (handlePaymentWebhook wd now w).2 = quotes w)) /\
  (forall (t : Z) (ops : list QuoteOp) (w : World) (id : string) (q : Quote),
     expiredAreDue t w -> inOrder t ops ->
     quotes w !! id = Some q ->
     exists q', quotes (runOps ops w) !! id = Some q' /\
                codeTransition (q_status q) (q_status q') /\
                (q_status q = q_paid -> q_status q' = q_paid) /\
                (q_status q = q_expired -> q_status q' = q_expired) /\
                (q_status q = q_cancelled -> q_status q' = q_cancelled \/ q_status q' = q_paid)).
Proof.
  split; [exact runOp_step|]. split; [|split].
  - intros cid id user now w q Hcid Hq Hs.
    destruct (cancelQuote_cases cid user now w)
      as (Hps & Hpays & [[Hqs Hr]|(oid & q0 & Hoid & Hq0 & Hs0 & _)]); [done|].
    congruence.
  - intros wd now w loaded quote Happroved Hcor Hquote.
    destruct (webhook_markPaid wd now w loaded quote Happroved Hcor Hquote) as [Hpaid Hkept].
    split; [|done]. intros Hnow. rewrite (Hpaid Hnow), lookup_insert_eq.
    eexists. split; [reflexivity|]. by rewrite calculateTotals_status.
  - intros t ops w id q Hdue Horder Hq.
    destruct (runOps_transitions ops t w id q Hdue Horder Hq) as (q' & Hq' & Hcode).
    exists q'. split; [done|]. split; [done|].
    unfold codeTransition in Hcode. repeat split; intros Hs; rewrite Hs in Hcode;
      intuition congruence.
Qed.

Lemma quote_status_transitions_witness :
  exists q',
    quotes (runOps [OpCancel qx None 1704100000000;
                    OpWebhook approvedNotification 1704100060000]
                   (shopWorld 10 q_pending pay_pending)) !! qx = Some q' /\
    codeTransition (q_status (quoteOf q_pending)) (q_status q') /\
    (q_status (quoteOf q_pending) = q_paid -> q_status q' = q_paid) /\
    (q_status (quoteOf q_pending) = q_expired -> q_status q' = q_expired) /\
    (q_status (quoteOf q_pending) = q_cancelled ->
     q_status q' = q_cancelled \/ q_status q' = q_paid).
Proof.
  apply (proj2 (proj2 (proj2 quote_status_transitions)) 1704000000000
           [OpCancel qx None 1704100000000; OpWebhook approvedNotification 1704100060000]
           (shopWorld 10 q_pending pay_pending) qx (quoteOf q_pending)).
  - intros id q Hq Hs. cbn [shopWorld quotes] in Hq.
    apply lookup_singleton_Some in Hq as [_ <-]. discriminate.
  - simpl. lia.
  - reflexivity.
Defined.

(** C5, as stated, fails: the approved notification of a payment takes
    its quote from cancelled to paid. *)
Lemma paid_only_from_pending_counterexample :
  ~ (forall (op : QuoteOp) (w : World) (id : string) (q q' : Quote),
       quotes w !! id = Some q -> quotes (runOp op w) !! id = Some q' ->
       specTransition (q_status q) (q_status q')).
Proof.
  intros H.
  specialize (H (OpWebhook approvedNotification 1704100000000)
                (shopWorld 10 q_cancelled pay_pending) qx (quoteOf q_cancelled)).
  vm_compute in H. specialize (H _ eq_refl eq_refl). destruct H; discriminate.
Qed.

(** ** One payment per quote *)

Lemma duplicatesKey_quote p ps :
  refersTo (pay_quote p) ps -> duplicatesKey p ps = true.
Proof.
  intros (p0 & Hin & Hq). unfold duplicatesKey. apply existsb_exists.
  exists p0. split; [done|]. rewrite Hq, String.eqb_refl. by rewrite !orb_true_r.
Qed.

Lemma duplicatesKey_false p ps :
  duplicatesKey p ps = false -> pay_quote p ∉ pay_quote <$> ps.
Proof.
  intros Hd Hin. apply list_elem_of_fmap in Hin as (p0 & Hq & Hin).
  assert (duplicatesKey p ps = true); [|congruence].
  apply duplicatesKey_quote. exists p0. split; [by apply list_elem_of_In|done].
Qed.

Lemma createPayment_catch_payments e w :
  exists pc w', createPayment_catch e w = (inr pc, w') /\ payments w' = payments w /\
                exists r, pc = Responded r /\ r_success r = false.
Proof.
  unfold createPayment_catch, bind, logger, ret.
  destruct (includes "MercadoPago" e); do 2 eexists; (split; [reflexivity|]); simpl; eauto.
Qed.

Lemma createPayment_catch_refused e w :
  exists r w', createPayment_catch e w = (inr (Responded r), w') /\
               r_success r = false /\ sameData w w' /\
               r = if includes "MercadoPago" e
                   then errorResponse "Error en el servicio de pagos" 502 "PAYMENT_SERVICE_ERROR"
                   else errorResponse "Error interno del servidor" 500 "INTERNAL_ERROR".
Proof.
  unfold createPayment_catch, bind, logger, ret.
  destruct (includes "MercadoPago" e); do 2 eexists; (split; [reflexivity|]); done.
Qed.

Lemma populatedStockItems_run items populated w :
  populatedStockItems items populated w
  = (match populatedItems items populated with
     | Some stockItems => inr stockItems
     | None => inl TypeError_null_id
     end, w).
Proof.
  revert populated. induction items as [|item items IH]; intros populated; [done|].
  destruct populated as [|product populated]; [done|].
  cbn [populatedStockItems populatedItems]. unfold bind at 1, populatedProductId.
  destruct product; [|done].
  unfold ret at 1. unfold bind at 1. rewrite IH.
  by destruct (populatedItems items populated).
Qed.

Lemma createPayment_step_outcome req pc w :
  exists pc' w', createPayment_step req pc w = (inr pc', w') /\ stepOutcome req w pc pc' w'.
Proof.
  unfold createPayment_step, try_catch.
  assert (Hcatch : forall e w0, sameData w w0 ->
            exists pc' w', createPayment_catch e w0 = (inr pc', w') /\
                           stepOutcome req w pc pc' w').
  { intros e w0 (Hp0 & Hq0 & Hy0). destruct (createPayment_catch_refused e w0)
      as (r & w' & -> & Hr & (Hp & Hq & Hy) & _).
    do 2 eexists. split; [reflexivity|]. apply step_refused; [done|].
    repeat split; congruence. }
  destruct pc as [|quote populated|quote populated|quote|quote payment|quote payment
                  |quote payment|r].
  - unfold bind at 1, logger at 1. unfold bind at 1, castObjectId, castPath.
    destruct (ObjectId.fromString (cp_quoteId req)) as [oid|] eqn:Hoid;
      [|unfold throw; by apply Hcatch].
    unfold ret at 1. unfold bind at 1, Quote_findById at 1. cbn [quotes].
    destruct (quotes w !! oid) as [quote|] eqn:Hquote.
    2:{ unfold ret. do 2 eexists. split; [reflexivity|]. by apply step_refused. }
    unfold bind at 1, Quote_populateProducts at 1. cbn [products].
    case_bool_decide as Hs; cbn [negb]; unfold ret; do 2 eexists; (split; [reflexivity|]).
    + by eapply step_found.
    + by apply step_refused.
  - unfold bind at 1, Payment_findOne_byQuote at 1, bind at 1, castPath.
    destruct (ObjectId.fromString (cp_quoteId req)) as [oid|] eqn:Hoid;
      [|unfold throw; by apply Hcatch].
    unfold ret at 1.
    destruct (find _ (payments w)) eqn:Hfind; unfold ret; do 2 eexists;
      (split; [reflexivity|]).
    + by apply step_refused.
    + by eapply step_free.
  - unfold bind at 1. rewrite populatedStockItems_run.
    destruct (populatedItems (q_items quote) populated) as [stockItems|] eqn:Hitems;
      [|by apply Hcatch].
    unfold bind at 1.
    destruct (validateStock_world stockItems w) as (r & w1 & Hrun & Hp & [Hq Hy] & _).
    rewrite Hrun.
    destruct r as [e|validation]; [by apply Hcatch|].
    unfold ret. destruct (isValid validation) eqn:Hvalid; cbn [negb];
      do 2 eexists; (split; [reflexivity|]).
    + by eapply step_validated.
    + by apply step_refused.
  - destruct (cp_preferenceId req) as [preferenceId|] eqn:Hpref;
      [|unfold throw; by apply Hcatch].
    unfold bind at 1, castPath.
    destruct (ObjectId.fromString (cp_quoteId req)) as [oid|] eqn:Hoid;
      [|unfold throw; by apply Hcatch].
    unfold ret. do 2 eexists. split; [reflexivity|]. by apply step_ordered.
  - unfold bind at 1, Payment_validate.
    destruct (Payment_validationErrors payment) eqn:Hvalid; [|unfold throw; by apply Hcatch].
    unfold ret at 1. unfold bind at 1, Payment_preSave_unique.
    destruct (find _ (payments w)) eqn:Hfind; [by apply Hcatch|].
    unfold ret. do 2 eexists. split; [reflexivity|]. by apply step_checked.
  - unfold bind, Payment_insert, ret.
    destruct (duplicatesKey payment (payments w)) eqn:Hdup; [by apply Hcatch|].
    do 2 eexists. split; [reflexivity|]. by apply step_inserted.
  - unfold bind, Quote_linkPayment, logger, ret.
    destruct (Quote_validate_expiresAt quote (cp_now req)) eqn:Hexp; [|by apply Hcatch].
    do 2 eexists. split; [reflexivity|]. by apply step_linked.
  - unfold ret. do 2 eexists. split; [reflexivity|]. apply step_done.
Qed.

Lemma stepOutcome_payments req w pc pc' w' :
  stepOutcome req w pc pc' w' ->
  payments w' = payments w \/
  exists quote payment,
    pc = AtInsert quote payment /\ duplicatesKey payment (payments w) = false /\
    payments w' = payments w ++ [payment].
Proof.
  destruct 1 as [? ? ? ? (_ & _ & ?)|? ? ? ? ? ? (_ & _ & ?)|? ? ? ? ? ? (_ & _ & ?)
                 |? ? ? ? ? ? ? ? (_ & _ & ?)| | | | |]; eauto 10.
Qed.

(** One step keeps the invariant: the only write to the payments is the
    insert, which the index guards. *)
Lemma createPayment_step_invariant req pc w :
  onePaymentPerQuote (payments w) ->
  exists pc' w', createPayment_step req pc w = (inr pc', w') /\
                 onePaymentPerQuote (payments w').
Proof.
  intros Hinv. destruct (createPayment_step_outcome req pc w) as (pc' & w' & -> & Hout).
  do 2 eexists. split; [reflexivity|].
  destruct (stepOutcome_payments _ _ _ _ _ Hout) as [->|(quote & payment & _ & Hdup & ->)];
    [done|].
  unfold onePaymentPerQuote. rewrite fmap_app. apply NoDup_app. split; [done|].
  split; [|apply NoDup_singleton].
  intros x Hx [<-|[]]%list_elem_of_In. by apply duplicatesKey_false in Hdup.
Qed.

Lemma advance_invariant i pool w :
  onePaymentPerQuote (payments w) -> onePaymentPerQuote (payments (advance i pool w).2).
Proof.
  intros Hinv. unfold advance. destruct (pool !! i) as [[req pc]|]; [|done].
  destruct (createPayment_step_invariant req pc w Hinv) as (pc' & w' & -> & Hinv'). done.
Qed.

Lemma runSchedule_invariant schedule : forall pool w,
  onePaymentPerQuote (payments w) ->
  onePaymentPerQuote (payments (runSchedule schedule pool w).2).
Proof.
  induction schedule as [|i schedule IH]; intros pool w Hinv; [done|].
  cbn [runSchedule]. pose proof (advance_invariant i pool w Hinv) as Hinv'.
  destruct (advance i pool w) as [pool' w']. by apply IH.
Qed.

(** The requests of the pool stay the same, and each request that has
    inserted has its payment in the collection. *)
Lemma advance_poolInvariant i pool w :
  poolInvariant pool w ->
  poolInvariant (advance i pool w).1 (advance i pool w).2 /\
  fst <$> (advance i pool w).1 = fst <$> pool.
Proof.
  intros Hinv. unfold advance. destruct (pool !! i) as [[req pc]|] eqn:Hi; [|done].
  destruct (createPayment_step_outcome req pc w) as (pc' & w' & -> & Hout). cbn [fst snd].
  unfold Pool in *. split.
  2:{ apply list_eq. intros k. rewrite !list_lookup_fmap.
      destruct (decide (k = i)) as [->|Hne].
      - rewrite list_lookup_insert_eq by (by eapply lookup_lt_Some). by rewrite Hi.
      - by rewrite list_lookup_insert_ne. }
  assert (Hgrow : forall p, In p (payments w) -> In p (payments w')).
  { intros p Hp.
    destruct (stepOutcome_payments _ _ _ _ _ Hout) as [->|(? & ? & _ & _ & ->)]; [done|].
    apply in_or_app. by left. }
  destruct (Hinv i req pc Hi) as [Hheld Hins].
  intros j reqj pcj Hj. unfold Pool in *. destruct (decide (j = i)) as [->|Hne].
  - rewrite list_lookup_insert_eq in Hj by (by eapply lookup_lt_Some).
    injection Hj as <- <-.
    destruct Hout as [pc r w' Hr Hsame|quoteId quote w' Hcast Hquote Hs Hsame
                      |quoteId quote populated w' Hcast Hfind Hsame
                      |quote populated stockItems validation w' Hitems Hrun Hvalid Hsame
                      |quoteId quote preferenceId Hcast Hpref
                      |quote payment Hvalid Hfind
                      |quote payment Hdup
                      |quote payment w' Hexp Hps Hpays Hqs
                      |r]; cbn [heldPayment inserted payments] in *.
    + split; [done|]. congruence.
    + done.
    + done.
    + done.
    + split; [|done]. by intros p [= <-].
    + split; [|done]. intros p [= <-]. by apply Hheld.
    + split; [intros p [= <-]; by apply Hheld|].
      intros _. exists payment. split; [|by apply Hheld].
      apply in_or_app. right. by left.
    + split; [done|]. intros _. destruct Hins as (p & Hp & Hreq); [done|].
      exists p. split; [by rewrite Hpays|done].
    + split; [done|]. intros Hr. destruct (Hins Hr) as (p & Hp & Hreq). eauto.
  - rewrite list_lookup_insert_ne in Hj by done.
    destruct (Hinv j reqj pcj Hj) as [Hheldj Hinsj]. split; [done|].
    intros Hr. destruct (Hinsj Hr) as (p & Hp & Hreq). eauto.
Qed.

Lemma runSchedule_poolInvariant schedule : forall pool w,
  poolInvariant pool w ->
  poolInvariant (runSchedule schedule pool w).1 (runSchedule schedule pool w).2 /\
  fst <$> (runSchedule schedule pool w).1 = fst <$> pool.
Proof.
  induction schedule as [|i schedule IH]; intros pool w Hinv; [done|].
  cbn [runSchedule]. destruct (advance_poolInvariant i pool w Hinv) as [Hinv' Hreqs].
  destruct (advance i pool w) as [pool' w']. cbn [fst snd] in *.
  destruct (IH pool' w' Hinv') as [Hinv'' Hreqs'']. split; [done|]. congruence.
Qed.

Lemma freshPool_invariant pool w : freshPool pool -> poolInvariant pool w.
Proof.
  intros [Hfresh _] i req pc Hi.
  rewrite Forall_forall in Hfresh.
  assert (pc = AtFindQuote) as ->.
  { apply (Hfresh (req, pc)). by eapply list_elem_of_lookup_2. }
  done.
Qed.

Lemma NoDup_fmap_eq {A B} (f : A -> B) (l : list A) x y :
  NoDup (f <$> l) -> In x l -> In y l -> f x = f y -> x = y.
Proof.
  induction l as [|a l IH]; [done|]. rewrite fmap_cons.
  intros [Hnotin Hnd]%NoDup_cons [->|Hx] [->|Hy] Heq; [done| | |by apply IH].
  - destruct Hnotin. rewrite Heq. apply list_elem_of_fmap. exists y.
    split; [done|by apply list_elem_of_In].
  - destruct Hnotin. rewrite <- Heq. apply list_elem_of_fmap. exists x.
    split; [done|by apply list_elem_of_In].
Qed.

Lemma find_refersTo quoteId ps :
  refersTo quoteId ps ->
  is_Some (find (fun p => String.eqb (pay_quote p) quoteId) ps).
Proof.
  intros (p & Hin & Hq).
  destruct (find _ ps) eqn:Hfind; [eauto|].
  eapply find_none in Hfind; [|exact Hin]. simpl in Hfind.
  rewrite Hq, String.eqb_refl in Hfind. discriminate.
Qed.

Lemma createPayment_run_Responded fuel req r w :
  createPayment_run fuel req (Responded r) w = (inr (Responded r), w).
Proof. induction fuel as [|fuel IH]; [done|]. cbn [createPayment_run]. unfold bind. exact IH. Qed.

Lemma createPayment_run_S fuel req pc :
  createPayment_run (S fuel) req pc
  = (pc' <- createPayment_step req pc ;; createPayment_run fuel req pc').
Proof. reflexivity. Qed.

(** A request for a quote that already has a payment, whatever the
    spelling of the id it names the quote by. *)
Lemma createPayment_again req quoteId w :
  ObjectId.fromString (cp_quoteId req) = Some quoteId ->
  refersTo quoteId (payments w) ->
  exists r w', createPayment req w = (inr (Responded r), w') /\
    products w' = products w /\ quotes w' = quotes w /\ payments w' = payments w /\
    r = match quotes w !! quoteId with
        | None => notFoundResponse "Presupuesto no encontrado"
        | Some q =>
            if bool_decide (q_status q = q_pending)
            then badRequestResponse "Ya existe un pago para este presupuesto"
            else badRequestResponse
                   ("El presupuesto no está en estado pending. Estado actual: "
                      +:+ QuoteStatus_text (q_status q))
        end.
Proof.
  intros Hcast Href. apply find_refersTo in Href as [p0 Hfind].
  unfold createPayment. rewrite createPayment_run_S.
  unfold bind at 1, createPayment_step at 1, try_catch, bind at 1, logger at 1,
    bind at 1, castObjectId, castPath.
  rewrite Hcast. unfold ret at 1. unfold bind at 1, Quote_findById at 1.
  cbn [quotes].
  destruct (quotes w !! quoteId) as [q|] eqn:Hq.
  2:{ unfold ret at 1. rewrite createPayment_run_Responded.
      do 2 eexists. split; [reflexivity|]. done. }
  unfold bind at 1, Quote_populateProducts at 1.
  case_bool_decide as Hs; cbn [negb].
  2:{ unfold ret at 1. rewrite createPayment_run_Responded.
      do 2 eexists. split; [reflexivity|]. done. }
  unfold ret at 1. rewrite createPayment_run_S.
  unfold bind at 1, createPayment_step at 1, try_catch, bind at 1,
    Payment_findOne_byQuote at 1, bind at 1, castPath.
  rewrite Hcast. unfold ret at 1.
  cbn [payments]. rewrite Hfind. unfold ret at 1. rewrite createPayment_run_Responded.
  do 2 eexists. split; [reflexivity|]. done.
Qed.

(** C6 (as amended).  From payments that refer to distinct quotes, any
    interleaving of the steps of any creation requests leaves payments
    that refer to distinct quotes.  This is the work of the index: a
    request that has passed every check of the application and comes to
    insert when a payment for the quote has been stored meanwhile is
    refused and stores nothing.  So of the new requests that name the
    same quote at most one is answered with success, in every
    interleaving.  A request made when a payment refers to the quote
    changes no collection and is refused: with "Ya existe un pago para
    este presupuesto" when the quote is pending, with the message that
    the quote is not pending otherwise. *)
Theorem one_payment_per_quote :
  (forall (schedule : list nat) (pool : Pool) (w : World),
     onePaymentPerQuote (payments w) ->
     onePaymentPerQuote (payments (runSchedule schedule pool w).2)) /\
  (forall (req : CreatePaymentRequest) (quote : Quote) (payment : Payment) (w : World),
     refersTo (pay_quote payment) (payments w) ->
     exists r w', createPayment_step req (AtInsert quote payment) w = (inr (Responded r), w') /\
                  r_success r = false /\ payments w' = payments w) /\
  (forall (schedule : list nat) (pool : Pool) (w : World) (i j : nat)
          (reqi reqj : CreatePaymentRequest) (pci pcj : CreatePaymentPc),
     onePaymentPerQuote (payments w) -> freshPool pool ->
     (runSchedule schedule pool w).1 !! i = Some (reqi, pci) ->
     (runSchedule schedule pool w).1 !! j = Some (reqj, pcj) ->
     ObjectId.fromString (cp_quoteId reqi) = ObjectId.fromString (cp_quoteId reqj) ->
     succeeded pci -> succeeded pcj -> i = j) /\
  (forall (req : CreatePaymentRequest) (quoteId : string) (w : World),
     ObjectId.fromString (cp_quoteId req) = Some quoteId ->
     refersTo quoteId (payments w) ->
     exists r w', createPayment req w = (inr (Responded r), w') /\
       products w' = products w /\ quotes w' = quotes w /\ payments w' = payments w /\
       r_success r = false /\
       (forall q, quotes w !! quoteId = Some q ->
          r = if bool_decide (q_status q = q_pending)
              then badRequestResponse "Ya existe un pago para este presupuesto"
              else badRequestResponse
                     ("El presupuesto no está en estado pending. Estado actual: "
                        +:+ QuoteStatus_text (q_status q)))).
Proof.
  split; [intros; by apply runSchedule_invariant|]. split; [|split].
  - intros req quote payment w Href.
    unfold createPayment_step, try_catch, bind, Payment_insert.
    rewrite (duplicatesKey_quote _ _ Href).
    destruct (createPayment_catch_payments "E11000 duplicate key error" w)
      as (pc' & w' & -> & Hp & r & -> & Hr).
    by exists r, w'.
  - intros schedule pool w i j reqi reqj pci pcj Hone Hfresh Hi Hj Hquote Hsi Hsj.
    pose proof (runSchedule_invariant schedule pool w Hone) as Hone'.
    destruct (runSchedule_poolInvariant schedule pool w (freshPool_invariant pool w Hfresh))
      as [Hinv Hreqs].
    destruct (runSchedule schedule pool w) as [pool' w']. cbn [fst snd] in *.
    destruct (Hinv i reqi pci Hi) as [_ Hpi]. destruct (Hinv j reqj pcj Hj) as [_ Hpj].
    destruct Hpi as (p1 & Hin1 & Hid1 & Hq1); [by destruct pci|].
    destruct Hpj as (p2 & Hin2 & Hid2 & Hq2); [by destruct pcj|].
    assert (p1 = p2) as ->.
    { eapply (NoDup_fmap_eq pay_quote); [exact Hone'|done|done|]. congruence. }
    destruct Hfresh as [_ Hids]. rewrite <- Hreqs in Hids. unfold Pool in *.
    eapply NoDup_lookup; [exact Hids| |].
    + rewrite !list_lookup_fmap, Hi. reflexivity.
    + rewrite !list_lookup_fmap, Hj. cbn. congruence.
  - intros req quoteId w Hcast Href.
    destruct (createPayment_again req quoteId w Hcast Href)
      as (r & w' & Hrun & Hps & Hqs & Hpays & Hr).
    exists r, w'. repeat split; try done.
    + rewrite Hr. destruct (quotes w !! quoteId); [case_bool_decide|]; done.
    + intros q Hq. by rewrite Hr, Hq.
Qed.

Lemma one_payment_per_quote_witness :
  onePaymentPerQuote (payments (runSchedule raceSchedule racePool quoteWorld).2) /\
  exists r w',
    createPayment requestB (shopWorld 10 q_pending pay_pending) = (inr (Responded r), w') /\
    products w' = products (shopWorld 10 q_pending pay_pending) /\
    quotes w' = quotes (shopWorld 10 q_pending pay_pending) /\
    payments w' = payments (shopWorld 10 q_pending pay_pending) /\
    r_success r = false /\
    (forall q, quotes (shopWorld 10 q_pending pay_pending) !! qx = Some q ->
       r = if bool_decide (q_status q = q_pending)
           then badRequestResponse "Ya existe un pago para este presupuesto"
           else badRequestResponse
                  ("El presupuesto no está en estado pending. Estado actual: "
                     +:+ QuoteStatus_text (q_status q))).
Proof.
  split.
  - apply (proj1 one_payment_per_quote raceSchedule racePool quoteWorld).
    simpl. constructor.
  - apply (proj2 (proj2 (proj2 one_payment_per_quote)) requestB qx
             (shopWorld 10 q_pending pay_pending)).
    + reflexivity.
    + exists (paymentOf pay_pending). split; [by left|reflexivity].
Defined.

(** In that race the payment of the first request is the only one, and
    the second request is answered with the internal error of the
    [catch]. *)
Lemma race_outcome :
  pay_id <$> payments (runSchedule raceSchedule racePool quoteWorld).2
    = ["65b000000000000000000001"] /\
  snd <$> (runSchedule raceSchedule racePool quoteWorld).1
    = [Responded (createdResponse "Orden de pago creada exitosamente");
       Responded (errorResponse "Error interno del servidor" 500 "INTERNAL_ERROR")].
Proof. vm_compute. split; reflexivity. Qed.

(** C6, as stated, fails: a request for a quote that has a payment but
    is no longer pending is refused for the status of the quote, not
    for the payment that exists. *)
Lemma second_payment_of_paid_quote_counterexample :
  ~ (forall (req : CreatePaymentRequest) (quoteId : string) (w : World),
       ObjectId.fromString (cp_quoteId req) = Some quoteId ->
       refersTo quoteId (payments w) ->
       (createPayment req w).1
       = inr (Responded (badRequestResponse "Ya existe un pago para este presupuesto"))).
Proof.
  intros H.
  specialize (H requestB qx (shopWorld 10 q_paid pay_approved) eq_refl).
  assert (Href : refersTo qx (payments (shopWorld 10 q_paid pay_approved))).
  { exists (paymentOf pay_approved). split; [by left|done]. }
  specialize (H Href). vm_compute in H. discriminate.
Qed.

(** ** The totals of a quote *)

Lemma Math_round_halfUp (x y : Q) :
  (x == y)%Q -> roundsHalfUpTo2 y (Math_round (x * 100) / 100)%Q.
Proof.
  intros Hxy. unfold Math_round. exists (Qfloor (x * 100 + (1 # 2))). split; [reflexivity|].
  pose proof (Qfloor_le (x * 100 + (1 # 2))) as Hle.
  pose proof (Qlt_floor (x * 100 + (1 # 2))) as Hlt.
  rewrite inject_Z_plus in Hlt. change (inject_Z 1) with 1%Q in Hlt.
  set (k := inject_Z (Qfloor (x * 100 + (1 # 2)))) in *.
  split.
  - apply Qlt_shift_div_l; [reflexivity|]. lra.
  - apply Qle_shift_div_r; [reflexivity|]. lra.
Qed.

Lemma roundsHalfUpTo2_unique x r r' :
  roundsHalfUpTo2 x r -> roundsHalfUpTo2 x r' -> (r == r')%Q.
Proof.
  intros (k & Hk & Hlo & Hhi) (k' & Hk' & Hlo' & Hhi').
  assert (Hd : (-1 < inject_Z k - inject_Z k' < 1)%Q).
  { rewrite Hk in Hlo, Hhi. rewrite Hk' in Hlo', Hhi'.
    assert (inject_Z k / 100 == inject_Z k * (1 # 100))%Q as E by (unfold Qdiv; reflexivity).
    assert (inject_Z k' / 100 == inject_Z k' * (1 # 100))%Q as E' by (unfold Qdiv; reflexivity).
    rewrite E in Hlo, Hhi. rewrite E' in Hlo', Hhi'. split; lra. }
  assert (k = k') as ->.
  { destruct Hd as [Hd1 Hd2]. unfold Qminus in Hd1, Hd2.
    rewrite <- inject_Z_opp, <- inject_Z_plus in Hd1, Hd2.
    change (-1)%Q with (inject_Z (-1)) in Hd1. change 1%Q with (inject_Z 1) in Hd2.
    rewrite <- Zlt_Qlt in Hd1, Hd2. lia. }
  by rewrite Hk, Hk'.
Qed.

Lemma reduceItems_acc items : forall (sum : Q) (done_ : list QuoteItem),
  let r := fold_left
             (fun (acc : Q * list QuoteItem) item =>
                let item' := setItemSubtotal item
                               (qi_snapshotPrice item * inject_Z (qi_quantity item))%Q in
                ((acc.1 + qi_subtotal item')%Q, acc.2 ++ [item']))
             items (sum, done_) in
  (r.1 == sum + linesTotal items)%Q /\
  r.2 = done_ ++ map (fun item => setItemSubtotal item
                         (qi_snapshotPrice item * inject_Z (qi_quantity item))%Q) items.
Proof.
  induction items as [|item items IH]; intros sum done_; cbv zeta;
    cbn [fold_left map].
  - split; [cbn [fst]; change (linesTotal []) with 0%Q; ring|cbn [snd]; by rewrite app_nil_r].
  - destruct (IH (sum + qi_snapshotPrice item * inject_Z (qi_quantity item))%Q
                 (done_ ++ [setItemSubtotal item
                              (qi_snapshotPrice item * inject_Z (qi_quantity item))%Q]))
      as [IH1 IH2].
    cbv zeta in IH1, IH2. cbn [fst snd qi_subtotal setItemSubtotal] in *. split.
    + rewrite IH1.
      change (linesTotal (item :: items))
        with (qi_snapshotPrice item * inject_Z (qi_quantity item) + linesTotal items)%Q.
      ring.
    + rewrite IH2, <- app_assoc. reflexivity.
Qed.

Lemma reduceItems_spec items :
  ((reduceItems items).1 == linesTotal items)%Q /\
  (reduceItems items).2
  = map (fun item => setItemSubtotal item
                       (qi_snapshotPrice item * inject_Z (qi_quantity item))%Q) items.
Proof.
  destruct (reduceItems_acc items 0%Q []) as [H1 H2]. split.
  - unfold reduceItems. rewrite H1. ring.
  - exact H2.
Qed.

(** C7 (as amended): in exact arithmetic the subtotal that
    [calculateTotals] stores is the sum of price times quantity over the
    lines, and the total is that sum times (1 - discount/100) times
    (1 + tax/100), each rounded half up to two decimal places, once, at
    the end: the subtotals of the lines are stored unrounded.  One line
    of price 100 and quantity 2 with discount 10 and tax 21 gives 200
    and 217.80, in exact arithmetic and on binary64 numbers alike.  On
    binary64 numbers a value that lies on a half-cent tie can come out a
    cent lower: one line of price 1.50 and quantity 1 with discount 15
    gives the total 1.27. *)
#[warnings="-inexact-float"] Theorem totals_follow_the_formula (this : Quote) :
  roundsHalfUpTo2 (linesTotal (q_items this)) (q_subtotal (calculateTotals this)) /\
  roundsHalfUpTo2 (specTotal (q_items this) (q_discount this) (q_tax this))
                  (q_total (calculateTotals this)) /\
  qi_subtotal <$> q_items (calculateTotals this)
    = (fun item => (qi_snapshotPrice item * inject_Z (qi_quantity item))%Q) <$> q_items this /\
  (q_subtotal (calculateTotals exampleQuote) == 200)%Q /\
  (q_total (calculateTotals exampleQuote) == 21780 # 100)%Q /\
  Binary64.calculateTotals [(100, 2)%float] 10 21 = (200, 217.8)%float /\
  Binary64.calculateTotals [(1.5, 1)%float] 15 0 = (1.5, 1.27)%float.
Proof.
  destruct (reduceItems_spec (q_items this)) as [Hsum Hitems].
  unfold calculateTotals. destruct (reduceItems (q_items this)) as [subtotal items].
  cbn [fst snd q_subtotal q_total q_items] in *.
  split; [by apply Math_round_halfUp|]. split.
  { apply Math_round_halfUp. unfold specTotal. rewrite <- Hsum. field. }
  split.
  { rewrite Hitems. rewrite <- list_fmap_compose. reflexivity. }
  split; [reflexivity|]. split; [reflexivity|].
  split; vm_compute; reflexivity.
Qed.

(** C7, as stated, fails on the numbers the code computes with: for one
    line of price 1.50 and quantity 1 with discount 15 and tax 0 the
    formula gives 1.275, which rounds half up to 1.28 (and exact
    arithmetic agrees), but the binary64 evaluation of [calculateTotals]
    gives 1.27: the difference 1.5 - 0.225 is the double just below
    1.275, and a hundred times it rounds to 127. *)
#[warnings="-inexact-float"] Lemma totals_binary64_counterexample :
  (specTotal (q_items discountedQuote) (q_discount discountedQuote) (q_tax discountedQuote)
     == 1275 # 1000)%Q /\
  roundsHalfUpTo2
    (specTotal (q_items discountedQuote) (q_discount discountedQuote) (q_tax discountedQuote))
    (128 # 100) /\
  (q_total (calculateTotals discountedQuote) == 128 # 100)%Q /\
  (Binary64.calculateTotals [(1.5, 1)%float] 15 0).2 = 1.27%float /\
  PrimFloat.ltb (Binary64.calculateTotals [(1.5, 1)%float] 15 0).2 1.28 = true.
Proof.
  split; [reflexivity|]. split.
  { exists 128%Z. split; [reflexivity|]. split; vm_compute; [reflexivity|discriminate]. }
  split; [reflexivity|]. split; vm_compute; reflexivity.
Qed.

(** ** Expiry *)

Lemma expireOne_idempotent now q : expireOne now (expireOne now q) = expireOne now q.
Proof.
  unfold expireOne. destruct (expireFilter now q) eqn:E; [|by rewrite E].
  unfold expireFilter. cbn [setQuoteStatus q_status]. reflexivity.
Qed.

Lemma expireFilter_after now q : expireFilter now (expireOne now q) = false.
Proof.
  unfold expireOne. destruct (expireFilter now q) eqn:E; [|done].
  reflexivity.
Qed.

(** C8: ExpireDue at [now] turns a quote to expired exactly when it is
    pending and its expiration is at or before [now], and leaves every
    other quote as it is; a second run at the same [now] changes no
    quote and matches none; products and payments are not touched. *)
Theorem expire_due_only_pending_and_idempotent (now : Z) (w : World) (id : string) :
  let w1 := (expireOldQuotes now w).2 in
  match quotes w !! id with
  | Some q =>
      quotes w1 !! id
      = Some (if decide (q_status q = q_pending /\ q_expiresAt q <= now)
              then setQuoteStatus q q_expired
              else q)
  | None => quotes w1 !! id = None
  end /\
  quotes (expireOldQuotes now w1).2 = quotes w1 /\
  (Quote_expireOldQuotes now w1).1 = inr 0%nat /\
  products w1 = products w /\ payments w1 = payments w.
Proof.
  cbv zeta. rewrite !expireOldQuotes_quotes. split; [|split; [|split]].
  - rewrite lookup_fmap. destruct (quotes w !! id) as [q|]; [|done].
    cbn [fmap option_fmap option_map]. f_equal. unfold expireOne, expireFilter.
    case_bool_decide as Hs; cbn [andb].
    + destruct (Z.leb_spec (q_expiresAt q) now).
      * rewrite decide_True; done.
      * rewrite decide_False; [done|]. intros [_ ?]. lia.
    + rewrite decide_False; [done|]. by intros [? _].
  - rewrite <- map_fmap_compose. apply map_fmap_ext. intros k q _. apply expireOne_idempotent.
  - unfold Quote_expireOldQuotes. cbn [fst]. f_equal.
    apply map_size_empty_iff, map_empty. intros k.
    apply map_lookup_filter_None. right. intros q Hq. cbn [snd].
    change (quotes (expireOldQuotes now w).2) with (expireOne now <$> quotes w) in Hq.
    rewrite lookup_fmap in Hq. destruct (quotes w !! k) as [q0|]; [|done].
    injection Hq as <-. by rewrite expireFilter_after.
  - done.
Qed.

(** ** The validation of a quote-creation request *)

Lemma validationResult_In lib chains body c msg :
  In c chains -> In msg (runChain lib body c) -> In msg (validationResult lib chains body).
Proof.
  intros Hc Hmsg. unfold validationResult. apply in_flat_map. eauto.
Qed.

Lemma runChain_notExists lib fields k c message :
  In [Key k] (c_fields c) ->
  c_steps c = [notExists message] ->
  is_Some (getField k fields) ->
  In message (runChain lib (JObj fields) c).
Proof.
  intros Hpath Hsteps [v Hv]. unfold runChain. apply in_flat_map.
  exists [Key k]. split; [done|]. cbn [select]. rewrite Hv. cbn [flat_map app].
  unfold runInstance. rewrite Hsteps. cbn. by left.
Qed.

Lemma select_avoids t v fields path :
  pathAvoids t path = true ->
  select path (Some (JObj ((t, v) :: fields))) = select path (Some (JObj fields)).
Proof.
  destruct path as [|[k|] rest]; cbn [pathAvoids]; try discriminate.
  intros Hk. cbn [select getField]. destruct (getField k fields); [done|].
  apply negb_true_iff in Hk. rewrite String.eqb_sym in Hk. by rewrite Hk.
Qed.

Lemma validationResult_avoids lib t v fields chains :
  chainsAvoid t chains = true ->
  validationResult lib chains (JObj ((t, v) :: fields))
  = validationResult lib chains (JObj fields).
Proof.
  unfold chainsAvoid, validationResult. intros Hall.
  induction chains as [|c chains IH]; [done|].
  cbn [forallb] in Hall. apply andb_true_iff in Hall as [Hc Hall].
  cbn [flat_map]. rewrite (IH Hall). f_equal.
  unfold runChain. clear IH Hall. induction (c_fields c) as [|path paths IHp]; [done|].
  cbn [forallb] in Hc. apply andb_true_iff in Hc as [Hpath Hc].
  cbn [flat_map]. rewrite (IHp Hc), (select_avoids _ _ _ _ Hpath). reflexivity.
Qed.

(** C9 (as amended): a request that carries [quoteNumber], [_id],
    [createdAt], [updatedAt] or [expiresAt] is refused with the 400
    validation error; the members [subtotal] and [total] of the request
    are not looked at: with or without them the validation finds the
    same errors. *)
Theorem generated_fields_are_refused
    (lib : ValidatorJs) (body : Json) (f : string) :
  In f refusedFields ->
  hasField f body ->
  handleValidationErrors lib createQuoteValidation body = Some validationErrorResponse /\
  (forall t v fields, In t ["subtotal"; "total"] ->
     validationResult lib createQuoteValidation (JObj ((t, v) :: fields))
     = validationResult lib createQuoteValidation (JObj fields)).
Proof.
  intros Hf Hbody. split.
  - destruct body as [| | | | |fields]; try done. cbn [hasField] in Hbody.
    assert (Hin : In "Este campo se genera automáticamente, no debe enviarse"
                     (validationResult lib createQuoteValidation (JObj fields))).
    { apply (validationResult_In lib createQuoteValidation (JObj fields) generatedFieldsChain).
      - do 13 right. left. reflexivity.
      - apply (runChain_notExists lib fields f); [|reflexivity|done].
        cbn [c_fields generatedFieldsChain]. unfold refusedFields in Hf. cbn [In] in *.
        destruct Hf as [<-|[<-|[<-|[<-|[<-|[]]]]]]; auto 10. }
    unfold handleValidationErrors.
    destruct (validationResult lib createQuoteValidation (JObj fields)); [destruct Hin|done].
  - intros t v fields Ht. apply validationResult_avoids.
    cbn [In] in Ht. destruct Ht as [<-|[<-|[]]]; reflexivity.
Qed.

Lemma generated_fields_are_refused_witness :
  handleValidationErrors noTextValidators createQuoteValidation requestWithQuoteNumber
    = Some validationErrorResponse /\
  (forall t v fields, In t ["subtotal"; "total"] ->
     validationResult noTextValidators createQuoteValidation (JObj ((t, v) :: fields))
     = validationResult noTextValidators createQuoteValidation (JObj fields)).
Proof.
  apply (generated_fields_are_refused noTextValidators requestWithQuoteNumber "quoteNumber").
  - simpl. auto.
  - vm_compute. eauto.
Defined.

(** C9, as stated, fails: a request that carries [subtotal] and [total]
    passes the validation, whatever validator.js answers on texts. *)
Lemma totals_in_request_counterexample :
  In "total" specGeneratedFields /\ In "subtotal" specGeneratedFields /\
  hasField "total" requestWithTotals /\ hasField "subtotal" requestWithTotals /\
  (forall lib, handleValidationErrors lib createQuoteValidation requestWithTotals = None).
Proof.
  split; [simpl; auto|]. split; [simpl; auto|].
  split; [vm_compute; eauto|]. split; [vm_compute; eauto|].
  intros lib. vm_compute. reflexivity.
Qed.

(** * Further properties of the code *)

(** ** The stock service, line by line *)

Lemma lowerHexDigit_hex c :
  ObjectId.isHexDigit c = true ->
  ObjectId.isHexDigit (ObjectId.lowerHexDigit c) = true /\
  ObjectId.lowerHexDigit (ObjectId.lowerHexDigit c) = ObjectId.lowerHexDigit c.
Proof.
  destruct c as [[] [] [] [] [] [] [] []]; vm_compute; intuition congruence.
Qed.

Lemma mapChars_length f s : String.length (ObjectId.mapChars f s) = String.length s.
Proof. induction s; simpl; congruence. Qed.

Lemma mapChars_lower_hex s :
  ObjectId.forallChars ObjectId.isHexDigit s = true ->
  ObjectId.forallChars ObjectId.isHexDigit (ObjectId.mapChars ObjectId.lowerHexDigit s) = true /\
  ObjectId.mapChars ObjectId.lowerHexDigit (ObjectId.mapChars ObjectId.lowerHexDigit s)
  = ObjectId.mapChars ObjectId.lowerHexDigit s.
Proof.
  induction s as [|c s IH]; [done|]. cbn [ObjectId.forallChars ObjectId.mapChars].
  intros [Hc Hs]%andb_true_iff. destruct (IH Hs) as [IH1 IH2].
  destruct (lowerHexDigit_hex c Hc) as [H1 H2]. rewrite H1, IH1, H2, IH2. done.
Qed.

(** Casting the text of an id gives the same id. *)
Lemma fromString_canonical s oid :
  ObjectId.fromString s = Some oid -> canonicalId oid.
Proof.
  unfold canonicalId, ObjectId.fromString.
  destruct (_ && _) eqn:E; [|done]. intros [= <-].
  apply andb_true_iff in E as [El Eh]. destruct (mapChars_lower_hex s Eh) as [H1 H2].
  rewrite mapChars_length, El, H1, H2. done.
Qed.

Lemma mapM_ObjectId_run items w :
  mapM (fun item => ObjectId_new (productId item)) items w
  = (match objectIds items with
     | Some ids => inr ids
     | None => inl ObjectId.BSONError
     end, w).
Proof.
  revert w. induction items as [|it items IH]; intros w; [done|].
  cbn [mapM objectIds]. unfold bind at 1, ObjectId_new at 1.
  destruct (ObjectId.fromString (productId it)) as [oid|]; [|done].
  unfold ret at 1, bind at 1. rewrite IH. by destruct (objectIds items).
Qed.

Lemma objectIds_Some items :
  is_Some (objectIds items) <-> Forall validId items.
Proof.
  unfold validId. induction items as [|it items IH]; cbn [objectIds].
  - split; [constructor|by eexists].
  - rewrite Forall_cons, <- IH.
    destruct (ObjectId.fromString (productId it)), (objectIds items);
      split; try (intros [? ?]); try (intros [[? ?] [? ?]]); (done || by eexists).
Qed.

Lemma objectIds_canonical items ids k :
  objectIds items = Some ids -> k ∈ ids -> canonicalId k.
Proof.
  revert ids. induction items as [|it items IH]; cbn [objectIds]; intros ids.
  - intros [= <-] Hin. by apply elem_of_nil in Hin.
  - destruct (ObjectId.fromString (productId it)) as [oid|] eqn:E; [|done].
    destruct (objectIds items) as [ids'|]; [|done]. intros [= <-].
    intros [->|Hin]%elem_of_cons; [by eapply fromString_canonical|by eapply IH].
Qed.

Lemma objectIds_elem items ids item :
  objectIds items = Some ids -> In item items -> canonicalId (productId item) ->
  productId item ∈ ids.
Proof.
  revert ids. induction items as [|it items IH]; cbn [objectIds]; intros ids; [done|].
  destruct (ObjectId.fromString (productId it)) as [oid|] eqn:E; [|done].
  destruct (objectIds items) as [ids'|]; [|done]. intros [= <-] [->|Hin] Hc.
  - unfold canonicalId in Hc. rewrite Hc in E. injection E as <-. apply elem_of_cons. by left.
  - apply elem_of_cons. right. by apply IH.
Qed.

Lemma activeAmong_lookup ids ps k p :
  activeAmong ids ps !! k = Some p <-> ps !! k = Some p /\ k ∈ ids /\ p_isActive p = true.
Proof. unfold activeAmong. rewrite map_lookup_filter_Some. simpl. tauto. Qed.

Lemma validateItems_ok pm items :
  (forall item, In item items ->
     exists p, pm !! productId item = Some p /\ Product_validateStock p (quantity item) = true) ->
  validateItems pm items = [].
Proof.
  induction items as [|it items IH]; [done|]. intros H. cbn [validateItems].
  destruct (H it) as (p & -> & ->); [by left|]. cbn [negb]. apply IH.
  intros item Hin. apply H. by right.
Qed.

Lemma validateStock_run items w :
  exists w', sameData w w' /\
    validateStock items w
    = (match objectIds items with
       | Some ids =>
           inr (mkStockValidationResult
                  (Nat.eqb (length (validateItems (activeAmong ids (products w)) items)) 0)
                  (validateItems (activeAmong ids (products w)) items))
       | None => inl "Error validando disponibilidad de stock"
       end, w') /\
    (objectIds items = None -> "Error validando stock:" ∈ errorLog w').
Proof.
  unfold validateStock, try_catch, bind at 1, logger at 1. unfold bind at 1.
  rewrite mapM_ObjectId_run. destruct (objectIds items) as [ids|]; munfold; simpl.
  - eexists. split; [|split; [reflexivity|done]]. done.
  - eexists. split; [|split; [reflexivity|]]; [done|]. intros _.
    unfold errorLog. simpl. rewrite filter_app, fmap_app. apply elem_of_app. right.
    rewrite filter_cons_True by done. simpl. apply elem_of_cons. by left.
Qed.

Lemma Number_round_safe z : - 2 ^ 53 <= z <= 2 ^ 53 -> Number_round z = z.
Proof.
  intros Hz. unfold Number_round.
  destruct (Z.leb_spec (Z.abs z) (2 ^ 53)) as [_|Habs]; [done|].
  change (2 ^ 53) with 9007199254740992 in *. lia.
Qed.

Lemma MAX_SAFE_INTEGER_value : MAX_SAFE_INTEGER = 9007199254740991.
Proof. reflexivity. Qed.

Lemma incStock_exact delta p :
  - MAX_SAFE_INTEGER <= p_stock p + delta <= MAX_SAFE_INTEGER ->
  incStock delta p = adjustStock delta p.
Proof.
  intros Hz. unfold incStock, adjustStock. rewrite Number_round_safe; [done|].
  rewrite MAX_SAFE_INTEGER_value in Hz. change (2 ^ 53) with 9007199254740992. lia.
Qed.

Lemma adjustStock_0 p : adjustStock 0 p = p.
Proof. destruct p. unfold adjustStock. simpl. f_equal. lia. Qed.

Lemma adjustStock_adjustStock a b p : adjustStock a (adjustStock b p) = adjustStock (b + a) p.
Proof. destruct p. unfold adjustStock. simpl. f_equal. lia. Qed.

Lemma requested_nonneg k items :
  Forall (fun item => 0 < quantity item) items -> 0 <= requested k items.
Proof.
  induction 1 as [|it items Hq _ IH]; simpl; [lia|].
  destruct (String.eqb (productId it) k); lia.
Qed.

Lemma magnitude_nonneg k items : 0 <= magnitude k items.
Proof.
  induction items as [|it items IH]; simpl; [lia|].
  destruct (String.eqb (productId it) k); lia.
Qed.

Lemma magnitude_requested k items :
  Forall (fun item => 0 < quantity item) items -> magnitude k items = requested k items.
Proof.
  induction 1 as [|it items Hq _ IH]; simpl; [done|].
  destruct (String.eqb (productId it) k); lia.
Qed.

Lemma lookup_insert_adjustStock (ps : gmap string Product) id p delta r k :
  ps !! id = Some p ->
  adjustStock r <$> (<[id := adjustStock delta p]> ps !! k)
  = adjustStock ((if String.eqb id k then delta else 0) + r) <$> ps !! k.
Proof.
  intros Hp. destruct (String.eqb_spec id k) as [->|Hne].
  - rewrite lookup_insert_eq, Hp. simpl. by rewrite adjustStock_adjustStock.
  - rewrite lookup_insert_ne by done. done.
Qed.

Lemma safeStocks_insert ps id p :
  safeStocks ps -> 0 <= p_stock p <= MAX_SAFE_INTEGER -> safeStocks (<[id := p]> ps).
Proof.
  intros Hs Hp k q. destruct (decide (id = k)) as [->|Hne].
  - rewrite lookup_insert_eq. by intros [= <-].
  - rewrite lookup_insert_ne by done. apply Hs.
Qed.

(** What a run of the decrement loop that reports no error has done,
    from stock levels it counts exactly. *)
Lemma decrementItems_effect pm items : forall upd errs w upd' errs' w',
  safeStocks (products w) ->
  (forall k ps, pm !! k = Some ps -> p_stock ps <= MAX_SAFE_INTEGER) ->
  Forall (fun item => 0 < quantity item) items ->
  decrementItems pm items upd errs w = (inr (upd', errs'), w') ->
  length errs' = length errs ->
  (forall k, products w' !! k = adjustStock (- requested k items) <$> products w !! k) /\
  safeStocks (products w').
Proof.
  induction items as [|item items IH]; intros upd errs w upd' errs' w' Hsafe Hpm Hq H Hlen;
    simpl in H.
  - munfold. injection H as <- <- <-. split; [|done].
    intros k. simpl. destruct (products w !! k) as [p|]; simpl; [|done].
    by rewrite adjustStock_0.
  - inversion Hq as [|? ? Hq0 Hq']; subst.
    destruct (pm !! productId item) as [product|] eqn:Hsnap.
    2:{ apply decrementItems_spec in H as [_ Hl]. rewrite length_app in Hl. simpl in Hl. lia. }
    destruct (Z.ltb_spec (p_stock product) (quantity item)) as [Hstale|Hle].
    { apply decrementItems_spec in H as [_ Hl]. rewrite length_app in Hl. simpl in Hl. lia. }
    unfold bind at 1 in H. unfold Product_findByIdAndUpdate_inc in H.
    destruct (products w !! productId item) as [p|] eqn:Hp.
    2:{ apply decrementItems_spec in H as [_ Hl]. rewrite length_app in Hl. simpl in Hl. lia. }
    cbv zeta in H.
    pose proof (Hsafe _ _ Hp) as Hc. pose proof (Hpm _ _ Hsnap) as Hs.
    rewrite incStock_exact in H by lia.
    destruct (Z.ltb_spec (p_stock (adjustStock (- quantity item) p)) 0) as [Hneg|Hpos].
    { unfold throw in H. discriminate. }
    unfold bind at 1, logger at 1 in H. cbn [products quotes payments logs] in H.
    apply IH in H as [Hmap Hsafe']; [|apply safeStocks_insert; [done|]|done|done|done].
    2:{ cbn [adjustStock p_stock] in *. lia. }
    cbn [products] in *. split; [|done].
    intros k. rewrite Hmap, lookup_insert_adjustStock by done. f_equal. f_equal.
    simpl. destruct (String.eqb (productId item) k); lia.
Qed.

(** When the lines can be served. *)
Lemma decrementItems_succeeds pm items : forall upd errs w,
  safeStocks (products w) ->
  (forall k ps, pm !! k = Some ps -> p_stock ps <= MAX_SAFE_INTEGER) ->
  Forall (fun item => 0 < quantity item) items ->
  (forall item, In item items ->
     (exists p, pm !! productId item = Some p /\ quantity item <= p_stock p) /\
     is_Some (products w !! productId item) /\
     requested (productId item) items <= stockOf (products w) (productId item)) ->
  exists upd' w', decrementItems pm items upd errs w = (inr (upd', errs), w').
Proof.
  induction items as [|item items IH]; intros upd errs w Hsafe Hpm Hq H; simpl.
  - do 2 eexists. reflexivity.
  - inversion Hq as [|? ? Hq0 Hq']; subst.
    destruct (H item) as ((product & Hsnap & Hle) & [p Hp] & Hreq); [by left|].
    rewrite Hsnap. destruct (Z.ltb_spec (p_stock product) (quantity item)) as [?|_]; [lia|].
    unfold bind at 1, Product_findByIdAndUpdate_inc. rewrite Hp. cbv zeta.
    pose proof (Hsafe _ _ Hp) as Hc. pose proof (Hpm _ _ Hsnap) as Hs.
    rewrite incStock_exact by lia.
    simpl in Hreq. rewrite String.eqb_refl in Hreq.
    pose proof (requested_nonneg (productId item) items Hq') as Hnn.
    unfold stockOf in Hreq. rewrite Hp in Hreq. simpl in Hreq.
    destruct (Z.ltb_spec (p_stock (adjustStock (- quantity item) p)) 0) as [Hneg|_].
    { cbn [adjustStock p_stock] in Hneg. lia. }
    unfold bind at 1, logger at 1. cbn [products quotes payments logs].
    apply IH; [apply safeStocks_insert; [done|]|done|done|].
    { cbn [adjustStock p_stock]. lia. }
    intros it Hin. destruct (H it) as (Hfound & [p' Hp'] & Hreq'); [by right|].
    split; [done|]. cbn [products]. split.
    + destruct (decide (productId item = productId it)) as [->|Hne].
      * rewrite lookup_insert_eq. by eexists.
      * rewrite lookup_insert_ne by done. by eexists.
    + unfold stockOf in *. simpl in Hreq'.
      destruct (String.eqb_spec (productId item) (productId it)) as [Heq|Hne].
      * rewrite <- Heq in *. rewrite lookup_insert_eq. rewrite Hp in Hreq'. simpl in *. lia.
      * rewrite lookup_insert_ne by done. lia.
Qed.

Lemma safeIncrement_insert items ps item p :
  ps !! productId item = Some p ->
  safeIncrement (item :: items) ps ->
  - MAX_SAFE_INTEGER <= p_stock p + quantity item <= MAX_SAFE_INTEGER /\
  safeIncrement items (<[productId item := adjustStock (quantity item) p]> ps).
Proof.
  intros Hp Hsafe. pose proof (Hsafe _ _ Hp) as Hk. simpl in Hk.
  rewrite String.eqb_refl in Hk. pose proof (magnitude_nonneg (productId item) items).
  split; [lia|].
  intros k q. destruct (String.eqb_spec (productId item) k) as [<-|Hne].
  - rewrite lookup_insert_eq. intros [= <-]. cbn [adjustStock p_stock]. lia.
  - rewrite lookup_insert_ne by done. intros Hq. specialize (Hsafe _ _ Hq). simpl in Hsafe.
    destruct (String.eqb_spec (productId item) k); [done|]. lia.
Qed.

(** What a run of the increment loop that reports no error has done,
    within the numbers the code counts exactly. *)
Lemma incrementItems_effect pm items : forall upd errs w upd' errs' w',
  safeIncrement items (products w) ->
  incrementItems pm items upd errs w = (inr (upd', errs'), w') ->
  length errs' = length errs ->
  forall k, products w' !! k = adjustStock (requested k items) <$> products w !! k.
Proof.
  induction items as [|item items IH]; intros upd errs w upd' errs' w' Hsafe H Hlen;
    simpl in H.
  - munfold. injection H as <- <- <-.
    intros k. simpl. destruct (products w !! k) as [p|]; simpl; [|done].
    by rewrite adjustStock_0.
  - destruct (pm !! productId item) as [product|] eqn:Hsnap.
    2:{ apply incrementItems_spec in H as [_ [Hl _]]. rewrite length_app in Hl. simpl in Hl.
        lia. }
    unfold bind at 1 in H. unfold Product_findByIdAndUpdate_inc in H.
    destruct (products w !! productId item) as [p|] eqn:Hp.
    2:{ apply incrementItems_spec in H as [_ [Hl _]]. rewrite length_app in Hl. simpl in Hl.
        lia. }
    cbv zeta in H. destruct (safeIncrement_insert items _ item p Hp Hsafe) as [Hexact Hsafe'].
    rewrite incStock_exact in H by done.
    unfold bind at 1, logger at 1 in H. cbn [products quotes payments logs] in H.
    intros k. eapply IH in H; [|exact Hsafe'|done]. rewrite H. cbn [products].
    rewrite lookup_insert_adjustStock by done. done.
Qed.

Lemma incrementItems_succeeds pm items : forall upd errs w,
  (forall item, In item items ->
     is_Some (pm !! productId item) /\ is_Some (products w !! productId item)) ->
  exists upd' w', incrementItems pm items upd errs w = (inr (upd', errs), w').
Proof.
  induction items as [|item items IH]; intros upd errs w H; simpl.
  - do 2 eexists. reflexivity.
  - destruct (H item) as ([product Hpm] & [p Hp]); [by left|].
    rewrite Hpm. unfold bind at 1, Product_findByIdAndUpdate_inc. rewrite Hp. cbv zeta.
    unfold bind at 1, logger at 1. apply IH.
    intros it Hin. destruct (H it) as (Hfound & [p' Hp']); [by right|].
    split; [done|]. simpl.
    destruct (decide (productId item = productId it)) as [->|Hne].
    + rewrite lookup_insert_eq. by eexists.
    + rewrite lookup_insert_ne by done. by eexists.
Qed.

Lemma decrementStock_run items w :
  exists res w', decrementStock items w = (inr res, w') /\ decrementOutcome items w res w'.
Proof.
  unfold decrementOutcome, decrementStock, try_catch, bind at 1, logger at 1.
  unfold bind at 1, withTransaction at 1, bind at 1.
  match goal with |- context [validateStock items ?w0] =>
    destruct (validateStock_run items w0) as (w1 & (Hp1 & Hq1 & Hy1) & -> & _) end.
  simpl in Hp1, Hq1, Hy1.
  destruct (objectIds items) as [ids|] eqn:Hids.
  2:{ munfold. do 2 eexists. split; [reflexivity|]. done. }
  cbn [isValid products].
  destruct (validateItems (activeAmong ids (products w)) items) as [|err errs0] eqn:Hval.
  2:{ munfold. simpl. do 2 eexists. split; [reflexivity|]. done. }
  cbn [length Nat.eqb negb]. unfold bind at 1. rewrite mapM_ObjectId_run, Hids.
  unfold bind at 1, Product_findActive at 1. unfold bind at 1. rewrite Hp1.
  destruct (decrementItems (activeAmong ids (products w)) items [] [] w1) as [r w2] eqn:Hloop.
  pose proof Hloop as Hloop'.
  apply decrementItems_spec in Hloop' as [[Hq2 Hy2] _].
  destruct r as [e|[upd [|e errs]]].
  - munfold. do 2 eexists. split; [reflexivity|]. exists w1. rewrite Hloop.
    split; [done|]. split; [done|]. split; [done|]. simpl. split; congruence.
  - munfold. simpl. do 2 eexists. split; [reflexivity|]. exists w1. rewrite Hloop.
    split; [done|]. split; [done|]. split; [done|]. split; simpl; congruence.
  - munfold. simpl. do 2 eexists. split; [reflexivity|]. exists w1. rewrite Hloop.
    split; [done|]. split; [done|]. split; [done|]. simpl. split; congruence.
Qed.

Lemma lineServable_validId ps item : lineServable ps item -> validId item.
Proof. intros [Hc _]. unfold validId. rewrite Hc. by eexists. Qed.

Lemma lineServable_snapshot items ids ps item :
  objectIds items = Some ids -> In item items -> lineServable ps item ->
  exists p, activeAmong ids ps !! productId item = Some p /\
            ps !! productId item = Some p /\ 0 < quantity item <= p_stock p.
Proof.
  intros Hids Hin (Hc & p & Hp & Ha & Hq). exists p. split; [|done].
  apply activeAmong_lookup. split; [done|]. split; [|done]. by eapply objectIds_elem.
Qed.

Lemma snapshot_lineServable items ids ps item p :
  objectIds items = Some ids ->
  activeAmong ids ps !! productId item = Some p ->
  Product_validateStock p (quantity item) = true ->
  lineServable ps item.
Proof.
  intros Hids (Hp & Hin & Ha)%activeAmong_lookup Hv. split.
  - by eapply objectIds_canonical.
  - exists p. unfold Product_validateStock in Hv. apply andb_true_iff in Hv as [H1 H2].
    apply Z.leb_le in H1. apply Z.ltb_lt in H2. done.
Qed.

Lemma safeStocks_snapshot ids ps :
  safeStocks ps -> forall k p, activeAmong ids ps !! k = Some p -> p_stock p <= MAX_SAFE_INTEGER.
Proof. intros Hs k p (Hp & _)%activeAmong_lookup. by apply Hs in Hp as [_ ?]. Qed.

Lemma validateItems_positive pm items :
  validateItems pm items = [] -> Forall (fun item => 0 < quantity item) items.
Proof.
  intros Hval. apply Forall_forall. intros item Hin%list_elem_of_In.
  destruct (validateItems_nil _ _ Hval item Hin) as (p & _ & Hv).
  unfold Product_validateStock in Hv. apply andb_true_iff in Hv as [_ Hv].
  by apply Z.ltb_lt in Hv.
Qed.

(** When [decrementStock] succeeds, and what it does to the products. *)
Lemma decrementStock_char items w :
  exists res w', decrementStock items w = (inr res, w') /\
    sameCollections w w' /\
    (success res = false -> products w' = products w) /\
    (safeStocks (products w) ->
     (success res = true <->
        Forall (lineServable (products w)) items /\
        Forall (fun item => requested (productId item) items
                            <= stockOf (products w) (productId item)) items) /\
     (success res = true ->
        (forall k, products w' !! k
                   = adjustStock (- requested k items) <$> products w !! k) /\
        safeStocks (products w'))).
Proof.
  destruct (decrementStock_run items w) as (res & w' & Hrun & Hout).
  destruct (decrementStock_spec items w) as (res0 & w0 & Hrun0 & Hcoll & Hspec).
  rewrite Hrun in Hrun0. injection Hrun0 as <- <-.
  exists res, w'. split; [done|]. split; [done|]. split.
  { intros Hf. rewrite Hf in Hspec. by destruct Hspec. }
  intros Hsafe. unfold decrementOutcome in Hout.
  destruct (objectIds items) as [ids|] eqn:Hids.
  2:{ destruct Hout as [-> [Hpw _]]. split; [|done].
      split; [done|]. intros [Hs _].
      assert (is_Some (objectIds items)) as [? ?]; [|congruence].
      apply objectIds_Some. eapply Forall_impl; [exact Hs|].
      intros item. apply lineServable_validId. }
  cbv zeta in Hout.
  destruct (validateItems (activeAmong ids (products w)) items) as [|err errs0] eqn:Hval.
  2:{ destruct Hout as [-> [Hpw _]]. split; [|done].
      split; [done|]. intros [Hs _].
      rewrite validateItems_ok in Hval; [done|].
      intros item Hin. rewrite Forall_forall in Hs.
      destruct (lineServable_snapshot items ids (products w) item Hids Hin) as (p & Hp & _ & Hq).
      { apply Hs. by apply list_elem_of_In. }
      exists p. split; [done|]. unfold Product_validateStock.
      apply andb_true_iff. split; [apply Z.leb_le|apply Z.ltb_lt]; lia. }
  destruct Hout as (w1 & (Hp1 & _ & _) & Hout).
  pose proof (validateItems_positive _ _ Hval) as Hpos.
  pose proof (safeStocks_snapshot ids _ Hsafe) as Hsnap.
  assert (Hsafe1 : safeStocks (products w1)) by (by rewrite Hp1).
  assert (Hsuff : Forall (lineServable (products w)) items ->
                  Forall (fun item => requested (productId item) items
                                      <= stockOf (products w) (productId item)) items ->
                  exists upd w2, decrementItems (activeAmong ids (products w)) items [] [] w1
                                 = (inr (upd, []), w2)).
  { intros Hs Ht. rewrite Forall_forall in Hs, Ht.
    apply decrementItems_succeeds; [done|done|done|].
    intros item Hin. pose proof (proj2 (list_elem_of_In _ _) Hin) as Hin'.
    destruct (lineServable_snapshot items ids (products w) item Hids Hin (Hs item Hin'))
      as (p & Hpm & Hp & Hq).
    split; [exists p; split; [done|lia]|]. rewrite Hp1. split; [by eexists|].
    by apply Ht. }
  destruct (decrementItems (activeAmong ids (products w)) items [] [] w1) as [r w2] eqn:Hloop.
  destruct r as [e|[upd [|e errs]]].
  - destruct Hout as [-> [Hpw _]]. split; [|done].
    split; [done|]. intros [Hs Ht].
    destruct (Hsuff Hs Ht) as (? & ? & ?). congruence.
  - destruct Hout as (-> & Hp' & _).
    apply decrementItems_effect in Hloop as [Hmap Hsafe2]; [|done..].
    assert (Heffect : (forall k, products w' !! k
                                 = adjustStock (- requested k items) <$> products w !! k) /\
                      safeStocks (products w')).
    { rewrite Hp'. split; [|done]. intros k. by rewrite Hmap, Hp1. }
    split; [|done].
    split; [|done]. intros _.
    split; apply Forall_forall; intros item Hin; apply list_elem_of_In in Hin.
    + destruct (validateItems_nil _ _ Hval item Hin) as (p & Hpm & Hv).
      by eapply snapshot_lineServable.
    + destruct Heffect as [Hmap' Hsafe'].
      destruct (validateItems_nil _ _ Hval item Hin) as (p & Hpm & _).
      apply activeAmong_lookup in Hpm as [Hp _].
      specialize (Hmap' (productId item)). rewrite Hp in Hmap'. simpl in Hmap'.
      apply Hsafe' in Hmap'. unfold stockOf. rewrite Hp. simpl in *. lia.
  - destruct Hout as [-> [Hpw _]]. split; [|done].
    split; [done|]. intros [Hs Ht].
    destruct (Hsuff Hs Ht) as (? & ? & ?). congruence.
Qed.

Lemma incrementStock_run items w :
  exists res w', incrementStock items w = (inr res, w') /\ incrementOutcome items w res w'.
Proof.
  unfold incrementOutcome, incrementStock, try_catch, bind at 1, logger at 1.
  unfold bind at 1, withTransaction at 1, bind at 1.
  rewrite mapM_ObjectId_run.
  destruct (objectIds items) as [ids|] eqn:Hids.
  2:{ munfold. do 2 eexists. split; [reflexivity|]. done. }
  unfold bind at 1, Product_findActive at 1. unfold bind at 1. cbn [products].
  set (w1 := mkWorld (products w) (quotes w) (payments w) _).
  destruct (incrementItems (activeAmong ids (products w)) items [] [] w1) as [r w2] eqn:Hloop.
  pose proof Hloop as Hloop'.
  apply incrementItems_spec in Hloop' as [[Hq2 Hy2] _]. simpl in Hq2, Hy2.
  destruct r as [e|[upd [|e errs]]].
  - munfold. do 2 eexists. split; [reflexivity|]. exists w1. rewrite Hloop.
    split; [done|]. split; [done|]. split; [done|]. simpl. split; congruence.
  - munfold. simpl. do 2 eexists. split; [reflexivity|]. exists w1. rewrite Hloop.
    split; [done|]. split; [done|]. split; [done|]. split; simpl; congruence.
  - munfold. simpl. do 2 eexists. split; [reflexivity|]. exists w1. rewrite Hloop.
    split; [done|]. split; [done|]. split; [done|]. simpl. split; congruence.
Qed.

Lemma lineFound_validId ps item : lineFound ps item -> validId item.
Proof. intros [Hc _]. unfold validId. rewrite Hc. by eexists. Qed.

(** When [incrementStock] succeeds, and what it does to the products. *)
Lemma incrementStock_char items w :
  exists res w', incrementStock items w = (inr res, w') /\
    sameCollections w w' /\
    (success res = true <-> Forall (lineFound (products w)) items) /\
    (success res = false -> products w' = products w) /\
    (safeIncrement items (products w) -> success res = true ->
     forall k, products w' !! k = adjustStock (requested k items) <$> products w !! k).
Proof.
  destruct (incrementStock_run items w) as (res & w' & Hrun & Hout).
  destruct (incrementStock_spec items w) as (res0 & w0 & Hrun0 & Hcoll & Hspec).
  rewrite Hrun in Hrun0. injection Hrun0 as <- <-.
  exists res, w'. split; [done|]. split; [done|].
  assert (Hfailed : success res = false -> products w' = products w).
  { intros Hf. rewrite Hf in Hspec. by destruct Hspec. }
  unfold incrementOutcome in Hout.
  destruct (objectIds items) as [ids|] eqn:Hids.
  2:{ destruct Hout as [-> [Hpw _]]. split; [|done].
      split; [done|]. intros Hs.
      assert (is_Some (objectIds items)) as [? ?]; [|congruence].
      apply objectIds_Some. eapply Forall_impl; [exact Hs|].
      intros item. apply lineFound_validId. }
  destruct Hout as (w1 & (Hp1 & _ & _) & Hout).
  assert (Hsuff : Forall (lineFound (products w)) items ->
                  exists upd w2, incrementItems (activeAmong ids (products w)) items [] [] w1
                                 = (inr (upd, []), w2)).
  { intros Hs. rewrite Forall_forall in Hs. apply incrementItems_succeeds.
    intros item Hin. pose proof (proj2 (list_elem_of_In _ _) Hin) as Hin'.
    destruct (Hs item Hin') as (Hc & p & Hp & Ha). rewrite Hp1. split; [|by eexists].
    exists p. apply activeAmong_lookup. split; [done|]. split; [|done].
    by eapply objectIds_elem. }
  destruct (incrementItems (activeAmong ids (products w)) items [] [] w1) as [r w2] eqn:Hloop.
  destruct r as [e|[upd [|e errs]]].
  - destruct Hout as [-> [Hpw _]]. split; [|done].
    split; [done|]. intros Hs. destruct (Hsuff Hs) as (? & ? & ?). congruence.
  - destruct Hout as (-> & Hp' & _). split; [|split; [done|]].
    + split; [|done]. intros _. apply Forall_forall. intros item Hin.
      apply list_elem_of_In in Hin.
      destruct (incrementItems_spec _ _ _ _ _ _ _ Hloop) as [_ [_ Hfound]].
      destruct (Hfound eq_refl item Hin) as [p Hpm].
      apply activeAmong_lookup in Hpm as (Hp & Hin' & Ha). split.
      * by eapply objectIds_canonical.
      * by exists p.
    + intros Hsafe _ k. rewrite Hp'.
      rewrite (incrementItems_effect _ _ _ _ _ _ _ _ ltac:(by rewrite Hp1) Hloop eq_refl k).
      by rewrite Hp1.
  - destruct Hout as [-> [Hpw _]]. split; [|done].
    split; [done|]. intros Hs. destruct (Hsuff Hs) as (? & ? & ?). congruence.
Qed.

Lemma lineServable_after_decrement items ps ps' item :
  (forall k, ps' !! k = adjustStock (- requested k items) <$> ps !! k) ->
  lineServable ps item -> lineFound ps' item.
Proof.
  intros Hmap (Hc & p & Hp & Ha & _). split; [done|].
  exists (adjustStock (- requested (productId item) items) p). by rewrite Hmap, Hp.
Qed.

(** X1: [decrementStock] answers (it never throws), writes to no
    collection but the products, and changes no product when it fails.
    From stock levels between 0 and 2^53 - 1 it succeeds exactly when
    every line names, by the text of its id, an active product and asks
    for a positive quantity the product has, and the lines of each
    product together ask for no more than its stock; a success takes
    from each product what the batch asks of it. *)
Theorem decrementStock_succeeds_iff (items : list StockItem) (w : World) :
  exists res w', decrementStock items w = (inr res, w') /\
    sameCollections w w' /\
    (success res = false -> products w' = products w) /\
    (safeStocks (products w) ->
     (success res = true <->
        Forall (lineServable (products w)) items /\
        Forall (fun item => requested (productId item) items
                            <= stockOf (products w) (productId item)) items) /\
     (success res = true ->
        (forall k, products w' !! k
                   = adjustStock (- requested k items) <$> products w !! k) /\
        safeStocks (products w'))).
Proof. exact (decrementStock_char items w). Qed.

(** X2: [incrementStock] answers (it never throws), writes to no
    collection but the products, and changes no product when it fails.
    It succeeds exactly when every line names, by the text of its id,
    an active product; the quantities are not looked at.  A success
    adds to each product what the batch gives it, as long as the stock
    and the quantities added to it stay within 2^53 - 1 in magnitude. *)
Theorem incrementStock_succeeds_iff (items : list StockItem) (w : World) :
  exists res w', incrementStock items w = (inr res, w') /\
    sameCollections w w' /\
    (success res = true <-> Forall (lineFound (products w)) items) /\
    (success res = false -> products w' = products w) /\
    (safeIncrement items (products w) -> success res = true ->
     forall k, products w' !! k = adjustStock (requested k items) <$> products w !! k).
Proof. exact (incrementStock_char items w). Qed.

(** X3: from stock levels between 0 and 2^53 - 1, a decrement that
    succeeded is undone by the increment of the same batch: the
    increment succeeds too, and the products are again what they were
    before the decrement, stock and all. *)
Theorem decrement_then_increment_restores (items : list StockItem) (w w' : World)
    (res : StockOperationResult) :
  safeStocks (products w) ->
  decrementStock items w = (inr res, w') ->
  success res = true ->
  exists res' w'', incrementStock items w' = (inr res', w'') /\
                   success res' = true /\ sameData w w''.
Proof.
  intros Hsafe Hdec Hok.
  destruct (decrementStock_char items w) as (res0 & w0 & Hrun & [Hq Hy] & _ & Hchar).
  rewrite Hdec in Hrun. injection Hrun as <- <-.
  destruct (Hchar Hsafe) as [Hiff Heffect].
  destruct (proj1 Hiff Hok) as [Hs Ht]. destruct (Heffect Hok) as [Hmap Hsafe'].
  destruct (incrementStock_char items w') as (res' & w'' & Hinc & [Hq' Hy'] & Hiff' & _ & Hmap').
  exists res', w''. split; [done|].
  assert (success res' = true) as Hok'.
  { apply Hiff'. eapply Forall_impl; [exact Hs|]. intros item.
    by apply (lineServable_after_decrement items). }
  split; [done|].
  assert (Hpos : Forall (fun item => 0 < quantity item) items).
  { eapply Forall_impl; [exact Hs|]. intros item (_ & p & _ & _ & ?). lia. }
  assert (Hsafeinc : safeIncrement items (products w')).
  { intros k p' Hp'. rewrite (magnitude_requested k items Hpos).
    pose proof (Hsafe' _ _ Hp') as Hbound. rewrite Hmap in Hp'.
    destruct (products w !! k) as [p|] eqn:Hp; [|done]. injection Hp' as <-.
    pose proof (Hsafe _ _ Hp). cbn [adjustStock p_stock] in *. lia. }
  split; [|split; congruence].
  apply map_eq. intros k. rewrite (Hmap' Hsafeinc Hok' k), Hmap.
  destruct (products w !! k) as [p|]; simpl; [|done].
  rewrite adjustStock_adjustStock.
  replace (- requested k items + requested k items) with 0 by lia. by rewrite adjustStock_0.
Qed.

Lemma snapshot_foundActive items ids ps item :
  objectIds items = Some ids -> In item items ->
  activeAmong ids ps !! productId item = foundActive ps item.
Proof.
  intros Hids Hin. unfold foundActive. case_bool_decide as Hc.
  - destruct (ps !! productId item) as [p|] eqn:Hp.
    + destruct (p_isActive p) eqn:Ha.
      * apply activeAmong_lookup. split; [done|]. split; [|done]. by eapply objectIds_elem.
      * by eapply activeAmong_inactive.
    + destruct (activeAmong ids ps !! productId item) as [p|] eqn:E; [|done].
      apply activeAmong_lookup in E as [E _]. congruence.
  - destruct (activeAmong ids ps !! productId item) as [p|] eqn:E; [|done].
    apply activeAmong_lookup in E as (_ & E & _). destruct Hc.
    by eapply objectIds_canonical.
Qed.

Lemma validateItems_lineError pm ps items :
  (forall item, In item items -> pm !! productId item = foundActive ps item) ->
  validateItems pm items = omap (lineError ps) items.
Proof.
  induction items as [|it items IH]; [done|]. intros H.
  cbn [validateItems]. rewrite (H it) by (by left).
  change (omap (lineError ps) (it :: items))
    with (match lineError ps it with
          | Some err => err :: omap (lineError ps) items
          | None => omap (lineError ps) items
          end).
  rewrite <- IH by (intros item Hin; apply H; by right).
  unfold lineError.
  destruct (foundActive ps it) as [p|]; [|done].
  by destruct (Product_validateStock p (quantity it)).
Qed.

Lemma lineError_None ps item : lineError ps item = None <-> lineServable ps item.
Proof.
  unfold lineError, foundActive, lineServable, Product_validateStock.
  case_bool_decide as Hc.
  2:{ split; [done|]. by intros [? _]. }
  destruct (ps !! productId item) as [p|] eqn:Hp.
  2:{ split; [done|]. by intros (_ & ? & ? & _). }
  destruct (p_isActive p) eqn:Ha.
  2:{ split; [done|]. intros (_ & p' & [= <-] & ? & _). congruence. }
  destruct (Z.leb_spec (quantity item) (p_stock p)), (Z.ltb_spec 0 (quantity item)); simpl.
  all: split; try done.
  all: try (intros (_ & p' & [= <-] & _ & ?); lia).
  intros _. split; [done|]. exists p. split; [done|]. split; [done|]. lia.
Qed.

Lemma omap_nil_Forall {A B} (f : A -> option B) (l : list A) :
  omap f l = [] <-> Forall (fun x => f x = None) l.
Proof.
  induction l as [|x l IH].
  - split; [constructor|done].
  - change (omap f (x :: l))
      with (match f x with Some y => y :: omap f l | None => omap f l end).
    rewrite Forall_cons, <- IH. destruct (f x); split; try done; by intros [? ?].
Qed.

Lemma validateStock_verdict items w :
  Forall validId items ->
  exists res w', validateStock items w = (inr res, w') /\ sameData w w' /\
    v_errors res = omap (lineError (products w)) items /\
    (isValid res = true <-> Forall (lineServable (products w)) items).
Proof.
  intros Hv. apply objectIds_Some in Hv as [ids Hids].
  destruct (validateStock_run items w) as (w' & Hs & Hrun & _). rewrite Hids in Hrun.
  rewrite (validateItems_lineError _ (products w)) in Hrun
    by (intros item Hin; by eapply snapshot_foundActive).
  do 2 eexists. split; [exact Hrun|]. split; [done|]. split; [done|]. cbn [isValid].
  rewrite Nat.eqb_eq, length_zero_iff_nil, omap_nil_Forall.
  split; intros H; (eapply Forall_impl; [exact H|]); intros item; apply lineError_None.
Qed.

(** X4: given ids that are all well formed, [validateStock] answers,
    changes no collection, and reports exactly the lines that cannot be
    served, one error a line and in the order of the batch: an unknown
    or inactive product as not found with nothing available, a known
    one with its name and its stock.  The batch is valid exactly when
    every line can be served on its own. *)
Theorem validateStock_reports (items : list StockItem) (w : World) :
  Forall validId items ->
  exists res w', validateStock items w = (inr res, w') /\ sameData w w' /\
    v_errors res = omap (lineError (products w)) items /\
    (isValid res = true <-> Forall (lineServable (products w)) items).
Proof. exact (validateStock_verdict items w). Qed.

Lemma not_validId_objectIds items : ~ Forall validId items -> objectIds items = None.
Proof.
  intros Hn. destruct (objectIds items) eqn:E; [|done]. destruct Hn.
  apply objectIds_Some. by eexists.
Qed.

(** X5: a batch in which some id is not a 24 digit hexadecimal text is
    refused as a whole, whatever its other lines are: [validateStock]
    and [reserveStock] throw and the error log has the entry,
    [decrementStock] and [incrementStock] answer with the one general
    error; no collection changes. *)
Theorem malformed_id_refuses_the_batch (items : list StockItem) (w : World)
    (reservationId : string) (expirationMinutes : Z) :
  ~ Forall validId items ->
  (exists w', validateStock items w = (inl "Error validando disponibilidad de stock", w') /\
              sameData w w' /\ "Error validando stock:" ∈ errorLog w') /\
  (exists w', reserveStock items reservationId expirationMinutes w
              = (inl "Error en la reserva de stock", w') /\
              sameData w w' /\ "Error reservando stock:" ∈ errorLog w') /\
  (exists w', decrementStock items w
              = (inr (transactionErrorResult "Error validando disponibilidad de stock"), w') /\
              sameData w w') /\
  (exists w', incrementStock items w
              = (inr (transactionErrorResult ObjectId.BSONError), w') /\ sameData w w').
Proof.
  intros Hn%not_validId_objectIds. repeat split.
  - destruct (validateStock_run items w) as (w' & Hs & Hrun & Hlog). rewrite Hn in Hrun.
    exists w'. auto.
  - unfold reserveStock, try_catch, bind at 1, logger at 1. unfold bind at 1.
    match goal with |- context [validateStock items ?w0] =>
      destruct (validateStock_run items w0) as (w' & (Hp & Hq & Hy) & -> & _) end.
    rewrite Hn. munfold. simpl in *. eexists. split; [reflexivity|]. split; [done|].
    unfold errorLog. simpl. rewrite filter_app, fmap_app. apply elem_of_app. right.
    rewrite filter_cons_True by done. simpl. apply elem_of_cons. by left.
  - destruct (decrementStock_run items w) as (res & w' & Hrun & Hout).
    unfold decrementOutcome in Hout. rewrite Hn in Hout. destruct Hout as [-> Hs].
    by exists w'.
  - destruct (incrementStock_run items w) as (res & w' & Hrun & Hout).
    unfold incrementOutcome in Hout. rewrite Hn in Hout. destruct Hout as [-> Hs].
    by exists w'.
Qed.

(** X6: a reservation holds nothing.  [reserveStock] changes no
    collection; for ids that are well formed it answers with the verdict
    of the validation and, unlike [decrementStock], with the error of
    each line that cannot be served.  [releaseStock] always succeeds and
    changes nothing either. *)
Theorem reserveStock_holds_nothing (items : list StockItem) (w : World)
    (reservationId : string) (expirationMinutes : Z) :
  (exists r w', reserveStock items reservationId expirationMinutes w = (r, w') /\
     sameData w w' /\
     (Forall validId items ->
      exists res, r = inr res /\
        (success res = true <-> Forall (lineServable (products w)) items) /\
        errors res = (if success res then None
                      else Some (operationError <$> omap (lineError (products w)) items)))) /\
  (exists res w', releaseStock reservationId w = (inr res, w') /\
     success res = true /\ sameData w w').
Proof.
  split.
  2:{ unfold releaseStock. munfold. do 2 eexists. split; [reflexivity|]. done. }
  unfold reserveStock, try_catch, bind at 1, logger at 1. unfold bind at 1.
  match goal with |- context [validateStock items ?w0] =>
    destruct (validateStock_run items w0) as (w1 & (Hp & Hq & Hy) & -> & _) end.
  simpl in Hp, Hq, Hy.
  destruct (objectIds items) as [ids|] eqn:Hids.
  2:{ munfold. do 2 eexists. split; [reflexivity|]. split; [done|].
      intros Hv%objectIds_Some. rewrite Hids in Hv. by destruct Hv. }
  cbn [isValid v_errors products].
  rewrite (validateItems_lineError _ (products w))
    by (intros item Hin; by eapply snapshot_foundActive).
  destruct (omap (lineError (products w)) items) as [|err errs0] eqn:Herrs.
  - munfold. simpl. do 2 eexists. split; [reflexivity|]. split; [done|]. intros _.
    eexists. split; [reflexivity|]. simpl. split; [|done]. split; [|done]. intros _.
    apply omap_nil_Forall in Herrs. eapply Forall_impl; [exact Herrs|].
    intros item. apply lineError_None.
  - munfold. simpl. do 2 eexists. split; [reflexivity|]. split; [done|]. intros _.
    eexists. split; [reflexivity|]. simpl. split; [|done]. split; [done|]. intros Hs.
    assert (omap (lineError (products w)) items = []); [|congruence].
    apply omap_nil_Forall. eapply Forall_impl; [exact Hs|]. intros item. apply lineError_None.
Qed.

Lemma stockWorld_safe stock :
  0 <= stock <= MAX_SAFE_INTEGER -> safeStocks (products (stockWorld stock)).
Proof. intros Hs k p. simpl. by intros [<- <-]%lookup_singleton_Some. Qed.

Lemma decrement_then_increment_restores_witness :
  exists res' w'',
    incrementStock [mkStockItem px 2]
      (decrementStock [mkStockItem px 2] (stockWorld 10)).2 = (inr res', w'') /\
    success res' = true /\ sameData (stockWorld 10) w''.
Proof.
  apply (decrement_then_increment_restores [mkStockItem px 2] (stockWorld 10) _
           (mkStockOperationResult true "Stock decrementado exitosamente" None
              (Some [mkUpdatedProduct px "Mouse" 10 8]))).
  - apply stockWorld_safe. rewrite MAX_SAFE_INTEGER_value. lia.
  - vm_compute. reflexivity.
  - reflexivity.
Defined.

Lemma validateStock_reports_witness :
  exists res w',
    validateStock [mkStockItem px 5; mkStockItem py 2; mkStockItem px 1] catalogWorld
    = (inr res, w') /\ sameData catalogWorld w' /\
    v_errors res
    = omap (lineError (products catalogWorld))
        [mkStockItem px 5; mkStockItem py 2; mkStockItem px 1] /\
    (isValid res = true <->
     Forall (lineServable (products catalogWorld))
       [mkStockItem px 5; mkStockItem py 2; mkStockItem px 1]).
Proof.
  apply (validateStock_reports [mkStockItem px 5; mkStockItem py 2; mkStockItem px 1]
           catalogWorld).
  repeat constructor; vm_compute; eauto.
Defined.

Lemma malformed_id_refuses_the_batch_witness :
  (exists w', validateStock [mkStockItem px 1; mkStockItem "mouse" 1] (stockWorld 3)
              = (inl "Error validando disponibilidad de stock", w') /\
              sameData (stockWorld 3) w' /\ "Error validando stock:" ∈ errorLog w') /\
  (exists w', reserveStock [mkStockItem px 1; mkStockItem "mouse" 1] "r-1" 30 (stockWorld 3)
              = (inl "Error en la reserva de stock", w') /\
              sameData (stockWorld 3) w' /\ "Error reservando stock:" ∈ errorLog w') /\
  (exists w', decrementStock [mkStockItem px 1; mkStockItem "mouse" 1] (stockWorld 3)
              = (inr (transactionErrorResult "Error validando disponibilidad de stock"), w') /\
              sameData (stockWorld 3) w') /\
  (exists w', incrementStock [mkStockItem px 1; mkStockItem "mouse" 1] (stockWorld 3)
              = (inr (transactionErrorResult ObjectId.BSONError), w') /\
              sameData (stockWorld 3) w').
Proof.
  apply (malformed_id_refuses_the_batch [mkStockItem px 1; mkStockItem "mouse" 1]
           (stockWorld 3) "r-1" 30).
  intros H. apply Forall_cons in H as [_ H]. apply Forall_cons in H as [[x Hx] _].
  vm_compute in Hx. discriminate.
Defined.

(** ** Notifications and the payments *)

Lemma handlePaymentWebhook_unmatched wd now w :
  matched wd w = None ->
  exists w', handlePaymentWebhook wd now w = (inr tt, w') /\ sameData w w'.
Proof.
  unfold matched, handlePaymentWebhook, try_catch, bind, logger, ret,
    Payment_findOne_byExternalReference.
  destruct (wd_externalReference wd) as [ref|]; [destruct (truthy ref)|];
    cbn [payments]; intros Hm; rewrite ?Hm; eexists; (split; [reflexivity|done]).
Qed.

Lemma handlePaymentWebhook_matched wd now w loaded :
  matched wd w = Some loaded ->
  handlePaymentWebhook wd now w
  = try_catch
      (logger Info "Procesando webhook de pago" ;;;
       payment <- ret (Some loaded) ;;
       match payment with
       | None => logger Warn "No se pudo encontrar el pago asociado al webhook"
       | Some loaded =>
           if String.eqb (wd_status wd) "approved" then
             let payment := setPaidAt (setPaymentStatus loaded pay_approved) (Some now) in
             quote <- Quote_findById (pay_quote payment) ;;
             match quote with
             | Some quote =>
                 let quote := setQuoteStatus quote q_paid in
                 Quote_save (pay_quote payment) quote now ;;;
                 let stockItems :=
                   map (fun item => mkStockItem (qi_product item) (qi_quantity item))
                       (q_items quote) in
                 stockResult <- decrementStock stockItems ;;
                 if negb (success stockResult)
                 then logger Error "Error decrementando stock después del pago"
                 else logger Info "Stock decrementado exitosamente"
             | None => ret tt
             end ;;;
             savePaymentAfterWebhook loaded payment wd now
           else if String.eqb (wd_status wd) "rejected" then
             let payment := setPaymentStatus loaded pay_rejected in
             rejectedQuote <- Quote_findById (pay_quote payment) ;;
             savePaymentAfterWebhook loaded payment wd now
           else if String.eqb (wd_status wd) "cancelled" then
             let payment := setPaymentStatus loaded pay_cancelled in
             savePaymentAfterWebhook loaded payment wd now
           else
             logger Info "Estado de pago no reconocido"
       end)
      (fun e => logger Error "Error manejando webhook de pago:" ;;; throw e) w.
Proof.
  unfold matched, handlePaymentWebhook, try_catch, bind at 1, logger at 1.
  unfold bind at 1.
  unfold bind at 3, logger at 2. unfold bind at 3.
  destruct (wd_externalReference wd) as [ref|]; [|done].
  destruct (truthy ref); [|done].
  unfold Payment_findOne_byExternalReference at 1. cbn [payments]. intros ->. reflexivity.
Qed.

Lemma savePaymentAfterWebhook_other loaded s wd now w :
  s <> pay_approved ->
  savePaymentAfterWebhook loaded (setPaymentStatus loaded s) wd now w
  = (inr tt, mkWorld (products w) (quotes w)
               (replacePayment (afterNotification loaded s wd) (payments w))
               (logs w ++ [(Info, "Pago actualizado por webhook")])).
Proof.
  intros Hs. unfold savePaymentAfterWebhook, bind, Payment_save, logger,
    Payment_preSave_paidAt, afterNotification.
  cbn [setWebhookData setPaymentStatus setPaidAt pay_status pay_paidAt pay_id pay_quote
       pay_mercadopagoId pay_amount pay_externalReference pay_webhookData
       products quotes payments logs].
  rewrite (bool_decide_false (s = pay_approved)) by done. cbn [andb negb].
  case_bool_decide; cbn [negb]; reflexivity.
Qed.

Lemma handlePaymentWebhook_other wd now w :
  wd_status wd <> "approved" ->
  exists w', handlePaymentWebhook wd now w = (inr tt, w') /\
    products w' = products w /\ quotes w' = quotes w /\
    payments w' = match matched wd w, otherStatus (wd_status wd) with
                  | Some loaded, Some s =>
                      replacePayment (afterNotification loaded s wd) (payments w)
                  | _, _ => payments w
                  end.
Proof.
  intros Hna. destruct (matched wd w) as [loaded|] eqn:Hm.
  2:{ destruct (handlePaymentWebhook_unmatched wd now w Hm) as (w' & -> & Hp & Hq & Hy).
      by exists w'. }
  rewrite (handlePaymentWebhook_matched wd now w loaded Hm).
  apply String.eqb_neq in Hna. rewrite Hna. unfold otherStatus.
  unfold try_catch, bind at 1, logger at 1. unfold bind at 1, ret at 1.
  destruct (String.eqb (wd_status wd) "rejected").
  { unfold bind at 1, Quote_findById at 1. rewrite savePaymentAfterWebhook_other by done.
    eexists. split; [reflexivity|]. done. }
  destruct (String.eqb (wd_status wd) "cancelled").
  { rewrite savePaymentAfterWebhook_other by done.
    eexists. split; [reflexivity|]. done. }
  unfold logger. eexists. split; [reflexivity|]. done.
Qed.

(** X7: a notification whose status is not approved is handled without
    an error and touches neither the products nor the quotes.  When it
    says rejected or cancelled and correlates to a payment, that payment
    takes the status, whatever status it had, keeps the notification and
    loses its date of payment if the status changed; in every other case
    the payments stay as they are too. *)
Theorem other_notifications_touch_only_the_payment (wd : WebhookData) (now : Z) (w : World) :
  wd_status wd <> "approved" ->
  exists w', handlePaymentWebhook wd now w = (inr tt, w') /\
    products w' = products w /\ quotes w' = quotes w /\
    payments w' = match matched wd w, otherStatus (wd_status wd) with
                  | Some loaded, Some s =>
                      replacePayment (afterNotification loaded s wd) (payments w)
                  | _, _ => payments w
                  end.
Proof. exact (handlePaymentWebhook_other wd now w). Qed.

Lemma other_status_payments wd now w loaded :
  matched wd w = Some loaded -> wd_status wd <> "approved" ->
  payments (handlePaymentWebhook wd now w).2 = payments w \/
  exists s, s <> pay_approved /\
    payments (handlePaymentWebhook wd now w).2
    = replacePayment (afterNotification loaded s wd) (payments w).
Proof.
  intros Hm Hna. destruct (handlePaymentWebhook_other wd now w Hna) as (w' & -> & _ & _ & Hy).
  cbn [snd]. rewrite Hy, Hm. unfold otherStatus.
  destruct (String.eqb (wd_status wd) "rejected"); [right; by exists pay_rejected|].
  destruct (String.eqb (wd_status wd) "cancelled"); [right; by exists pay_cancelled|].
  by left.
Qed.

(** ** The date of payment *)

Lemma replacePayment_Forall (P : Payment -> Prop) this ps :
  Forall P ps -> P this -> Forall P (replacePayment this ps).
Proof.
  intros Hps Hthis. unfold replacePayment. apply Forall_forall. intros p Hin.
  apply list_elem_of_In, in_map_iff in Hin as (p0 & <- & Hin).
  destruct (String.eqb (pay_id p0) (pay_id this)); [done|].
  rewrite Forall_forall in Hps. by apply Hps, list_elem_of_In.
Qed.

Lemma Payment_preSave_paidAtOk statusModified now this :
  statusModified = true \/ paidAtOk this ->
  paidAtOk (Payment_preSave_paidAt statusModified now this).
Proof.
  unfold Payment_preSave_paidAt, paidAtOk. destruct statusModified.
  - intros _. destruct this as [? ? ? st ? ? ? paid]. simpl.
    destruct st, paid; simpl; split; intros H; try done; try (by eexists);
      try (by destruct H).
  - by intros [|].
Qed.

Lemma Payment_save_paidAtOk loaded this now w :
  Forall paidAtOk (payments w) ->
  pay_status this <> pay_status loaded \/ paidAtOk this ->
  exists w', Payment_save loaded this now w = (inr tt, w') /\
             products w' = products w /\ quotes w' = quotes w /\
             Forall paidAtOk (payments w').
Proof.
  intros Hps Hthis. unfold Payment_save. eexists. split; [reflexivity|].
  cbn [products quotes payments]. split; [done|]. split; [done|].
  apply replacePayment_Forall; [done|]. apply Payment_preSave_paidAtOk.
  destruct Hthis as [Hne|Hok]; [left|by right]. by rewrite bool_decide_false.
Qed.

Lemma matched_elem wd w loaded : matched wd w = Some loaded -> loaded ∈ payments w.
Proof.
  unfold matched. destruct (wd_externalReference wd) as [ref|]; [|done].
  destruct (truthy ref); [|done]. intros Hf. apply find_some in Hf as [Hin _].
  by apply list_elem_of_In.
Qed.

Lemma handlePaymentWebhook_paidAtOk wd now w :
  Forall paidAtOk (payments w) ->
  Forall paidAtOk (payments (handlePaymentWebhook wd now w).2).
Proof.
  intros Hps. destruct (matched wd w) as [loaded|] eqn:Hm.
  2:{ destruct (handlePaymentWebhook_unmatched wd now w Hm) as (w' & -> & _ & _ & Hy).
      cbn [snd]. by rewrite Hy. }
  assert (Hloaded : paidAtOk loaded).
  { rewrite Forall_forall in Hps. by apply Hps, (matched_elem wd). }
  destruct (String.eqb (wd_status wd) "approved") eqn:Happroved.
  2:{ apply String.eqb_neq in Happroved.
      destruct (other_status_payments wd now w loaded Hm Happroved) as [->| (s & Hs & ->)];
        [done|].
      apply replacePayment_Forall; [done|]. unfold paidAtOk, afterNotification. simpl.
      case_bool_decide as E; [by rewrite E|]. split; [by intros [? ?]|done]. }
  rewrite (handlePaymentWebhook_matched wd now w loaded Hm), Happroved.
  unfold try_catch, bind at 1, logger at 1. unfold bind at 1, ret at 1.
  unfold bind at 1. unfold bind at 1, Quote_findById at 1.
  cbn [quotes setPaidAt setPaymentStatus pay_quote].
  assert (Hsave : forall w0, payments w0 = payments w ->
            Forall paidAtOk
              (payments (savePaymentAfterWebhook loaded
                           (setPaidAt (setPaymentStatus loaded pay_approved) (Some now))
                           wd now w0).2)).
  { intros w0 Hw0. unfold savePaymentAfterWebhook, bind.
    destruct (Payment_save_paidAtOk loaded
                (setWebhookData (setPaidAt (setPaymentStatus loaded pay_approved) (Some now))
                   (Some wd)) now w0) as (w1 & -> & _ & _ & Hok).
    - by rewrite Hw0.
    - right. unfold paidAtOk. simpl. split; [done|]. by eexists.
    - done. }
  destruct (quotes w !! pay_quote loaded) as [quote|].
  2:{ unfold ret at 1. by apply Hsave. }
  unfold bind at 1, Quote_save at 1.
  destruct (Quote_validate_expiresAt (setQuoteStatus quote q_paid) now); [|done].
  unfold bind at 1.
  match goal with |- context [decrementStock ?items ?w0] =>
    destruct (decrementStock_spec items w0) as (res & w2 & -> & [_ Hy2] & _) end.
  simpl in Hy2. destruct (success res); cbn [negb]; unfold logger at 1; by apply Hsave.
Qed.

(** ** Cancelling a payment *)

Lemma cancelPayment_run paymentId now w :
  exists r w', cancelPayment paymentId now w = (r, w') /\
    products w' = products w /\
    match ObjectId.fromString paymentId with
    | None => r = inl (CastError paymentId "_id" "Payment") /\ sameData w w'
    | Some oid =>
        match find (fun p => String.eqb (pay_id p) oid) (payments w) with
        | None => r = inr (notFoundResponse "Pago no encontrado") /\ sameData w w'
        | Some loaded =>
            if bool_decide (pay_status loaded = pay_pending)
            then
              payments w' = replacePayment (cancelledPayment loaded) (payments w) /\
              match quotes w !! pay_quote loaded with
              | Some quote =>
                  if bool_decide (q_status quote = q_pending)
                  then
                    if Quote_validate_expiresAt quote now
                    then r = inr (successResponse "Pago cancelado exitosamente") /\
                         quotes w' = <[pay_quote loaded :=
                                         calculateTotals (setQuotePaymentId quote None)]> (quotes w)
                    else r = inl Quote_ValidationError /\ quotes w' = quotes w
                  else r = inr (successResponse "Pago cancelado exitosamente") /\
                       quotes w' = quotes w
              | None => r = inr (successResponse "Pago cancelado exitosamente") /\
                        quotes w' = quotes w
              end
            else r = inr (badRequestResponse
                            ("No se puede cancelar un pago en estado "
                               +:+ PaymentStatus_text (pay_status loaded))) /\
                 sameData w w'
        end
    end.
Proof.
  unfold cancelPayment, try_catch, bind at 1, Payment_findById_populateQuote at 1,
    bind at 1, castObjectId at 1, castPath at 1.
  destruct (ObjectId.fromString paymentId) as [oid|].
  2:{ unfold throw, bind, logger. do 2 eexists. split; [reflexivity|]. done. }
  unfold ret at 1.
  destruct (find (fun p => String.eqb (pay_id p) oid) (payments w)) as [loaded|].
  2:{ unfold ret. do 2 eexists. split; [reflexivity|]. done. }
  case_bool_decide as Hs; cbn [negb].
  2:{ unfold ret. do 2 eexists. split; [reflexivity|]. done. }
  unfold bind at 1, Payment_save at 1, Payment_preSave_paidAt.
  cbn [setPaymentStatus pay_status pay_paidAt]. rewrite Hs.
  cbn [bool_decide decide_rel PaymentStatus_eq_dec negb andb].
  rewrite (bool_decide_false (pay_cancelled = pay_pending)) by done.
  rewrite (bool_decide_false (pay_cancelled = pay_approved)) by done.
  cbn [negb andb].
  fold (cancelledPayment loaded).
  destruct (quotes w !! pay_quote loaded) as [quote|] eqn:Hq.
  2:{ unfold bind, ret, logger. do 2 eexists. split; [reflexivity|]. done. }
  unfold bind at 1. unfold bind at 1, Quote_findById at 1. cbn [quotes]. rewrite Hq.
  case_bool_decide as Hqs.
  2:{ unfold bind, ret, logger. do 2 eexists. split; [reflexivity|]. done. }
  unfold Quote_save at 1.
  change (Quote_validate_expiresAt (setQuotePaymentId quote None) now)
    with (Quote_validate_expiresAt quote now).
  destruct (Quote_validate_expiresAt quote now).
  - unfold bind, ret, logger. do 2 eexists. split; [reflexivity|]. done.
  - unfold bind, throw, logger. do 2 eexists. split; [reflexivity|]. done.
Qed.

(** ** Creating a payment: what it leaves alone *)

Lemma sameStatuses_refl w : sameStatuses w w.
Proof. done. Qed.

Lemma sameStatuses_trans w1 w2 w3 :
  sameStatuses w1 w2 -> sameStatuses w2 w3 -> sameStatuses w1 w3.
Proof. intros H1 H2 id. by rewrite H2, H1. Qed.

Lemma sameStatuses_eq w w' : quotes w' = quotes w -> sameStatuses w w'.
Proof. intros H id. by rewrite H. Qed.

Lemma alter_sameStatuses (f : Quote -> Quote) id (qs : gmap string Quote) :
  (forall q, q_status (f q) = q_status q) ->
  forall k, q_status <$> alter f id qs !! k = q_status <$> qs !! k.
Proof.
  intros Hf k. destruct (decide (id = k)) as [<-|Hne].
  - rewrite lookup_alter_eq. destruct (qs !! id) as [q|]; [|done]. simpl. by rewrite Hf.
  - by rewrite lookup_alter_ne.
Qed.

Lemma newPayment_paidAtOk req quoteId quote preferenceId :
  paidAtOk (newPayment req quoteId quote preferenceId).
Proof. unfold paidAtOk. simpl. split; [by intros [? ?]|done]. Qed.

Lemma createPayment_step_frame req pc w :
  exists pc' w', createPayment_step req pc w = (inr pc', w') /\
    products w' = products w /\ sameStatuses w w' /\
    (from_option paidAtOk True (heldPayment pc) -> Forall paidAtOk (payments w) ->
     from_option paidAtOk True (heldPayment pc') /\ Forall paidAtOk (payments w')).
Proof.
  destruct (createPayment_step_outcome req pc w) as (pc' & w' & -> & Hout).
  do 2 eexists. split; [reflexivity|].
  destruct Hout as [pc r w' Hr (Hp & Hq & Hy)|quoteId quote w' Hcast Hquote Hs (Hp & Hq & Hy)
                    |quoteId quote populated w' Hcast Hfind (Hp & Hq & Hy)
                    |quote populated stockItems validation w' Hitems Hrun Hvalid (Hp & Hq & Hy)
                    |quoteId quote preferenceId Hcast Hpref
                    |quote payment Hvalid Hfind
                    |quote payment Hdup
                    |quote payment w' Hexp Hp Hy Hq
                    |r]; cbn [heldPayment from_option products quotes payments].
  - split; [done|]. split; [by apply sameStatuses_eq|]. intros _ Hps. by rewrite Hy.
  - split; [done|]. split; [by apply sameStatuses_eq|]. intros _ Hps. by rewrite Hy.
  - split; [done|]. split; [by apply sameStatuses_eq|]. intros _ Hps. by rewrite Hy.
  - split; [done|]. split; [by apply sameStatuses_eq|]. intros _ Hps. by rewrite Hy.
  - split; [done|]. split; [done|]. intros _ Hps. split; [|done]. apply newPayment_paidAtOk.
  - done.
  - split; [done|]. split; [done|]. intros Hpay Hps. split; [done|].
    apply Forall_app. split; [done|]. by apply Forall_singleton.
  - split; [done|]. split.
    + intros id. rewrite Hq. apply alter_sameStatuses. intros q. by rewrite calculateTotals_status.
    + intros _ Hps. by rewrite Hy.
  - done.
Qed.

Lemma advance_frame i pool w :
  products (advance i pool w).2 = products w /\ sameStatuses w (advance i pool w).2.
Proof.
  unfold advance. destruct (pool !! i) as [[req pc]|]; [|done].
  destruct (createPayment_step_frame req pc w) as (pc' & w' & -> & Hp & Hs & _). done.
Qed.

(** X8: creating payment orders holds no stock and moves no quote:
    whatever requests are in flight and however their steps interleave,
    the products are what they were and every quote has the status it
    had. *)
Theorem createPayment_reserves_nothing (schedule : list nat) (pool : Pool) (w : World) :
  products (runSchedule schedule pool w).2 = products w /\
  sameStatuses w (runSchedule schedule pool w).2.
Proof.
  revert pool w. induction schedule as [|i schedule IH]; intros pool w; [done|].
  cbn [runSchedule]. destruct (advance_frame i pool w) as [Hp Hs].
  destruct (advance i pool w) as [pool' w']. cbn [snd] in *.
  destruct (IH pool' w') as [Hp' Hs']. split; [congruence|].
  by eapply sameStatuses_trans.
Qed.

Lemma createPayment_run_paidAtOk fuel req : forall pc w,
  from_option paidAtOk True (heldPayment pc) -> Forall paidAtOk (payments w) ->
  Forall paidAtOk (payments (createPayment_run fuel req pc w).2).
Proof.
  induction fuel as [|fuel IH]; intros pc w Hpc Hps; [done|].
  rewrite createPayment_run_S. unfold bind.
  destruct (createPayment_step_frame req pc w) as (pc' & w' & -> & _ & _ & Hok).
  destruct (Hok Hpc Hps). by apply IH.
Qed.

Lemma cancelPayment_paidAtOk paymentId now w :
  Forall paidAtOk (payments w) ->
  Forall paidAtOk (payments (cancelPayment paymentId now w).2).
Proof.
  intros Hps. destruct (cancelPayment_run paymentId now w) as (r & w' & -> & _ & H).
  cbn [snd]. destruct (ObjectId.fromString paymentId) as [oid|].
  2:{ destruct H as (_ & _ & _ & ->). done. }
  destruct (find _ (payments w)) as [loaded|].
  2:{ destruct H as (_ & _ & _ & ->). done. }
  case_bool_decide.
  2:{ destruct H as (_ & _ & _ & ->). done. }
  destruct H as [-> _]. apply replacePayment_Forall; [done|].
  unfold paidAtOk, cancelledPayment. simpl. split; [by intros [? ?]|done].
Qed.

(** X9: the date of payment follows the status.  If every payment has
    a date of payment exactly when it is approved, this is still so
    after any sequence of creations, notifications and cancellations,
    whatever they answer. *)
Theorem paidAt_follows_status (ops : list PaymentOp) (w : World) :
  Forall paidAtOk (payments w) ->
  Forall paidAtOk (payments (runPaymentOps ops w)).
Proof.
  revert w. induction ops as [|op ops IH]; intros w Hps; [done|].
  cbn [runPaymentOps fold_left]. apply IH. destruct op as [req|wd now|paymentId now].
  - by apply createPayment_run_paidAtOk.
  - by apply handlePaymentWebhook_paidAtOk.
  - by apply cancelPayment_paidAtOk.
Qed.

Lemma calculateTotals_paymentId q : q_paymentId (calculateTotals q) = q_paymentId q.
Proof. unfold calculateTotals. destruct (reduceItems _). reflexivity. Qed.

Lemma replacePayment_elem this loaded ps :
  loaded ∈ ps -> pay_id loaded = pay_id this -> this ∈ replacePayment this ps.
Proof.
  intros Hin Hid. unfold replacePayment. apply list_elem_of_In, in_map_iff.
  exists loaded. rewrite Hid, String.eqb_refl. split; [done|]. by apply list_elem_of_In.
Qed.

Lemma find_pay_id oid ps loaded :
  find (fun p => String.eqb (pay_id p) oid) ps = Some loaded ->
  loaded ∈ ps /\ pay_id loaded = oid.
Proof.
  intros [Hin Heq]%find_some. split; [by apply list_elem_of_In|]. by apply String.eqb_eq.
Qed.

(** X10: [cancelPayment] touches no product and moves no quote.  When
    it answers with success, the payment named was pending and is now
    cancelled, without a date of payment, and its quote, if it is
    pending, no longer refers to a payment; when it answers with an
    error (404 for no such payment, 400 for a payment that is not
    pending) nothing has changed. *)
Theorem cancelPayment_effects (paymentId : string) (now : Z) (w : World) :
  exists r w', cancelPayment paymentId now w = (r, w') /\
    products w' = products w /\ sameStatuses w w' /\
    forall res, r = inr res ->
      if r_success res
      then exists loaded,
             loaded ∈ payments w /\ ObjectId.fromString paymentId = Some (pay_id loaded) /\
             pay_status loaded = pay_pending /\
             payments w' = replacePayment (cancelledPayment loaded) (payments w) /\
             (forall q', quotes w' !! pay_quote loaded = Some q' ->
                         q_status q' = q_pending -> q_paymentId q' = None)
      else sameData w w' /\ (statusCode res = 404 \/ statusCode res = 400).
Proof.
  destruct (cancelPayment_run paymentId now w) as (r & w' & Hrun & Hp & H).
  exists r, w'. split; [done|]. split; [done|].
  destruct (ObjectId.fromString paymentId) as [oid|].
  2:{ destruct H as (-> & _ & Hq & _). split; [by apply sameStatuses_eq|]. done. }
  destruct (find _ (payments w)) as [loaded|] eqn:Hfind.
  2:{ destruct H as (-> & Hs). split; [apply sameStatuses_eq, Hs|].
      intros res [= <-]. simpl. auto. }
  apply find_pay_id in Hfind as [Hin <-].
  case_bool_decide as Hpending.
  2:{ destruct H as (-> & Hs). split; [apply sameStatuses_eq, Hs|].
      intros res [= <-]. simpl. auto. }
  destruct H as [Hy H].
  assert (Hok : quotes w' = quotes w \/
                exists quote, quotes w !! pay_quote loaded = Some quote /\
                  quotes w' = <[pay_quote loaded :=
                                  calculateTotals (setQuotePaymentId quote None)]> (quotes w)).
  { destruct (quotes w !! pay_quote loaded) as [quote|]; [|by left; apply H].
    case_bool_decide; [|by left; apply H].
    destruct (Quote_validate_expiresAt quote now); [right; exists quote|left]; by destruct H. }
  split.
  { destruct Hok as [Hq|(quote & Hq & Hq')]; [by apply sameStatuses_eq|].
    intros id. rewrite Hq'. destruct (decide (pay_quote loaded = id)) as [<-|Hne].
    - rewrite lookup_insert_eq, Hq. simpl. by rewrite calculateTotals_status.
    - by rewrite lookup_insert_ne. }
  intros res ->.
  assert (r_success res = true /\
          forall q', quotes w' !! pay_quote loaded = Some q' ->
                     q_status q' = q_pending -> q_paymentId q' = None) as [-> Hlink].
  { destruct (quotes w !! pay_quote loaded) as [quote|] eqn:Hq.
    - case_bool_decide as Hqs.
      + destruct (Quote_validate_expiresAt quote now); [|by destruct H].
        destruct H as [[= ->] Hq'].
        split; [done|]. intros q'. rewrite Hq', lookup_insert_eq. intros [= <-] _.
        by rewrite calculateTotals_paymentId.
      + destruct H as [[= ->] Hq']. split; [done|]. rewrite Hq', Hq. by intros q' [= <-].
    - destruct H as [[= ->] Hq']. split; [done|]. rewrite Hq', Hq. done. }
  exists loaded. done.
Qed.

(** X11: a cancelled payment still stands in the way.  After
    [cancelPayment] has cancelled the payment of a quote, the payment is
    kept, so a request to create a new payment for that quote, whatever
    the spelling of the id it names the quote by, changes no collection
    and is refused, with "Ya existe un pago para este presupuesto" when
    the quote is still pending. *)
Theorem cancelled_payment_blocks_new_order (paymentId : string) (now : Z) (w w' : World)
    (res : Response) (oid : string) (loaded : Payment) (req : CreatePaymentRequest) :
  ObjectId.fromString paymentId = Some oid ->
  find (fun p => String.eqb (pay_id p) oid) (payments w) = Some loaded ->
  cancelPayment paymentId now w = (inr res, w') ->
  r_success res = true ->
  ObjectId.fromString (cp_quoteId req) = Some (pay_quote loaded) ->
  cancelledPayment loaded ∈ payments w' /\
  exists r w'', createPayment req w' = (inr (Responded r), w'') /\
    products w'' = products w' /\ quotes w'' = quotes w' /\
    payments w'' = payments w' /\ r_success r = false /\
    (forall q, quotes w' !! pay_quote loaded = Some q -> q_status q = q_pending ->
               r = badRequestResponse "Ya existe un pago para este presupuesto").
Proof.
  intros Hoid Hfind Hcancel Hok Hreq.
  destruct (cancelPayment_run paymentId now w) as (r & w0 & Hrun & _ & H).
  rewrite Hcancel in Hrun. injection Hrun as <- <-. rewrite Hoid, Hfind in H.
  apply find_pay_id in Hfind as [Hin Hid].
  case_bool_decide.
  2:{ destruct H as [[= ->] _]. done. }
  destruct H as [Hy _].
  assert (Hkept : cancelledPayment loaded ∈ payments w').
  { rewrite Hy. by apply (replacePayment_elem _ loaded). }
  split; [done|].
  destruct (createPayment_again req (pay_quote loaded) w' Hreq)
    as (r & w'' & Hrun & Hp & Hq & Hpays & Hr).
  { exists (cancelledPayment loaded). split; [by apply list_elem_of_In|done]. }
  exists r, w''. repeat (split; [done|]). split.
  - rewrite Hr. destruct (quotes w' !! pay_quote loaded); [case_bool_decide|]; done.
  - intros q Hq' Hs. rewrite Hr, Hq'. by rewrite bool_decide_true.
Qed.

Lemma cancelled_payment_blocks_new_order_witness :
  cancelledPayment (paymentOf pay_pending)
    ∈ payments (cancelPayment payx 1704100000000 (shopWorld 10 q_pending pay_pending)).2 /\
  exists r w'',
    createPayment requestB
      (cancelPayment payx 1704100000000 (shopWorld 10 q_pending pay_pending)).2
    = (inr (Responded r), w'') /\
    products w''
    = products (cancelPayment payx 1704100000000 (shopWorld 10 q_pending pay_pending)).2 /\
    quotes w''
    = quotes (cancelPayment payx 1704100000000 (shopWorld 10 q_pending pay_pending)).2 /\
    payments w''
    = payments (cancelPayment payx 1704100000000 (shopWorld 10 q_pending pay_pending)).2 /\
    r_success r = false /\
    (forall q,
       quotes (cancelPayment payx 1704100000000 (shopWorld 10 q_pending pay_pending)).2
         !! pay_quote (paymentOf pay_pending) = Some q ->
       q_status q = q_pending ->
       r = badRequestResponse "Ya existe un pago para este presupuesto").
Proof.
  apply (cancelled_payment_blocks_new_order payx 1704100000000
           (shopWorld 10 q_pending pay_pending) _
           (successResponse "Pago cancelado exitosamente") payx (paymentOf pay_pending)
           requestB).
  - reflexivity.
  - reflexivity.
  - vm_compute. reflexivity.
  - reflexivity.
  - reflexivity.
Defined.

Lemma paidAt_follows_status_witness :
  Forall paidAtOk
    (payments (runPaymentOps
                 [OpNotify approvedNotification 1704100000000;
                  OpNotify (mkWebhookData "123456789" "rejected" (Some refx)) 1704100060000;
                  OpCancelPayment payx 1704100120000;
                  OpCreatePayment requestB]
                 (shopWorld 10 q_pending pay_pending))).
Proof.
  apply (paidAt_follows_status
           [OpNotify approvedNotification 1704100000000;
            OpNotify (mkWebhookData "123456789" "rejected" (Some refx)) 1704100060000;
            OpCancelPayment payx 1704100120000;
            OpCreatePayment requestB]
           (shopWorld 10 q_pending pay_pending)).
  repeat constructor; simpl; [by intros [? ?]|done].
Defined.

(** ** Creating a payment: one request on its own *)

Lemma find_none_refersTo quoteId ps :
  find (fun p => String.eqb (pay_quote p) quoteId) ps = None -> ~ refersTo quoteId ps.
Proof.
  intros Hfind (p & Hin & Hq). eapply find_none in Hfind; [|exact Hin].
  simpl in Hfind. rewrite Hq, String.eqb_refl in Hfind. discriminate.
Qed.

Lemma createPayment_from_Responded fuel req r w P :
  P r w -> exists r' w', createPayment_run fuel req (Responded r) w = (inr (Responded r'), w')
                         /\ P r' w'.
Proof. intros HP. rewrite createPayment_run_Responded. eauto. Qed.

Lemma createPayment_catch_run e w :
  createPayment_catch e w
  = (inr (Responded (if includes "MercadoPago" e
                     then errorResponse "Error en el servicio de pagos" 502
                            "PAYMENT_SERVICE_ERROR"
                     else errorResponse "Error interno del servidor" 500 "INTERNAL_ERROR")),
     mkWorld (products w) (quotes w) (payments w)
       (logs w ++ [(Error, "Error creando orden de pago:")])).
Proof.
  unfold createPayment_catch, bind, logger, ret. by destruct (includes "MercadoPago" e).
Qed.

Lemma find_some_refersTo quoteId ps p :
  find (fun p => String.eqb (pay_quote p) quoteId) ps = Some p -> refersTo quoteId ps.
Proof. intros [Hin Heq]%find_some. exists p. split; [done|]. by apply String.eqb_eq. Qed.

Lemma populatedItems_populated (ps : gmap string Product) items :
  populatedItems items (map (fun item => ps !! qi_product item) items)
  = if bool_decide (Exists (fun item => ps !! qi_product item = None) items)
    then None
    else Some (map (fun item => mkStockItem (qi_product item) (qi_quantity item)) items).
Proof.
  induction items as [|item items IH].
  - cbn [map populatedItems]. rewrite bool_decide_false; [done|]. by intros H%Exists_nil.
  - cbn [map populatedItems]. rewrite IH.
    destruct (ps !! qi_product item) as [p|] eqn:Hp.
    + destruct (decide (Exists (fun item => ps !! qi_product item = None) items)) as [He|He].
      * rewrite !bool_decide_true; [done|by apply Exists_cons_tl|done].
      * rewrite !bool_decide_false; [done| |done].
        intros [H|H]%Exists_cons; [congruence|done].
    + rewrite (bool_decide_true (Exists _ (item :: items))); [done|]. by apply Exists_cons_hd.
Qed.

(** X12: [createPayment] always answers, and never touches a product.
    It answers with success only when the id it is given is well formed
    and names a quote that is pending and has no payment, the stock can
    serve every line of the quote, the gateway has given a preference,
    the new payment passes the validators of its schema and the quote
    has not run out; what it has stored then is one new payment,
    pending, without a date of payment, for the total of the quote,
    under the reference QUOTE-number-time, and the quote refers to it.
    When the gateway fails the request fails; a request that fails
    leaves the quotes as they were and stores no payment, unless the
    quote had run out, in which case the payment it made stays.  A
    request for a pending quote without a payment one of whose items
    names a product that is no longer in the collection is answered
    with the internal error, 500. *)
Theorem createPayment_outcome (req : CreatePaymentRequest) (w : World) :
  exists r w', createPayment req w = (inr (Responded r), w') /\
    products w' = products w /\
    (r_success r = true ->
     exists quoteId quote preferenceId,
       ObjectId.fromString (cp_quoteId req) = Some quoteId /\
       quotes w !! quoteId = Some quote /\ q_status quote = q_pending /\
       ~ refersTo quoteId (payments w) /\
       Forall (lineServable (products w)) (stockItemsOf quote) /\
       cp_preferenceId req = Some preferenceId /\
       Payment_validationErrors (newPayment req quoteId quote preferenceId) = [] /\
       cp_now req < q_expiresAt quote /\
       r = createdResponse "Orden de pago creada exitosamente" /\
       payments w' = payments w ++ [newPayment req quoteId quote preferenceId] /\
       q_paymentId <$> quotes w' !! quoteId = Some (Some (cp_newId req))) /\
    (r_success r = false ->
     (payments w' = payments w \/
      exists quoteId quote preferenceId,
        ObjectId.fromString (cp_quoteId req) = Some quoteId /\
        quotes w !! quoteId = Some quote /\ cp_preferenceId req = Some preferenceId /\
        q_expiresAt quote <= cp_now req /\
        payments w' = payments w ++ [newPayment req quoteId quote preferenceId]) /\
     quotes w' = quotes w) /\
    (cp_preferenceId req = None -> r_success r = false) /\
    (forall quoteId quote,
       ObjectId.fromString (cp_quoteId req) = Some quoteId ->
       quotes w !! quoteId = Some quote -> q_status quote = q_pending ->
       ~ refersTo quoteId (payments w) ->
       Exists (fun item => products w !! qi_product item = None) (q_items quote) ->
       r = errorResponse "Error interno del servidor" 500 "INTERNAL_ERROR").
Proof.
  unfold createPayment.
  (* the quote *)
  rewrite createPayment_run_S. unfold bind at 1.
  unfold createPayment_step at 1, try_catch, bind at 1, logger at 1, bind at 1,
    castObjectId, castPath.
  destruct (ObjectId.fromString (cp_quoteId req)) as [quoteId|] eqn:Hcast.
  2:{ unfold throw at 1. rewrite createPayment_catch_run, createPayment_run_Responded.
      do 2 eexists. split; [reflexivity|]. cbn [products quotes payments].
      split; [done|]. split; [by destruct (includes _ _)|].
      split; [intros _; auto|]. split; [by destruct (includes _ _)|]. done. }
  unfold ret at 1. unfold bind at 1, Quote_findById at 1. cbn [quotes].
  destruct (quotes w !! quoteId) as [quote|] eqn:Hquote.
  2:{ unfold ret at 1. rewrite createPayment_run_Responded. do 2 eexists.
      split; [reflexivity|]. cbn [products quotes payments].
      split; [done|]. split; [done|]. split; [intros _; auto|]. split; [done|].
      intros ? ? ? ? ? ? ?; simplify_eq. }
  unfold bind at 1, Quote_populateProducts at 1. cbn [products].
  case_bool_decide as Hpending; cbn [negb].
  2:{ unfold ret at 1. rewrite createPayment_run_Responded. do 2 eexists.
      split; [reflexivity|]. cbn [products quotes payments].
      split; [done|]. split; [done|]. split; [intros _; auto|]. split; [done|].
      intros ? ? ? ? ? ? ?; simplify_eq; contradiction. }
  unfold ret at 1.
  (* the payment there may be *)
  rewrite createPayment_run_S. unfold bind at 1.
  unfold createPayment_step at 1, try_catch, bind at 1, Payment_findOne_byQuote at 1,
    bind at 1, castPath.
  rewrite Hcast. unfold ret at 1. cbn [payments].
  destruct (find (fun p => String.eqb (pay_quote p) quoteId) (payments w))
    as [existing|] eqn:Hexisting.
  { apply find_some_refersTo in Hexisting.
    unfold ret at 1. rewrite createPayment_run_Responded. do 2 eexists.
    split; [reflexivity|]. cbn [products quotes payments].
    split; [done|]. split; [done|]. split; [intros _; auto|]. split; [done|].
    intros ? ? ? ? ? ? ?; simplify_eq; contradiction. }
  apply find_none_refersTo in Hexisting. unfold ret at 1.
  (* the items, populated *)
  rewrite createPayment_run_S. unfold bind at 1.
  unfold createPayment_step at 1, try_catch, bind at 1.
  rewrite populatedStockItems_run, populatedItems_populated.
  case_bool_decide as Hmissing.
  { rewrite createPayment_catch_run.
    replace (includes "MercadoPago" TypeError_null_id) with false by reflexivity.
    rewrite createPayment_run_Responded. do 2 eexists.
    split; [reflexivity|]. cbn [products quotes payments].
    split; [done|]. split; [done|]. split; [intros _; auto|]. split; [done|]. done. }
  fold (stockItemsOf quote).
  (* the stock *)
  unfold bind at 1.
  match goal with |- context [validateStock (stockItemsOf quote) ?w0] =>
    set (w1 := w0);
    destruct (validateStock_run (stockItemsOf quote) w1) as (w2 & (Hp2 & Hq2 & Hy2) & Hval & _)
  end.
  rewrite Hval. subst w1. simpl in Hp2, Hq2, Hy2. cbn [products].
  destruct (objectIds (stockItemsOf quote)) as [ids|] eqn:Hids.
  2:{ rewrite createPayment_catch_run.
      replace (includes "MercadoPago" "Error validando disponibilidad de stock")
        with false by reflexivity.
      rewrite createPayment_run_Responded. do 2 eexists.
      split; [reflexivity|]. cbn [products quotes payments].
      split; [done|]. split; [done|]. split; [intros _; auto|]. split; [done|].
      intros ? ? ? ? ? ? ?; simplify_eq; contradiction. }
  cbn [isValid].
  destruct (validateItems (activeAmong ids (products w)) (stockItemsOf quote))
    as [|err errs] eqn:Hitems.
  2:{ cbn [length Nat.eqb negb]. unfold ret at 1. rewrite createPayment_run_Responded.
      do 2 eexists. split; [reflexivity|]. cbn [products quotes payments].
      split; [done|]. split; [done|]. split; [intros _; auto|]. split; [done|].
      intros ? ? ? ? ? ? ?; simplify_eq; contradiction. }
  assert (Hserve : Forall (lineServable (products w)) (stockItemsOf quote)).
  { apply Forall_forall. intros item Hin. apply list_elem_of_In in Hin.
    destruct (validateItems_nil _ _ Hitems item Hin) as (p & Hpm & Hv).
    by eapply snapshot_lineServable. }
  cbn [length Nat.eqb negb]. unfold ret at 1.
  (* the gateway *)
  rewrite createPayment_run_S. unfold bind at 1.
  unfold createPayment_step at 1, try_catch.
  destruct (cp_preferenceId req) as [preferenceId|] eqn:Hpref.
  2:{ unfold throw at 1. rewrite createPayment_catch_run.
      replace (includes "MercadoPago" "Error en MercadoPago: ") with true by reflexivity.
      rewrite createPayment_run_Responded. do 2 eexists.
      split; [reflexivity|]. cbn [products quotes payments].
      split; [done|]. split; [done|]. split; [intros _; auto|]. split; [done|].
      intros ? ? ? ? ? ? ?; simplify_eq; contradiction. }
  unfold bind at 1, castPath. rewrite Hcast. unfold ret at 1, ret at 1.
  fold (newPayment req quoteId quote preferenceId).
  (* the validation and the pre-save hook *)
  rewrite createPayment_run_S. unfold bind at 1.
  unfold createPayment_step at 1, try_catch, bind at 1, Payment_validate at 1.
  destruct (Payment_validationErrors (newPayment req quoteId quote preferenceId))
    as [|verr verrs] eqn:Hvalid.
  2:{ unfold throw at 1. rewrite createPayment_catch_run, createPayment_run_Responded.
      do 2 eexists. split; [reflexivity|]. cbn [products quotes payments].
      split; [done|]. split; [by destruct (includes _ _)|].
      split; [intros _; auto|]. split; [by destruct (includes _ _)|].
      intros ? ? ? ? ? ? ?; simplify_eq; contradiction. }
  unfold ret at 1. unfold bind at 1, Payment_preSave_unique at 1.
  destruct (find _ (payments w2)).
  { rewrite createPayment_catch_run.
    replace (includes "MercadoPago" "Ya existe un pago para este presupuesto")
      with false by reflexivity.
    rewrite createPayment_run_Responded. do 2 eexists.
    split; [reflexivity|]. cbn [products quotes payments].
    split; [done|]. split; [done|]. split; [intros _; auto|]. split; [done|].
    intros ? ? ? ? ? ? ?; simplify_eq; contradiction. }
  unfold ret at 1.
  (* the insert *)
  rewrite createPayment_run_S. unfold bind at 1.
  unfold createPayment_step at 1, try_catch, bind at 1, Payment_insert at 1.
  destruct (duplicatesKey (newPayment req quoteId quote preferenceId) (payments w2)).
  { rewrite createPayment_catch_run.
    replace (includes "MercadoPago" "E11000 duplicate key error") with false by reflexivity.
    rewrite createPayment_run_Responded. do 2 eexists.
    split; [reflexivity|]. cbn [products quotes payments].
    split; [done|]. split; [done|]. split; [intros _; auto|]. split; [done|].
    intros ? ? ? ? ? ? ?; simplify_eq; contradiction. }
  unfold ret at 1.
  (* the link *)
  rewrite createPayment_run_S. unfold bind at 1.
  unfold createPayment_step at 1, try_catch, bind at 1, Quote_linkPayment at 1.
  unfold Quote_validate_expiresAt.
  destruct (Z.ltb_spec (cp_now req) (q_expiresAt quote)) as [Hnow|Hnow].
  - unfold bind, logger, ret. cbn [createPayment_run]. unfold ret. do 2 eexists.
    split; [reflexivity|]. cbn [products quotes payments r_success createdResponse].
    split; [done|]. split; [|split; [done|split; [congruence|]]].
    + intros _. exists quoteId, quote, preferenceId.
      repeat (split; [done|]). split; [by rewrite Hy2|].
      cbn [newPayment pay_quote pay_id].
      rewrite lookup_alter_eq, Hq2, Hquote. simpl. by rewrite calculateTotals_paymentId.
    + intros ? ? ? ? ? ? ?; simplify_eq; contradiction.
  - rewrite createPayment_catch_run.
    replace (includes "MercadoPago" Quote_ValidationError) with false by reflexivity.
    cbn [createPayment_run]. unfold ret. do 2 eexists.
    split; [reflexivity|]. cbn [products quotes payments r_success errorResponse].
    split; [done|]. split; [done|]. split; [|split; [done|]].
    + intros _. split; [|done]. right.
      exists quoteId, quote, preferenceId. rewrite Hy2. done.
    + intros ? ? ? ? ? ? ?; simplify_eq; contradiction.
Qed.

Lemma other_notifications_touch_only_the_payment_witness :
  exists w',
    handlePaymentWebhook (mkWebhookData "123456789" "rejected" (Some refx)) 1704100000000
      (shopWorld 10 q_paid pay_approved) = (inr tt, w') /\
    products w' = products (shopWorld 10 q_paid pay_approved) /\
    quotes w' = quotes (shopWorld 10 q_paid pay_approved) /\
    payments w'
    = match matched (mkWebhookData "123456789" "rejected" (Some refx))
              (shopWorld 10 q_paid pay_approved),
            otherStatus (wd_status (mkWebhookData "123456789" "rejected" (Some refx))) with
      | Some loaded, Some s =>
          replacePayment
            (afterNotification loaded s (mkWebhookData "123456789" "rejected" (Some refx)))
            (payments (shopWorld 10 q_paid pay_approved))
      | _, _ => payments (shopWorld 10 q_paid pay_approved)
      end.
Proof.
  apply (other_notifications_touch_only_the_payment
           (mkWebhookData "123456789" "rejected" (Some refx)) 1704100000000
           (shopWorld 10 q_paid pay_approved)).
  simpl. discriminate.
Defined.

(** ** The stock of a product, set by hand *)

Lemma setStock_incStock p delta :
  incStock delta p = setStock p (Number_round (p_stock p + delta)).
Proof. reflexivity. Qed.

Lemma Number_round_exact z :
  - MAX_SAFE_INTEGER <= z <= MAX_SAFE_INTEGER -> Number_round z = z.
Proof.
  intros Hz. apply Number_round_safe. rewrite MAX_SAFE_INTEGER_value in Hz.
  change (2 ^ 53) with 9007199254740992. lia.
Qed.

Lemma insert_insert_same (ps : gmap string Product) k p p' :
  ps !! k = Some p -> <[k := p]> (<[k := p']> ps) = ps.
Proof.
  intros Hp. apply map_eq. intros k'. destruct (decide (k = k')) as [<-|Hne].
  - by rewrite lookup_insert_eq.
  - by rewrite !lookup_insert_ne.
Qed.

Lemma updateStock_run id stock operation w :
  exists r w', updateStock id stock operation w = (r, w') /\
    quotes w' = quotes w /\ payments w' = payments w /\
    if stock <? 0
    then r = inl "El stock debe ser un número no negativo" /\ products w' = products w
    else
      match ObjectId.fromString id with
      | None => r = inl (CastError id "_id" "Product") /\ products w' = products w
      | Some oid =>
          match products w !! oid with
          | None => r = inr (notFoundResponse "Producto no encontrado") /\
                    products w' = products w
          | Some p =>
              let target :=
                if String.eqb (default "set" operation) "increment"
                then Number_round (p_stock p + stock)
                else if String.eqb (default "set" operation) "decrement"
                     then Number_round (p_stock p + - stock)
                     else stock in
              if target <? 0
              then r = inl "La operación resultaría en stock negativo" /\
                   products w' = <[oid := setStock p (Number_round (target + stock))]> (products w)
              else r = inr (updatedResponse "Stock actualizado exitosamente") /\
                   products w' = <[oid := setStock p target]> (products w)
          end
      end.
Proof.
  unfold updateStock, try_catch.
  destruct (stock <? 0).
  { unfold throw, bind, logger. do 2 eexists. split; [reflexivity|]. done. }
  unfold bind at 1, Product_findByIdAndUpdate at 1, bind at 1, castObjectId at 1, castPath at 1.
  destruct (ObjectId.fromString id) as [oid|] eqn:Hoid.
  2:{ unfold throw, bind, logger. do 2 eexists. split; [reflexivity|]. done. }
  unfold ret at 1. destruct (products w !! oid) as [p|] eqn:Hp.
  2:{ unfold ret. do 2 eexists. split; [reflexivity|]. done. }
  cbv zeta.
  set (u := if String.eqb (default "set" operation) "increment" then IncStock stock
            else if String.eqb (default "set" operation) "decrement" then IncStock (- stock)
            else SetStock stock).
  assert (Hu : applyUpdate u p
               = setStock p (if String.eqb (default "set" operation) "increment"
                             then Number_round (p_stock p + stock)
                             else if String.eqb (default "set" operation) "decrement"
                                  then Number_round (p_stock p + - stock)
                                  else stock)).
  { subst u. destruct (String.eqb _ "increment"); [done|].
    by destruct (String.eqb _ "decrement"). }
  rewrite Hu. cbn [p_stock setStock].
  destruct (_ <? 0) eqn:Hneg.
  - unfold bind at 1, Product_findByIdAndUpdate at 1, bind at 1, castObjectId at 1, castPath at 1.
    rewrite Hoid. unfold ret at 1. cbn [products]. rewrite lookup_insert_eq.
    unfold throw, bind, logger. do 2 eexists. split; [reflexivity|].
    cbn [products quotes payments]. split; [done|]. split; [done|]. split; [done|].
    apply map_eq. intros k. destruct (decide (oid = k)) as [<-|Hne].
    + by rewrite !lookup_insert_eq.
    + by rewrite !lookup_insert_ne.
  - unfold bind, logger, ret. do 2 eexists. split; [reflexivity|]. done.
Qed.

(** X13: [updateStock] on a product whose stock is not negative, with
    a stock that is not negative either, the two together within
    [Number.MAX_SAFE_INTEGER].  The operation [increment] adds,
    [decrement] takes away and any other sets; a decrement by more than
    there is throws and the stock is again what it was.  In every case
    the stock of the product is not negative afterwards, and nothing
    else has changed. *)
Theorem updateStock_keeps_stock_non_negative (id : string) (stock : Z)
    (operation : option string) (w : World) (oid : string) (p : Product) :
  ObjectId.fromString id = Some oid ->
  products w !! oid = Some p ->
  0 <= p_stock p -> 0 <= stock ->
  p_stock p + stock <= MAX_SAFE_INTEGER ->
  exists r w', updateStock id stock operation w = (r, w') /\
    quotes w' = quotes w /\ payments w' = payments w /\
    (if targetStock operation (p_stock p) stock <? 0
     then default "set" operation = "decrement" /\
          r = inl "La operación resultaría en stock negativo" /\
          products w' = products w
     else r = inr (updatedResponse "Stock actualizado exitosamente") /\
          products w'
          = <[oid := setStock p (targetStock operation (p_stock p) stock)]> (products w)) /\
    (exists p', products w' !! oid = Some p' /\ 0 <= p_stock p').
Proof.
  intros Hoid Hp Hp0 Hs0 Hmax.
  destruct (updateStock_run id stock operation w) as (r & w' & Hrun & Hq & Hy & H).
  exists r, w'. split; [done|]. split; [done|]. split; [done|].
  destruct (Z.ltb_spec stock 0) as [?|_]; [lia|]. rewrite Hoid, Hp in H. cbv zeta in H.
  rewrite (Number_round_exact (p_stock p + stock)) in H by lia.
  rewrite (Number_round_exact (p_stock p + - stock)) in H by lia.
  replace (p_stock p + - stock) with (p_stock p - stock) in H by lia.
  fold (targetStock operation (p_stock p) stock) in H.
  destruct (Z.ltb_spec (targetStock operation (p_stock p) stock) 0) as [Hneg|Hpos].
  - destruct H as [-> Hps]. unfold targetStock in *.
    destruct (String.eqb_spec (default "set" operation) "increment") as [_|_]; [lia|].
    destruct (String.eqb_spec (default "set" operation) "decrement") as [Hop|_]; [|lia].
    assert (products w' = products w) as Hsame.
    { rewrite Hps. replace (p_stock p - stock + stock) with (p_stock p) by lia.
      rewrite Number_round_exact by lia.
      apply map_eq. intros k. destruct (decide (oid = k)) as [<-|Hne].
      - rewrite lookup_insert_eq, Hp. by destruct p.
      - by rewrite lookup_insert_ne. }
    split; [done|]. exists p. by rewrite Hsame.
  - destruct H as [-> Hps]. split; [done|]. eexists. rewrite Hps, lookup_insert_eq.
    split; [reflexivity|]. done.
Qed.

(** ** A product that was deleted *)

Lemma deleteProduct_run id w :
  exists r w', deleteProduct id w = (r, w') /\
    quotes w' = quotes w /\ payments w' = payments w /\
    match ObjectId.fromString id with
    | None => r = inl (CastError id "_id" "Product") /\ products w' = products w
    | Some oid =>
        match products w !! oid with
        | None => r = inr (notFoundResponse "Producto no encontrado") /\
                  products w' = products w
        | Some p => r = inr (successResponse "Producto eliminado exitosamente") /\
                    products w' = <[oid := setIsActive p false]> (products w)
        end
    end.
Proof.
  unfold deleteProduct, try_catch.
  unfold bind at 1, Product_findByIdAndUpdate at 1, bind at 1, castObjectId at 1, castPath at 1.
  destruct (ObjectId.fromString id) as [oid|] eqn:Hoid.
  2:{ unfold throw, bind, logger. do 2 eexists. split; [reflexivity|]. done. }
  unfold ret at 1. destruct (products w !! oid) as [p|] eqn:Hp.
  - unfold bind, logger, ret. do 2 eexists. split; [reflexivity|]. done.
  - unfold ret. do 2 eexists. split; [reflexivity|]. done.
Qed.

Lemma decrementStock_found items w :
  exists res w', decrementStock items w = (inr res, w') /\
    (success res = true -> Forall (lineFound (products w)) items) /\
    (success res = false -> products w' = products w).
Proof.
  destruct (decrementStock_run items w) as (res & w' & Hrun & Hout).
  destruct (decrementStock_spec items w) as (res0 & w0 & Hrun0 & _ & Hspec).
  rewrite Hrun in Hrun0. injection Hrun0 as <- <-.
  exists res, w'. split; [done|]. split.
  2:{ intros Hf. rewrite Hf in Hspec. by destruct Hspec. }
  unfold decrementOutcome in Hout.
  destruct (objectIds items) as [ids|] eqn:Hids; [|by destruct Hout as [-> _]].
  cbv zeta in Hout.
  destruct (validateItems (activeAmong ids (products w)) items) as [|err errs0] eqn:Hval;
    [|by destruct Hout as [-> _]].
  intros _. apply Forall_forall. intros item Hin%list_elem_of_In.
  destruct (validateItems_nil _ _ Hval item Hin) as (p & Hpm & Hv).
  destruct (snapshot_lineServable items ids (products w) item p Hids Hpm Hv)
    as (Hc & p' & Hp' & Ha & _).
  split; [done|]. by exists p'.
Qed.

(** X14: [deleteProduct] keeps the product, with its stock, and marks
    it inactive; no other document changes.  From then on the stock
    service does not find it.  For a batch with a line for it,
    [validateStock] reports the line as naming a product that is not
    found when every id of the batch is well formed, and throws,
    leaving the products alone, when one is not; and neither
    [decrementStock] nor [incrementStock] changes any stock, whatever
    else the batch holds. *)
Theorem deleted_product_is_out_of_the_ledger (id : string) (w : World) (oid : string)
    (p : Product) :
  ObjectId.fromString id = Some oid ->
  products w !! oid = Some p ->
  exists w', deleteProduct id w = (inr (successResponse "Producto eliminado exitosamente"), w') /\
    quotes w' = quotes w /\ payments w' = payments w /\
    products w' = <[oid := setIsActive p false]> (products w) /\
    forall items item,
      In item items -> ObjectId.fromString (productId item) = Some oid ->
      (Forall validId items ->
       exists res w'', validateStock items w' = (inr res, w'') /\ isValid res = false /\
         mkValidationError (productId item) "Producto no encontrado" (quantity item) 0
           ∈ v_errors res) /\
      (~ Forall validId items ->
       exists w'', validateStock items w'
                   = (inl "Error validando disponibilidad de stock", w'') /\
         products w'' = products w') /\
      (exists res w'', decrementStock items w' = (inr res, w'') /\
         success res = false /\ products w'' = products w') /\
      (exists res w'', incrementStock items w' = (inr res, w'') /\
         success res = false /\ products w'' = products w').
Proof.
  intros Hoid Hp.
  destruct (deleteProduct_run id w) as (r & w' & Hrun & Hq & Hy & H).
  rewrite Hoid, Hp in H. destruct H as [-> Hps]. exists w'.
  split; [done|]. split; [done|]. split; [done|]. split; [done|].
  intros items item Hin Hitem.
  assert (Hnot : ~ lineFound (products w') item).
  { intros (Hc & p' & Hp' & Ha). unfold canonicalId in Hc. rewrite Hc in Hitem.
    injection Hitem as Hitem. rewrite Hitem, Hps, lookup_insert_eq in Hp'.
    injection Hp' as <-. discriminate. }
  assert (Hnot' : ~ lineServable (products w') item).
  { intros (Hc & p' & Hp' & Ha & _). apply Hnot. split; [done|]. by exists p'. }
  assert (Herr : lineError (products w') item
                 = Some (mkValidationError (productId item) "Producto no encontrado"
                           (quantity item) 0)).
  { unfold lineError.
    destruct (foundActive (products w') item) as [p'|] eqn:Hf; [|done].
    destruct Hnot. unfold foundActive in Hf. case_bool_decide as Hc; [|done].
    destruct (products w' !! productId item) as [p''|] eqn:Hp''; [|done].
    destruct (p_isActive p'') eqn:Ha; [|done]. split; [done|]. by exists p''. }
  apply list_elem_of_In in Hin.
  split; [|split; [|split]].
  - intros Hv. destruct (validateStock_verdict items w' Hv) as (res & w'' & -> & _ & He & Hiff).
    exists res, w''. split; [done|]. split.
    + destruct (isValid res); [|done]. destruct Hnot'.
      destruct Hiff as [Hiff _]. specialize (Hiff eq_refl).
      rewrite Forall_forall in Hiff. by apply Hiff.
    + rewrite He. apply list_elem_of_omap. by exists item.
  - intros Hinvalid. destruct (validateStock_invalid items w' Hinvalid) as (w'' & -> & Hps' & _).
    by exists w''.
  - destruct (decrementStock_found items w') as (res & w'' & -> & Hfound & Hfail).
    exists res, w''. split; [done|].
    assert (success res = false) as Hf.
    { destruct (success res); [|done]. destruct Hnot.
      specialize (Hfound eq_refl). rewrite Forall_forall in Hfound. by apply Hfound. }
    split; [done|]. by apply Hfail.
  - destruct (incrementStock_char items w') as (res & w'' & -> & _ & Hiff & Hfail & _).
    exists res, w''. split; [done|].
    assert (success res = false) as Hf.
    { destruct (success res); [|done]. destruct Hnot.
      destruct Hiff as [Hiff _]. specialize (Hiff eq_refl).
      rewrite Forall_forall in Hiff. by apply Hiff. }
    split; [done|]. by apply Hfail.
Qed.

(** ** The decrement of the product model *)

(** X15: [Product.decrementStock] on a stored product, the stock and
    the quantity together within [Number.MAX_SAFE_INTEGER] in
    magnitude: a quantity the product has is taken from the stock, and
    the document in hand gets the new stock; a larger quantity throws
    "Stock insuficiente" and the stock is again what it was.  For a
    product that is not stored it throws "Producto no encontrado".
    Nothing else changes. *)
Theorem Product_decrementStock_effects (id : string) (this : Product) (quantity : Z)
    (w : World) :
  exists r w', Product_decrementStock id this quantity w = (r, w') /\
    quotes w' = quotes w /\ payments w' = payments w /\
    match products w !! id with
    | None => r = inl "Producto no encontrado" /\ products w' = products w
    | Some p =>
        Z.abs (p_stock p) + Z.abs quantity <= MAX_SAFE_INTEGER ->
        if quantity <=? p_stock p
        then r = inr (setStock this (p_stock p - quantity)) /\
             products w' = <[id := setStock p (p_stock p - quantity)]> (products w)
        else r = inl "Stock insuficiente" /\ products w' = products w
    end.
Proof.
  assert (Hworld : exists r w', Product_decrementStock id this quantity w = (r, w') /\
                     quotes w' = quotes w /\ payments w' = payments w).
  { unfold Product_decrementStock, bind at 1, Product_findByIdAndUpdate_inc at 1.
    destruct (products w !! id) as [p|].
    2:{ unfold throw. do 2 eexists. split; [reflexivity|]. done. }
    cbv zeta. destruct (p_stock (incStock (- quantity) p) <? 0).
    - unfold bind, Product_findByIdAndUpdate_inc, throw. cbn [products].
      rewrite lookup_insert_eq. do 2 eexists. split; [reflexivity|]. done.
    - unfold ret. do 2 eexists. split; [reflexivity|]. done. }
  destruct Hworld as (r & w' & Hrun & Hq & Hy). exists r, w'.
  split; [done|]. split; [done|]. split; [done|].
  revert Hrun. unfold Product_decrementStock, bind at 1, Product_findByIdAndUpdate_inc at 1.
  destruct (products w !! id) as [p|] eqn:Hp.
  2:{ unfold throw. by intros [= <- <-]. }
  intros Hrun Hmax. revert Hrun. cbv zeta.
  rewrite (incStock_exact (- quantity) p) by lia. cbn [adjustStock p_stock].
  destruct (Z.ltb_spec (p_stock p + - quantity) 0) as [Hneg|Hpos];
    destruct (Z.leb_spec quantity (p_stock p)) as [Hle|Hgt]; try lia.
  - unfold bind, Product_findByIdAndUpdate_inc, throw. cbn [products].
    rewrite lookup_insert_eq. rewrite incStock_exact by (cbn [adjustStock p_stock]; lia).
    intros [= <- <-]. split; [done|]. cbn [products].
    apply map_eq. intros k. destruct (decide (id = k)) as [<-|Hne].
    + rewrite lookup_insert_eq, Hp. unfold adjustStock. simpl. destruct p. simpl.
      do 2 f_equal. lia.
    + by rewrite !lookup_insert_ne.
  - unfold ret. intros [= <- <-]. cbn [products].
    replace (p_stock p + - quantity) with (p_stock p - quantity) by lia. done.
Qed.

Lemma updateStock_keeps_stock_non_negative_witness :
  exists r w', updateStock px 5 (Some "decrement") (stockWorld 3) = (r, w') /\
    quotes w' = quotes (stockWorld 3) /\ payments w' = payments (stockWorld 3) /\
    (if targetStock (Some "decrement") (p_stock (mkProduct "Mouse" 100 3 true)) 5 <? 0
     then default "set" (Some "decrement") = "decrement" /\
          r = inl "La operación resultaría en stock negativo" /\
          products w' = products (stockWorld 3)
     else r = inr (updatedResponse "Stock actualizado exitosamente") /\
          products w'
          = <[px := setStock (mkProduct "Mouse" 100 3 true)
                      (targetStock (Some "decrement")
                         (p_stock (mkProduct "Mouse" 100 3 true)) 5)]>
              (products (stockWorld 3))) /\
    (exists p', products w' !! px = Some p' /\ 0 <= p_stock p').
Proof.
  apply (updateStock_keeps_stock_non_negative px 5 (Some "decrement") (stockWorld 3) px
           (mkProduct "Mouse" 100 3 true)).
  - reflexivity.
  - reflexivity.
  - simpl. lia.
  - lia.
  - rewrite MAX_SAFE_INTEGER_value. simpl. lia.
Defined.

Lemma deleted_product_is_out_of_the_ledger_witness :
  exists w', deleteProduct px (stockWorld 3)
             = (inr (successResponse "Producto eliminado exitosamente"), w') /\
    quotes w' = quotes (stockWorld 3) /\ payments w' = payments (stockWorld 3) /\
    products w' = <[px := setIsActive (mkProduct "Mouse" 100 3 true) false]>
                    (products (stockWorld 3)) /\
    forall items item,
      In item items -> ObjectId.fromString (productId item) = Some px ->
      (Forall validId items ->
       exists res w'', validateStock items w' = (inr res, w'') /\ isValid res = false /\
         mkValidationError (productId item) "Producto no encontrado" (quantity item) 0
           ∈ v_errors res) /\
      (~ Forall validId items ->
       exists w'', validateStock items w'
                   = (inl "Error validando disponibilidad de stock", w'') /\
         products w'' = products w') /\
      (exists res w'', decrementStock items w' = (inr res, w'') /\
         success res = false /\ products w'' = products w') /\
      (exists res w'', incrementStock items w' = (inr res, w'') /\
         success res = false /\ products w'' = products w').
Proof.
  apply (deleted_product_is_out_of_the_ledger px (stockWorld 3) px
           (mkProduct "Mouse" 100 3 true)).
  - reflexivity.
  - reflexivity.
Defined.

(** ** The notification endpoint *)

Lemma handlePaymentWebhook_throws wd now w e w' :
  handlePaymentWebhook wd now w = (inl e, w') -> sameData w w'.
Proof.
  destruct (matched wd w) as [loaded|] eqn:Hm.
  2:{ destruct (handlePaymentWebhook_unmatched wd now w Hm) as (w0 & -> & _). done. }
  destruct (String.eqb (wd_status wd) "approved") eqn:Happroved.
  2:{ apply String.eqb_neq in Happroved.
      destruct (handlePaymentWebhook_other wd now w Happroved) as (w0 & -> & _). done. }
  rewrite (handlePaymentWebhook_matched wd now w loaded Hm), Happroved.
  unfold try_catch, bind at 1, logger at 1. unfold bind at 1, ret at 1.
  unfold bind at 1. unfold bind at 1, Quote_findById at 1.
  cbn [quotes setPaidAt setPaymentStatus pay_quote].
  assert (Hsave : forall w0,
            (savePaymentAfterWebhook loaded
               (setPaidAt (setPaymentStatus loaded pay_approved) (Some now)) wd now w0).1
            = inr tt).
  { intros w0. reflexivity. }
  destruct (quotes w !! pay_quote loaded) as [quote|].
  2:{ unfold ret at 1. intros H. pose proof (Hsave
        (mkWorld (products w) (quotes w) (payments w)
           (logs w ++ [(Info, "Procesando webhook de pago")]))) as Hs.
      destruct (savePaymentAfterWebhook _ _ _ _ _) as [r0 w0]. simpl in Hs. subst r0.
      discriminate. }
  unfold bind at 1, Quote_save at 1.
  destruct (Quote_validate_expiresAt (setQuoteStatus quote q_paid) now).
  2:{ unfold throw, bind, logger. intros [= <- <-]. done. }
  unfold bind at 1.
  match goal with |- context [decrementStock ?items ?w0] =>
    destruct (decrementStock_spec items w0) as (res & w2 & -> & _) end.
  intros H.
  destruct (success res); cbn [negb] in H; unfold logger at 1 in H;
    match type of H with context [savePaymentAfterWebhook ?a ?b ?c ?d ?w0] =>
      pose proof (Hsave w0) as Hs;
      destruct (savePaymentAfterWebhook a b c d w0) as [r0 w0'] end;
    simpl in Hs; subst r0; discriminate.
Qed.

Section Notifications.

Context (Js_toString : Json -> string).
Context (hmacSha256Hex : string -> Json -> string).
Context (sdk_payment_get : Json -> option string + option PaymentResponse).
Context (MERCADOPAGO_ACCESS_TOKEN : option string).

Lemma getPaymentStatus_sameData paymentId w :
  exists r w', MercadoPagoService_getPaymentStatus sdk_payment_get paymentId w = (r, w') /\
               sameData w w'.
Proof.
  unfold MercadoPagoService_getPaymentStatus, try_catch, bind, logger, throw, ret.
  destruct (sdk_payment_get paymentId) as [rejection|[payment|]];
    do 2 eexists; (split; [reflexivity|done]).
Qed.

Lemma service_processWebhook_sameData webhookData signature w :
  exists r w',
    MercadoPagoService_processWebhook Js_toString hmacSha256Hex sdk_payment_get
      MERCADOPAGO_ACCESS_TOKEN webhookData signature w = (r, w') /\
    sameData w w'.
Proof.
  unfold MercadoPagoService_processWebhook, try_catch, bind at 1, logger at 1.
  unfold bind at 1. cbv zeta.
  destruct (negb _ || negb _).
  { unfold throw, bind, logger. do 2 eexists. split; [reflexivity|done]. }
  destruct (match signature with Some _ => _ | None => false end).
  { unfold bind, logger, ret. do 2 eexists. split; [reflexivity|done]. }
  destruct (isText "payment" _).
  { unfold bind at 1.
    match goal with |- context [MercadoPagoService_getPaymentStatus _ ?i ?w0] =>
      destruct (getPaymentStatus_sameData i w0) as (r & w1 & -> & Hp & Hq & Hy) end.
    simpl in Hp, Hq, Hy.
    destruct r as [e|payment]; unfold bind, logger, ret, throw;
      do 2 eexists; (split; [reflexivity|done]). }
  destruct (isText "merchant_order" _); unfold bind, logger, ret;
    do 2 eexists; (split; [reflexivity|done]).
Qed.

(** X16: the notification endpoint always answers 200, whatever the
    body, the signature, the answer of the gateway and the state of the
    collections; and unless the answer says that the notification was
    processed, no product, quote or payment has changed. *)
Theorem processWebhook_always_answers_200 (body : option Json) (signature : option string)
    (now : Z) (w : World) :
  exists r w',
    processWebhook Js_toString hmacSha256Hex sdk_payment_get MERCADOPAGO_ACCESS_TOKEN
      body signature now w = (inr r, w') /\
    wr_status r = 200 /\
    (wr_processed r <> Some true -> sameData w w').
Proof.
  unfold processWebhook, try_catch.
  assert (Hcatch : forall w0, sameData w w0 ->
    exists r w',
      (logger Error "Error procesando webhook:" ;;;
       ret (mkWebhookResponse 200 true (Some false) None (Some "Processing error"))) w0
      = (inr r, w') /\ wr_status r = 200 /\ (wr_processed r <> Some true -> sameData w w')).
  { intros w0 Hs. unfold bind, logger, ret. do 2 eexists. split; [reflexivity|]. done. }
  destruct body as [webhookData|]; [|by apply Hcatch].
  assert (Hbody :
    exists r w',
      (let (s, w'0) :=
         (logger Info "Webhook recibido de MercadoPago" ;;;
          processedData <- MercadoPagoService_processWebhook Js_toString hmacSha256Hex
                             sdk_payment_get MERCADOPAGO_ACCESS_TOKEN webhookData signature ;;
          if negb (pw_isValid processedData)
          then
            logger Warn "Webhook con firma inválida rechazado" ;;;
            ret (mkWebhookResponse 200 false None None (Some "Invalid signature"))
          else
            (if isText "payment" (pw_topic processedData)
             then handlePaymentWebhook (pw_data processedData) now
             else logger Info "Webhook no procesado (tipo no soportado)") ;;;
            ret (mkWebhookResponse 200 true
                   (Some (isText "payment" (pw_topic processedData)))
                   (Some (wd_paymentId (pw_data processedData))) None)) w in
       match s with
       | inl e =>
           (logger Error "Error procesando webhook:" ;;;
            ret (mkWebhookResponse 200 true (Some false) None (Some "Processing error"))) w'0
       | inr a => (inr a, w'0)
       end) = (inr r, w') /\
      wr_status r = 200 /\ (wr_processed r <> Some true -> sameData w w')).
  { unfold bind at 1, logger at 1. unfold bind at 1.
    match goal with |- context [MercadoPagoService_processWebhook _ _ _ _ _ _ ?w0] =>
      destruct (service_processWebhook_sameData webhookData signature w0)
        as (r & w1 & -> & Hp & Hq & Hy) end.
    simpl in Hp, Hq, Hy.
    destruct r as [e|processedData]; [by apply Hcatch|].
    destruct (negb (pw_isValid processedData)).
    { unfold bind, logger, ret. do 2 eexists. split; [reflexivity|]. done. }
    destruct (isText "payment" (pw_topic processedData)).
    2:{ unfold bind, logger, ret. do 2 eexists. split; [reflexivity|]. done. }
    unfold bind at 1.
    destruct (handlePaymentWebhook (pw_data processedData) now w1) as [[e|[]] w2] eqn:Hh.
    - apply handlePaymentWebhook_throws in Hh as (Hp2 & Hq2 & Hy2).
      apply Hcatch. split; [|split]; congruence.
    - unfold ret. do 2 eexists. split; [reflexivity|]. done. }
  destruct webhookData; try exact Hbody. by apply Hcatch.
Qed.

(** X17: the signature is optional.  A notification that carries no
    signature, or an empty one, is handled exactly as one whose
    signature is valid: same answer, same changes.  One that carries a
    signature that is not valid is answered 200 with [received: false]
    and changes nothing. *)
Theorem unsigned_notification_is_accepted (webhookData : Json) (signature : string)
    (now : Z) (w : World) :
  (validateWebhookSignature hmacSha256Hex MERCADOPAGO_ACCESS_TOKEN webhookData signature = true
   \/ signature = "" ->
   processWebhook Js_toString hmacSha256Hex sdk_payment_get MERCADOPAGO_ACCESS_TOKEN
     (Some webhookData) (Some signature) now w
   = processWebhook Js_toString hmacSha256Hex sdk_payment_get MERCADOPAGO_ACCESS_TOKEN
       (Some webhookData) None now w) /\
  (validateWebhookSignature hmacSha256Hex MERCADOPAGO_ACCESS_TOKEN webhookData signature = false ->
   signature <> "" ->
   truthyJson (property "type" (Some webhookData)) = true ->
   truthyJson (property "id" (property "data" (Some webhookData))) = true ->
   exists w',
     processWebhook Js_toString hmacSha256Hex sdk_payment_get MERCADOPAGO_ACCESS_TOKEN
       (Some webhookData) (Some signature) now w
     = (inr (mkWebhookResponse 200 false None None (Some "Invalid signature")), w') /\
     sameData w w').
Proof.
  split.
  - intros Hsig.
    assert (truthy signature
            && negb (validateWebhookSignature hmacSha256Hex MERCADOPAGO_ACCESS_TOKEN
                       webhookData signature) = false) as Hcond.
    { destruct Hsig as [->| ->]; [apply andb_false_r|reflexivity]. }
    unfold processWebhook, MercadoPagoService_processWebhook. rewrite Hcond. reflexivity.
  - intros Hinvalid Hne Htype Hid.
    assert (truthy signature = true) as Htruthy.
    { unfold truthy. apply negb_true_iff. by apply String.eqb_neq. }
    assert (exists fields, webhookData = JObj fields) as [fields ->].
    { destruct webhookData; try discriminate. by eexists. }
    unfold processWebhook, try_catch, bind at 1, logger at 1. unfold bind at 1.
    unfold MercadoPagoService_processWebhook, try_catch, bind at 1, logger at 1.
    unfold bind at 1. cbv zeta. rewrite Htype, Hid, Hinvalid, Htruthy. cbn [negb orb andb].
    unfold bind, logger, ret. cbn [pw_isValid negb]. eexists. split; [reflexivity|]. done.
Qed.

End Notifications.

(** ** The error handler *)

(** X18: no internal error leaks in production.  With [NODE_ENV] set
    to production every answer of the error handler that has status 500
    carries the fixed message and no details; and an [Error] that has
    no status is answered 500 INTERNAL_SERVER_ERROR, with its message
    and its stack outside production only. *)
Theorem production_hides_internal_errors :
  (forall error r,
     errorHandler true error = Some r -> er_status r = 500 ->
     er_message r = "Error interno del servidor" /\ er_details r = None) /\
  (forall message stack,
     errorHandler true (plainError message stack)
     = Some (mkErrorResponse 500 "Error interno del servidor" "INTERNAL_SERVER_ERROR" None) /\
     errorHandler false (plainError message stack)
     = Some (mkErrorResponse 500
               (if truthy message then message else "Error interno del servidor")
               "INTERNAL_SERVER_ERROR" (Some (StackDetails stack "Error")))).
Proof.
  split.
  - intros error r. unfold errorHandler. cbv zeta.
    match goal with |- match ?c with Some _ => _ | None => _ end = _ -> _ =>
      destruct c as [[[[statusCode message] errorCode] details]|] end; [|done].
    destruct (statusCode =? 500) eqn:E; intros [= <-]; simpl; [done|].
    intros ->. discriminate.
  - intros message stack. split; reflexivity.
Qed.

(** X19: an error made with [createError] comes back as it was made.
    For a status other than 0 and 500, a message and a code that are
    not empty, the handler answers with that status, that message and
    that code, in production and outside it; the details given to
    [createError] are not sent. *)
Theorem createError_round_trip (mode : bool) (message : string) (statusCode : Z)
    (code : string) (details : option FieldError) (stack : string) :
  statusCode <> 0 -> statusCode <> 500 ->
  message <> "" -> code <> "" -> code <> "LIMIT_FILE_SIZE" ->
  errorHandler mode (createError message statusCode (Some code) details stack)
  = Some (mkErrorResponse statusCode message code None).
Proof.
  intros Hs0 Hs500 Hm Hc Hl. unfold errorHandler, createError.
  cbn [ce_name ce_message ce_stack ce_status ce_statusCode ce_code ce_errors ce_path ce_value
       ce_keyValue ce_body String.eqb Ascii.eqb Bool.eqb andb].
  apply String.eqb_neq in Hl. rewrite Hl.
  unfold orNumber, truthyNumber.
  apply Z.eqb_neq in Hs0. rewrite Hs0. cbn [negb orb default ErrorCode_text].
  unfold truthy. apply String.eqb_neq in Hm, Hc. rewrite Hm, Hc. cbn [negb].
  rewrite ?Hs0. cbn [negb from_option id].
  apply Z.eqb_neq in Hs500. rewrite Hs500. by destruct mode.
Qed.

Lemma createError_round_trip_witness :
  errorHandler true
    (createError "Ya existe un pago para este presupuesto" 400 (Some "PAYMENT_EXISTS")
       (Some (mkFieldError "quote" "duplicado" "65a000000000000000000001")) "Error: at save")
  = Some (mkErrorResponse 400 "Ya existe un pago para este presupuesto" "PAYMENT_EXISTS" None).
Proof.
  apply (createError_round_trip true "Ya existe un pago para este presupuesto" 400
           "PAYMENT_EXISTS" (Some (mkFieldError "quote" "duplicado" "65a000000000000000000001"))
           "Error: at save"); [lia|lia|discriminate|discriminate|discriminate].
Defined.

(** ** Pages *)

Lemma ceilDiv_le a b n : 0 < b -> (ceilDiv a b <= n <-> a <= n * b).
Proof.
  intros Hb. unfold ceilDiv. split; intros H.
  - assert (- n <= - a / b) as H1 by lia.
    pose proof (Z.mul_div_le (- a) b Hb) as H2. nia.
  - assert (- n <= - a / b) as H1; [|lia].
    apply Z.div_le_lower_bound; [done|]. lia.
Qed.

Lemma paginate_valid {A} (page limit : Z) (matching : list A) :
  1 <= page -> 1 <= limit ->
  paginate (Some page) (Some limit) matching
  = Some (take (Z.to_nat limit) (drop (Z.to_nat ((page - 1) * limit)) matching),
          mkPagination page limit (Z.of_nat (length matching))
            (ceilDiv (Z.of_nat (length matching)) limit)
            (page <? ceilDiv (Z.of_nat (length matching)) limit) (1 <? page)).
Proof.
  intros Hp Hl. unfold paginate, parseIntOr, skipLimit.
  destruct (Z.eqb_spec page 0) as [?|_]; [lia|].
  destruct (Z.eqb_spec limit 0) as [?|_]; [lia|].
  destruct (Z.ltb_spec ((page - 1) * limit) 0) as [?|_]; [nia|].
  destruct (Z.eqb_spec limit 0) as [?|_]; [lia|].
  rewrite Zabs2Nat.abs_nat_nonneg by lia. reflexivity.
Qed.

Lemma concat_pages {A} (perPage : nat) (matching : list A) (n : nat) :
  concat (map (fun page => take perPage (drop ((page - 1) * perPage) matching)) (seq 1 n))
  = take (n * perPage) matching.
Proof.
  induction n as [|n IH]; [done|].
  rewrite seq_S, map_app, concat_app, IH. simpl. rewrite app_nil_r.
  replace (n - 0)%nat with n by lia. rewrite take_take_drop. f_equal. lia.
Qed.

(** X20: the pages of a listing.  For a page number and a page size of
    at least 1, the page shows the documents that follow the
    (page - 1) * limit first ones, at most limit of them; it says that
    there is a next page exactly when documents follow those it shows,
    and a previous one exactly when it is not the first; the pages from
    1 to the number of pages it gives, one after the other, are the
    whole listing, and every page after them is empty. *)
Theorem pages_cover_the_listing {A} (page limit : Z) (matching : list A) :
  1 <= page -> 1 <= limit ->
  exists items pagination,
    paginate (Some page) (Some limit) matching = Some (items, pagination) /\
    items = take (Z.to_nat limit) (drop (Z.to_nat ((page - 1) * limit)) matching) /\
    pg_total pagination = Z.of_nat (length matching) /\
    (pg_hasNextPage pagination = true <-> page * limit < Z.of_nat (length matching)) /\
    (pg_hasPreviousPage pagination = true <-> 1 < page) /\
    (pg_totalPages pagination < page -> items = []) /\
    concat (map (fun n => pageItems (Z.of_nat n) limit matching)
              (seq 1 (Z.to_nat (pg_totalPages pagination))))
    = matching.
Proof.
  intros Hp Hl. do 2 eexists. split; [by apply paginate_valid|].
  cbn [pg_total pg_hasNextPage pg_hasPreviousPage pg_totalPages].
  set (total := Z.of_nat (length matching)).
  split; [done|]. split; [done|]. split; [|split; [|split]].
  - rewrite Z.ltb_lt. pose proof (ceilDiv_le total limit page ltac:(lia)). lia.
  - apply Z.ltb_lt.
  - intros Hlast. rewrite drop_ge; [by destruct (Z.to_nat limit)|].
    assert (ceilDiv total limit <= page - 1) as Hc by lia.
    apply ceilDiv_le in Hc; [|lia]. subst total. nia.
  - assert (0 <= ceilDiv total limit) as Hnn.
    { destruct (Z.le_gt_cases 0 (ceilDiv total limit)) as [|Hneg]; [done|].
      assert (ceilDiv total limit <= -1) as Hc by lia.
      apply ceilDiv_le in Hc; [|lia]. subst total. lia. }
    erewrite map_ext_in.
    + rewrite (concat_pages (Z.to_nat limit)). apply take_ge.
      pose proof (proj1 (ceilDiv_le total limit (ceilDiv total limit) ltac:(lia))
                    ltac:(lia)) as Hc.
      subst total. nia.
    + intros n Hn%in_seq. unfold pageItems. rewrite paginate_valid by lia.
      do 2 f_equal. nia.
Qed.

Lemma pages_cover_the_listing_witness :
  exists items pagination,
    paginate (Some 2) (Some 3) ["a"; "b"; "c"; "d"; "e"; "f"; "g"] = Some (items, pagination) /\
    items = take (Z.to_nat 3) (drop (Z.to_nat ((2 - 1) * 3)) ["a"; "b"; "c"; "d"; "e"; "f"; "g"]) /\
    pg_total pagination = Z.of_nat (length ["a"; "b"; "c"; "d"; "e"; "f"; "g"]) /\
    (pg_hasNextPage pagination = true
     <-> 2 * 3 < Z.of_nat (length ["a"; "b"; "c"; "d"; "e"; "f"; "g"])) /\
    (pg_hasPreviousPage pagination = true <-> 1 < 2) /\
    (pg_totalPages pagination < 2 -> items = []) /\
    concat (map (fun n => pageItems (Z.of_nat n) 3 ["a"; "b"; "c"; "d"; "e"; "f"; "g"])
              (seq 1 (Z.to_nat (pg_totalPages pagination))))
    = ["a"; "b"; "c"; "d"; "e"; "f"; "g"].
Proof.
  apply (pages_cover_the_listing 2 3 ["a"; "b"; "c"; "d"; "e"; "f"; "g"]); lia.
Defined.

(** ** Quotes that have run out *)

(** X21: the virtual [isExpired] and the expiry job.  Every quote
    that reports [isExpired] at a time is set to expired by the job run
    at that time, and after the job no quote reports [isExpired] at that
    time.  The two bounds differ: a pending quote whose expiration is
    exactly the time of the job is expired by it although [isExpired]
    says no. *)
Theorem isExpired_and_the_expiry_job (now : Z) (w : World) :
  (forall id q,
     quotes w !! id = Some q -> Quote_isExpired q now = true ->
     exists q', quotes (expireOldQuotes now w).2 !! id = Some q' /\ q_status q' = q_expired) /\
  (forall id q',
     quotes (expireOldQuotes now w).2 !! id = Some q' -> Quote_isExpired q' now = false) /\
  (forall id q,
     quotes w !! id = Some q -> q_status q = q_pending -> q_expiresAt q = now ->
     Quote_isExpired q now = false /\
     exists q', quotes (expireOldQuotes now w).2 !! id = Some q' /\ q_status q' = q_expired).
Proof.
  rewrite expireOldQuotes_quotes. split; [|split].
  - intros id q Hq He. unfold Quote_isExpired in He.
    apply andb_true_iff in He as [Ht Hs]. apply Z.ltb_lt in Ht.
    exists (expireOne now q). rewrite lookup_fmap, Hq. split; [done|].
    unfold expireOne, expireFilter. rewrite Hs.
    destruct (Z.leb_spec (q_expiresAt q) now); [done|lia].
  - intros id q'. rewrite lookup_fmap. destruct (quotes w !! id) as [q|]; [|done].
    intros [= <-]. unfold Quote_isExpired, expireOne, expireFilter.
    case_bool_decide as Hs; cbn [andb].
    + destruct (Z.leb_spec (q_expiresAt q) now) as [Hle|Hgt].
      * by rewrite andb_false_r.
      * rewrite bool_decide_true by done.
        destruct (Z.ltb_spec (q_expiresAt q) now); [lia|done].
    + rewrite bool_decide_false by done. apply andb_false_r.
  - intros id q Hq Hs Ht. split.
    + unfold Quote_isExpired. rewrite Ht, Z.ltb_irrefl. done.
    + exists (expireOne now q). rewrite lookup_fmap, Hq. split; [done|].
      unfold expireOne, expireFilter. rewrite bool_decide_true by done.
      rewrite Ht, Z.leb_refl. done.
Qed.

(** ** The configuration of the gateway *)

Lemma isValidToken_truthy token : isValidToken token = true -> truthy token = true.
Proof. by destruct token. Qed.

(** X22: [initializeMercadoPago] succeeds exactly when the access
    token starts with TEST- or APP-, and a public key and a webhook URL
    are set; the configuration it gives holds the token and the key,
    and is for the sandbox exactly when the token starts with TEST-.
    The constructor alone does not look at the webhook URL: a
    configuration it has built can fail the validation only for the
    URL. *)
Theorem initializeMercadoPago_checks (env : Env) :
  ((exists config, initializeMercadoPago env = inr config) <->
   isValidToken (default "" (env_MERCADOPAGO_ACCESS_TOKEN env)) = true /\
   truthy (default "" (env_MERCADOPAGO_PUBLIC_KEY env)) = true /\
   truthy (default "" (env_MERCADOPAGO_WEBHOOK_URL env)) = true) /\
  (forall config,
     initializeMercadoPago env = inr config ->
     accessToken config = default "" (env_MERCADOPAGO_ACCESS_TOKEN env) /\
     publicKey config = default "" (env_MERCADOPAGO_PUBLIC_KEY env) /\
     (isSandbox config = true <-> String.prefix "TEST-" (accessToken config) = true)) /\
  (forall config,
     MercadoPagoConfiguration_new env = inr config ->
     validateConfiguration env config = (true, []) \/
     validateConfiguration env config = (false, ["MERCADOPAGO_WEBHOOK_URL no configurado"]) /\
     initializeMercadoPago env
     = inl "Configuración inválida: MERCADOPAGO_WEBHOOK_URL no configurado").
Proof.
  unfold initializeMercadoPago, MercadoPagoConfiguration_new, isSandbox, getEnvironment.
  set (token := default "" (env_MERCADOPAGO_ACCESS_TOKEN env)).
  set (key := default "" (env_MERCADOPAGO_PUBLIC_KEY env)).
  set (url := default "" (env_MERCADOPAGO_WEBHOOK_URL env)).
  cbv zeta.
  destruct (isValidToken token) eqn:Hvalid.
  2:{ destruct (truthy token), (truthy key); cbn [negb];
        (split; [split; [by intros [? ?]|by intros (? & ? & ?)]|split; by intros ?]). }
  rewrite (isValidToken_truthy token Hvalid). cbn [negb].
  destruct (truthy key) eqn:Hkey; cbn [negb].
  2:{ split; [split; [by intros [? ?]|by intros (? & ? & ?)]|split; by intros ?]. }
  pose proof (isValidToken_truthy token Hvalid) as Htoken.
  assert (forall b : bool,
            truthy url = b ->
            validateConfiguration env (mkMercadoPagoConfiguration token key)
            = (b, if b then [] else ["MERCADOPAGO_WEBHOOK_URL no configurado"])) as Hcheck.
  { intros b Hb. unfold validateConfiguration, getWebhookUrl. fold url.
    cbn [accessToken publicKey]. rewrite Hvalid, Hkey, Htoken, Hb. by destruct b. }
  fold (validateConfiguration env (mkMercadoPagoConfiguration token key)).
  destruct (truthy url) eqn:Hurl.
  - rewrite (Hcheck true eq_refl). cbn [negb].
    split; [split; [done|by eexists]|].
    split.
    + intros config [= <-]. cbn [accessToken publicKey]. split; [done|]. split; [done|].
      by destruct (String.prefix "TEST-" token).
    + intros config [= <-]. left. apply (Hcheck true eq_refl).
  - rewrite (Hcheck false eq_refl). cbn [negb].
    split; [split; [by intros [? ?]|by intros (? & ? & ?)]|].
    split; [by intros ?|]. intros config [= <-]. right. split; [|done].
    apply (Hcheck false eq_refl).
Qed.

(** ** The lines of a new quote *)

Lemma mapM_castObjectId_run model items w :
  exists r,
    mapM (castObjectId model) (map productId items) w = (r, w) /\
    match objectIds items with
    | Some ids => r = inr ids
    | None => exists e, r = inl e
    end.
Proof.
  induction items as [|it items (r & IHw & IH)]; [by eexists|].
  cbn [map mapM objectIds]. unfold bind at 1, castObjectId at 1, castPath at 1.
  destruct (ObjectId.fromString (productId it)) as [oid|].
  2:{ unfold throw. eexists. split; [done|by eexists]. }
  unfold ret at 1. cbv beta iota. unfold bind at 1. rewrite IHw.
  destruct (objectIds items) as [ids|].
  - subst r. unfold ret. eexists. by split.
  - destruct IH as [e ->]. eexists. split; [done|by eexists].
Qed.

Lemma objectIds_length items ids : objectIds items = Some ids -> length ids = length items.
Proof.
  revert ids. induction items as [|it items IH]; cbn [objectIds]; intros ids.
  - by intros [= <-].
  - destruct (ObjectId.fromString (productId it)); [|done].
    destruct (objectIds items) as [ids'|]; [|done]. intros [= <-]. cbn. f_equal. by apply IH.
Qed.

Lemma objectIds_image items ids item oid :
  objectIds items = Some ids -> In item items ->
  ObjectId.fromString (productId item) = Some oid -> oid ∈ ids.
Proof.
  revert ids. induction items as [|it items IH]; cbn [objectIds]; intros ids; [done|].
  destruct (ObjectId.fromString (productId it)) as [oid'|] eqn:E; [|done].
  destruct (objectIds items) as [ids'|]; [|done]. intros [= <-] [->|Hin] Hc.
  - rewrite Hc in E. injection E as <-. apply elem_of_cons. by left.
  - apply elem_of_cons. right. by apply IH.
Qed.

Lemma objectIds_NoDup items ids :
  objectIds items = Some ids -> NoDup ids -> NoDup (map productId items).
Proof.
  revert ids. induction items as [|it items IH]; cbn [objectIds map]; intros ids.
  - intros _ _. constructor.
  - destruct (ObjectId.fromString (productId it)) as [oid|] eqn:E; [|done].
    destruct (objectIds items) as [ids'|] eqn:E'; [|done]. intros [= <-].
    intros [Hnotin Hnd]%NoDup_cons. apply NoDup_cons. split; [|by apply (IH ids')].
    intros Hin. apply Hnotin. apply list_elem_of_fmap in Hin as (it' & Heq & Hin').
    apply (objectIds_image items ids' it'); [done|by apply list_elem_of_In|].
    by rewrite <- Heq.
Qed.

Lemma objectIds_canonical_all items :
  Forall (fun item => canonicalId (productId item)) items ->
  objectIds items = Some (map productId items).
Proof.
  induction 1 as [|it items Hc _ IH]; [done|].
  cbn [objectIds map]. unfold canonicalId in Hc. by rewrite Hc, IH.
Qed.

Lemma size_list_to_set_le (l : list string) :
  (size (list_to_set (C := gset string) l) <= length l)%nat.
Proof.
  induction l as [|x l IH]; [by rewrite list_to_set_nil, size_empty|].
  rewrite list_to_set_cons. cbn [length].
  rewrite size_union_alt, size_singleton.
  assert (size (list_to_set (C := gset string) l ∖ {[x]}) <= size (list_to_set (C := gset string) l))%nat
    as Hdiff by (apply subseteq_size, subseteq_difference_l; reflexivity).
  lia.
Qed.

Lemma size_list_to_set_NoDup (l : list string) :
  size (list_to_set (C := gset string) l) = length l -> NoDup l.
Proof.
  induction l as [|x l IH]; [constructor|].
  rewrite list_to_set_cons. cbn [length]. intros Hsize.
  pose proof (size_list_to_set_le l) as Hle.
  destruct (decide (x ∈ l)) as [Hin|Hnotin].
  - assert ({[x]} ∪ list_to_set (C := gset string) l = list_to_set l) as Heq.
    { apply subseteq_union_1_L, singleton_subseteq_l. by apply elem_of_list_to_set. }
    rewrite Heq in Hsize. lia.
  - apply NoDup_cons. split; [done|]. apply IH.
    rewrite size_union in Hsize.
    + rewrite size_singleton in Hsize. lia.
    + apply disjoint_singleton_l. by rewrite elem_of_list_to_set.
Qed.

Lemma activeAmong_size ids ps :
  size (activeAmong ids ps) = length ids <->
  NoDup ids /\ forall k, k ∈ ids -> exists p, ps !! k = Some p /\ p_isActive p = true.
Proof.
  assert (dom (activeAmong ids ps) ⊆ list_to_set (C := gset string) ids) as Hsub.
  { intros k [p Hk%activeAmong_lookup]%elem_of_dom. apply elem_of_list_to_set. tauto. }
  pose proof (size_list_to_set_le ids) as Hle.
  pose proof (subseteq_size _ _ Hsub) as Hle'.
  rewrite <- size_dom. split.
  - intros Hsize. split; [apply size_list_to_set_NoDup; lia|].
    intros k Hk.
    assert (dom (activeAmong ids ps) = list_to_set (C := gset string) ids) as Heq
      by (apply set_subseteq_size_eq; [done|lia]).
    assert (k ∈ dom (activeAmong ids ps)) as [p Hp%activeAmong_lookup]%elem_of_dom
      by (rewrite Heq; by apply elem_of_list_to_set).
    exists p. tauto.
  - intros [Hnd Hall].
    assert (dom (activeAmong ids ps) = list_to_set (C := gset string) ids) as Heq.
    { apply set_eq_subseteq. split; [done|]. intros k Hk%elem_of_list_to_set.
      destruct (Hall k Hk) as (p & Hp & Ha). apply elem_of_dom. exists p.
      apply activeAmong_lookup. tauto. }
    rewrite Heq. by apply size_list_to_set.
Qed.

Lemma createQuote_lines_accepted pm items quoteItems :
  createQuote_lines pm items = (quoteItems, []) ->
  Forall2 (fun item qi =>
             snapshotItem pm item qi /\
             exists p, pm !! productId item = Some p /\
                       Product_validateStock p (quantity item) = true)
          items quoteItems.
Proof.
  revert quoteItems. induction items as [|it items IH]; intros quoteItems; cbn [createQuote_lines].
  - intros [= <-]. constructor.
  - destruct (createQuote_lines pm items) as [qis errs].
    destruct (pm !! productId it) as [p|] eqn:Hp; [|done].
    destruct (Product_validateStock p (quantity it)) eqn:Hv; cbn [negb]; [|done].
    intros [= <- ->]. constructor; [|by apply IH].
    split; [|by exists p]. by exists p.
Qed.

Lemma createQuote_lines_accepts pm items :
  Forall (fun item => exists p, pm !! productId item = Some p /\
                                Product_validateStock p (quantity item) = true) items ->
  exists quoteItems, createQuote_lines pm items = (quoteItems, []).
Proof.
  induction 1 as [|it items (p & Hp & Hv) _ [qis IH]]; [by eexists|].
  cbn [createQuote_lines]. rewrite IH, Hp, Hv. cbn [negb]. by eexists.
Qed.

Lemma createQuote_items_run items w :
  match objectIds items with
  | None =>
      exists e,
        createQuote_items items w
        = (inl e,
           mkWorld (products w) (quotes w) (payments w)
             (logs w ++ [(Error, "Error creando presupuesto:")]))
  | Some ids =>
      createQuote_items items w
      = (inr (if negb (Nat.eqb (size (activeAmong ids (products w))) (length items))
              then inl (badRequestResponse
                          "Uno o más productos no fueron encontrados o están inactivos")
              else
                let '(quoteItems, stockErrors) :=
                  createQuote_lines (activeAmong ids (products w)) items in
                if (0 <? length stockErrors)%nat
                then inl (badRequestResponse "Errores de validación de stock")
                else inr quoteItems),
         w)
  end.
Proof.
  unfold createQuote_items, try_catch, bind. cbv zeta.
  destruct (mapM_castObjectId_run "Product" items w) as (r & -> & Hr).
  destruct (objectIds items) as [ids|].
  - subst r. unfold Product_findActive. rewrite length_map.
    destruct (negb _); [done|].
    destruct (createQuote_lines _ items) as [qis errs].
    by destruct (0 <? length errs)%nat.
  - destruct Hr as [e ->]. by exists e.
Qed.

(** X23: the lines of a new quote.  [createQuote] gets past its
    checks of the lines exactly when the product ids of the request are
    pairwise different and every line names, by the lower-case text of
    its id, an active product with stock for a positive quantity; the
    items it then builds are the lines in their order, each with the
    name and the price of its product.  A request that names one
    product twice is refused as if a product were missing, whatever the
    stock is.  Nothing is written by this part. *)
Theorem createQuote_checks_the_lines (items : list StockItem) (w : World) :
  sameData w (createQuote_items items w).2 /\
  ((exists quoteItems, (createQuote_items items w).1 = inr (inr quoteItems)) <->
   NoDup (map productId items) /\ Forall (lineServable (products w)) items) /\
  (forall quoteItems,
     (createQuote_items items w).1 = inr (inr quoteItems) ->
     Forall2 (snapshotItem (products w)) items quoteItems) /\
  (Forall validId items -> ~ NoDup (map productId items) ->
   (createQuote_items items w).1
   = inr (inl (badRequestResponse
                 "Uno o más productos no fueron encontrados o están inactivos"))).
Proof.
  pose proof (createQuote_items_run items w) as Hrun.
  destruct (objectIds items) as [ids|] eqn:Hids.
  2:{ destruct Hrun as [e ->]. cbn [fst snd]. split; [done|]. split; [split|split].
      - by intros [? ?].
      - intros [_ Hall]. exfalso.
        assert (is_Some (objectIds items)) as [? ?]; [|congruence].
        apply objectIds_Some. eapply Forall_impl; [exact Hall|].
        intros item. apply lineServable_validId.
      - by intros ?.
      - intros Hvalid. apply objectIds_Some in Hvalid as [? ?]. congruence. }
  rewrite Hrun. cbn [fst snd]. split; [done|].
  pose proof (objectIds_length _ _ Hids) as Hlen.
  set (pm := activeAmong ids (products w)) in *.
  assert (forall quoteItems,
            (if negb (Nat.eqb (size pm) (length items))
             then inl (badRequestResponse
                         "Uno o más productos no fueron encontrados o están inactivos")
             else
               let '(quoteItems, stockErrors) := createQuote_lines pm items in
               if (0 <? length stockErrors)%nat
               then inl (badRequestResponse "Errores de validación de stock")
               else inr quoteItems) = inr quoteItems ->
            NoDup ids /\ createQuote_lines pm items = (quoteItems, [])) as Hacc.
  { intros quoteItems Hr.
    destruct (Nat.eqb_spec (size pm) (length items)) as [Hsize|Hsize]; cbn [negb] in Hr; [|done].
    rewrite <- Hlen in Hsize. apply activeAmong_size in Hsize as [Hnd _]. split; [done|].
    destruct (createQuote_lines pm items) as [qis errs]. destruct errs; [|done].
    cbn in Hr. by injection Hr as ->. }
  clear Hrun.
  split; [split|split].
  - intros [quoteItems [= Heq]]. destruct (Hacc _ Heq) as [Hnd Hlines].
    split; [by eapply objectIds_NoDup|].
    apply createQuote_lines_accepted in Hlines.
    assert (forall k, k ∈ ids -> canonicalId k) as Hcanon
      by (intros k; by apply objectIds_canonical with items).
    clear Hacc Heq Hlen Hids.
    induction Hlines as [|item qi items' qis [_ (p & Hp & Hv)] _ IH]; constructor; [|done].
    apply activeAmong_lookup in Hp as (Hp & Hin & Ha).
    split; [by apply Hcanon|]. exists p.
    unfold Product_validateStock in Hv. apply andb_true_iff in Hv as [Hle Hpos].
    apply Z.leb_le in Hle. apply Z.ltb_lt in Hpos. repeat split; (done || lia).
  - intros [Hnd Hall].
    assert (ids = map productId items) as ->.
    { assert (objectIds items = Some (map productId items)) as Hc; [|congruence].
      apply objectIds_canonical_all. eapply Forall_impl; [exact Hall|]. by intros item [Hc _]. }
    assert (size pm = length items) as ->.
    { rewrite <- Hlen. apply activeAmong_size. split; [done|].
      intros k (item & -> & Hin)%list_elem_of_fmap.
      rewrite Forall_forall in Hall. destruct (Hall item Hin) as (_ & p & Hp & Ha & _).
      by exists p. }
    rewrite Nat.eqb_refl. cbn [negb].
    destruct (createQuote_lines_accepts pm items) as [quoteItems ->]; [|by eexists].
    apply Forall_forall. intros item Hin.
    rewrite Forall_forall in Hall.
    destruct (lineServable_snapshot items (map productId items) (products w) item)
      as (p & Hp & _ & Hq); [done|by apply list_elem_of_In|by apply Hall|].
    exists p. split; [done|]. unfold Product_validateStock.
    apply andb_true_iff. split; [apply Z.leb_le|apply Z.ltb_lt]; lia.
  - intros quoteItems [= Heq]. destruct (Hacc _ Heq) as [_ Hlines].
    apply createQuote_lines_accepted in Hlines.
    eapply Forall2_impl; [exact Hlines|].
    intros item qi [(p & Hp & Hrest) _]. exists p. split; [|done].
    by apply activeAmong_lookup in Hp as (Hp & _).
  - intros _ Hdup.
    destruct (Nat.eqb_spec (size pm) (length items)) as [Hsize|Hsize]; [|done].
    rewrite <- Hlen in Hsize. apply activeAmong_size in Hsize as [Hnd _].
    destruct Hdup. by eapply objectIds_NoDup.
Qed.
